(** * mcp-client-server: the process-backed RPC session layer

    A shallow embedding of [src/operations/client] (transport, cache,
    connection, tools, tests) and [src/operations/docker] (process, deploy,
    container, logs), with the properties of the specification stated over it.

    JavaScript strings are modelled as [string], one [ascii] per code unit;
    a [Buffer] is a [list byte], and what its [toString] gives is the
    environment's;
    JavaScript numbers that count or index are [Z]; a [Map<string, _>] is a
    [gmap string _]; objects with identity (child processes, transports,
    clients) live in stores indexed by the reference they are known by.
    What the sources call but do not contain (the runtime, the RPC client of
    the SDK, the error classes, the operating system) is the environment
    [Env]. The calls of the logger are left out. The handlers that the RPC
    client registers on a transport are its own code: a call of one is
    recorded as a notification and returns, but for [onclose], which throws
    when the environment says so. *)

From Stdlib Require Import ZArith Ascii String List Lia Bool.
From Stdlib Require Strings.Byte.
From stdpp Require Import gmap strings list.
From Equations Require Import Equations.

Open Scope Z_scope.
Set Warnings "-register-all".

(** ** JavaScript string primitives used by the sources *)

Module Js.

(** The one-character string the transport scans for. *)
Definition LF_char : ascii := "010"%char.
Definition LF : string := String LF_char EmptyString.

Definition len (s : string) : Z := Z.of_nat (String.length s).

(** [s.indexOf(pat)]: index of the first occurrence, or -1. *)
Fixpoint indexOf_from (i : Z) (s pat : string) : Z :=
  if String.prefix pat s then i
  else match s with
       | EmptyString => -1
       | String _ s' => indexOf_from (i + 1) s' pat
       end.

Definition indexOf (s pat : string) : Z := indexOf_from 0 s pat.

(** [s.includes(pat)] *)
Definition includes (s pat : string) : bool := negb (indexOf s pat =? -1).

(** Relative index of [slice]: negative counts from the end, then clamp. *)
Definition clamp_index (n : Z) (i : Z) : Z :=
  if i <? 0 then Z.max (n + i) 0 else Z.min i n.

(** [s.slice(start, end)] *)
Definition slice (s : string) (start stop : Z) : string :=
  let from := clamp_index (len s) start in
  let to := clamp_index (len s) stop in
  String.substring (Z.to_nat from) (Z.to_nat (to - from)) s.

(** [s.slice(start)] *)
Definition slice_from (s : string) (start : Z) : string :=
  slice s start (len s).

(** White space and line terminators of ECMAScript that fit a code unit of
    this model: TAB, LF, VT, FF, CR, SP, NBSP. *)
Definition is_space (c : ascii) : bool :=
  let n := nat_of_ascii c in
  ((9 <=? n) && (n <=? 13) || (n =? 32) || (n =? 160))%nat.

Fixpoint trimStart (s : string) : string :=
  match s with
  | String c s' => if is_space c then trimStart s' else s
  | EmptyString => EmptyString
  end.

(** Drops the trailing white space: the result of the fold is the string
    without its white-space suffix. *)
Fixpoint trimEnd (s : string) : string :=
  match s with
  | EmptyString => EmptyString
  | String c s' =>
      match trimEnd s' with
      | EmptyString => if is_space c then EmptyString else String c EmptyString
      | r => String c r
      end
  end.

(** [s.trim()] *)
Definition trim (s : string) : string := trimEnd (trimStart s).

(** Truthiness of a string: every string but the empty one. *)
Definition truthy (s : string) : bool :=
  match s with EmptyString => false | _ => true end.

End Js.

(** Facts about the primitives that the transport's loop relies on. *)

Lemma append_nil_l (b : string) : EmptyString +:+ b = b.
Proof. reflexivity. Qed.

Lemma append_cons (c : ascii) (a b : string) :
  String c a +:+ b = String c (a +:+ b).
Proof. reflexivity. Qed.

Lemma length_append (a b : string) :
  String.length (a +:+ b) = (String.length a + String.length b)%nat.
Proof.
  induction a as [|c a IH]; [reflexivity |].
  rewrite append_cons. simpl. now rewrite IH.
Qed.

Lemma append_assoc (a b c : string) : (a +:+ b) +:+ c = a +:+ (b +:+ c).
Proof.
  induction a as [|x a IH]; [reflexivity |].
  rewrite !append_cons. now rewrite IH.
Qed.

Lemma append_nil_r (a : string) : a +:+ EmptyString = a.
Proof.
  induction a as [|x a IH]; [reflexivity |].
  rewrite append_cons. now rewrite IH.
Qed.

Lemma substring_all (s : string) : String.substring 0 (String.length s) s = s.
Proof. induction s as [|c s IH]; simpl; [reflexivity | now rewrite IH]. Qed.

Lemma substring_prefix (pre x : string) :
  String.substring 0 (String.length pre) (pre +:+ x) = pre.
Proof.
  induction pre as [|c pre IH].
  - rewrite append_nil_l. now destruct x.
  - rewrite append_cons. simpl. now rewrite IH.
Qed.

Lemma substring_skip (pre x : string) (n m : nat) :
  String.substring (String.length pre + n) m (pre +:+ x) = String.substring n m x.
Proof.
  induction pre as [|c pre IH]; [reflexivity |].
  rewrite append_cons. simpl. exact IH.
Qed.

(** [has_LF s]: some code unit of [s] is the line feed. *)
Fixpoint has_LF (s : string) : bool :=
  match s with
  | EmptyString => false
  | String c s' => if decide (c = Js.LF_char) then true else has_LF s'
  end.

Lemma indexOf_from_nil (i : Z) : Js.indexOf_from i EmptyString Js.LF = -1.
Proof. reflexivity. Qed.

Lemma indexOf_from_cons (i : Z) (c : ascii) (s : string) :
  Js.indexOf_from i (String c s) Js.LF =
  if decide (c = Js.LF_char) then i else Js.indexOf_from (i + 1) s Js.LF.
Proof.
  change (Js.indexOf_from i (String c s) Js.LF)
    with (if (if ascii_dec Js.LF_char c then String.prefix EmptyString s else false)
          then i else Js.indexOf_from (i + 1) s Js.LF).
  destruct (ascii_dec Js.LF_char c) as [E | E];
    destruct (decide (c = Js.LF_char)) as [D | D]; try congruence.
  now destruct s.
Qed.

Lemma indexOf_from_absent (s : string) (i : Z) :
  has_LF s = false -> Js.indexOf_from i s Js.LF = -1.
Proof.
  revert i. induction s as [|c s IH]; intros i H.
  - reflexivity.
  - rewrite indexOf_from_cons. simpl in H.
    destruct (decide (c = Js.LF_char)); [discriminate | now apply IH].
Qed.

Lemma indexOf_from_found (pre rest : string) (i : Z) :
  has_LF pre = false ->
  Js.indexOf_from i (pre +:+ Js.LF +:+ rest) Js.LF = i + Js.len pre.
Proof.
  revert i. induction pre as [|c pre IH]; intros i H.
  - rewrite append_nil_l. unfold Js.LF. rewrite append_cons, indexOf_from_cons.
    rewrite decide_True by reflexivity. unfold Js.len. simpl. lia.
  - rewrite append_cons, indexOf_from_cons. simpl in H.
    destruct (decide (c = Js.LF_char)); [discriminate |].
    rewrite IH by assumption. unfold Js.len. simpl String.length. lia.
Qed.

(** Every string either has no line feed, or splits at its first one. *)
Lemma first_LF (s : string) :
  has_LF s = false \/
  exists pre rest, s = pre +:+ Js.LF +:+ rest /\ has_LF pre = false.
Proof.
  induction s as [|c s IH]; simpl; [now left |].
  destruct (decide (c = Js.LF_char)) as [-> | Hne].
  - right. exists EmptyString, s. split; reflexivity.
  - destruct IH as [H | (pre & rest & -> & H)]; [now left |].
    right. exists (String c pre), rest. split; [reflexivity |].
    simpl. now destruct (decide (c = Js.LF_char)).
Qed.

Lemma slice_line (pre rest : string) :
  Js.slice (pre +:+ Js.LF +:+ rest) 0 (Js.len pre) = pre.
Proof.
  unfold Js.slice, Js.clamp_index, Js.len.
  rewrite !length_append. simpl String.length.
  replace (0 <? 0) with false by reflexivity.
  destruct (Z.ltb_spec (Z.of_nat (String.length pre)) 0) as [Hneg | _]; [lia |].
  rewrite Z.min_l by lia. rewrite Z.min_l by lia.
  rewrite Z.sub_0_r, Nat2Z.id. simpl Z.to_nat.
  apply substring_prefix.
Qed.

Lemma slice_rest (pre rest : string) :
  Js.slice_from (pre +:+ Js.LF +:+ rest) (Js.len pre + 1) = rest.
Proof.
  unfold Js.slice_from, Js.slice, Js.clamp_index, Js.len.
  rewrite !length_append. simpl String.length.
  set (n := String.length pre). set (m := String.length rest).
  destruct (Z.ltb_spec (Z.of_nat n + 1) 0) as [Hneg | _]; [lia |].
  destruct (Z.ltb_spec (Z.of_nat (n + (1 + m))) 0) as [Hneg | _]; [lia |].
  rewrite Z.min_l by lia. rewrite Z.min_id.
  replace (Z.to_nat (Z.of_nat n + 1)) with (n + 1)%nat by lia.
  replace (Z.to_nat (Z.of_nat (n + (1 + m)) - (Z.of_nat n + 1))) with m by lia.
  subst n. rewrite substring_skip. simpl. subst m. apply substring_all.
Qed.

(** ** Values, errors and the environment *)

(** JSON values, as [JSON.parse] produces them and the sources inspect them.
    Numbers of the model are the integers. *)
Inductive Json :=
| JNull
| JBool (b : bool)
| JNum (n : Z)
| JStr (s : string)
| JArr (items : list Json)
| JObj (fields : list (string * Json)).

(** The error classes the sources throw: three classes of [common/errors.js]
    and the plain [Error] (also standing for [TypeError] and [SyntaxError]). *)
Inductive Error :=
| ServerNotFoundError (name : string)
| ServerDeploymentError (msg : string)
| ToolCallError (server tool msg : string)
| JsError (msg : string).

(** Outcome of a call that may throw, or of an awaited promise. *)
Inductive Result (A : Type) :=
| Ok (a : A)
| Throw (e : Error).
Arguments Ok {A} a.
Arguments Throw {A} e.

(** The value of an outcome, if it is one. *)
Definition fst_ok {A : Type} (r : Result A) : option A :=
  match r with
  | Ok a => Some a
  | Throw _ => None
  end.

(** A promise of the RPC client: when it settles, and how. *)
Inductive Settled (A : Type) :=
| Fulfilled (a : A)
| Rejected (msg : string).
Arguments Fulfilled {A} a.
Arguments Rejected {A} msg.

Record Rpc (A : Type) := { rpc_after : Z; rpc_result : Settled A }.
Arguments rpc_after {A} r.
Arguments rpc_result {A} r.

(** One tool of a [tools/list] answer; only its name is read. *)
Module Tool.
Record t := { name : string }.
End Tool.

(** What the sources take from outside: the JavaScript runtime, the three
    error classes' messages ([common/errors.js] is not among the sources), the
    RPC client of the SDK and the operating system. The answers of the RPC
    client and of the system are indexed by the number of the request: the
    world counts them in [tick]. [onclose_throws] says whether the handler
    the client registered for [onclose] throws, which makes [close] reject.
    [Buffer_toString] is [buffer.toString()], the decoding of a chunk of
    bytes on its own. [exits_during_wait] gives, by the reference of the
    process that [deployServer] has started, the processes that end within
    the second it then waits, in the order in which they end.
    A promise that never settles makes an await without a timeout wait for
    ever; such runs return nothing and [Rpc] has no value for them, while
    under a timeout any [rpc_after] of the timeout or more stands for them. *)
Record Env := {
  JSON_parse : string -> Json + string;
  JSON_stringify : Json -> string;
  to_String : Json -> string;
  RegExp_test : Json -> string -> bool + string;
  path_join : string -> string -> string;
  cwd : string;
  ServerNotFoundError_message : string -> string;
  ServerDeploymentError_message : string -> string;
  ToolCallError_message : string -> string -> string -> string;
  client_connect : nat -> Rpc unit;
  client_listTools : nat -> Rpc (option (list Tool.t));
  client_callTool : nat -> string -> Json -> Rpc Json;
  onclose_throws : nat -> option string;
  Date_now : nat -> Z;
  spawn_throws : nat -> option string;
  child_exits_on_SIGTERM : nat -> bool;
  Buffer_toString : list Byte.byte -> string;
  exits_during_wait : nat -> list nat
}.

(** [error.message] *)
Definition message (E : Env) (e : Error) : string :=
  match e with
  | ServerNotFoundError name => ServerNotFoundError_message E name
  | ServerDeploymentError msg => ServerDeploymentError_message E msg
  | ToolCallError server tool msg => ToolCallError_message E server tool msg
  | JsError msg => msg
  end.

(** The three notifications of a transport; the RPC client registers the
    handlers ([onmessage], [onerror], [onclose]) and a call of one is
    recorded. *)
Inductive Notification :=
| OnMessage (m : Json)
| OnError (msg : string)
| OnClose.

(** ** Child processes ([child_process] of the runtime) *)

Inductive Signal := SIGTERM | SIGKILL.

(** The closures the sources register on a child process's [exit] event. *)
Inductive ExitListener :=
| TransportExit (transport : nat)
| DeployExit (name : string) (persistent : bool).

(** A child process object. [killed] is the runtime's flag: a signal has been
    sent with [kill]; it does not say that the process has terminated.
    [exited] says that it has. [exits_on_SIGTERM] is the behaviour of the
    program: it ends within a second of a [SIGTERM]. [signalled] says that a
    signal that ends the process has been delivered and its [exit] event is
    still to come.
    Listeners are kept in the order of registration, each [exit] listener with
    the identity of its closure. *)
Record ChildProcess := {
  killed : bool;
  exited : bool;
  signalled : bool;
  exits_on_SIGTERM : bool;
  exit_listeners : list (nat * ExitListener);
  error_listeners : list nat;
  data_listeners : list nat
}.

(** [ServerProcess] of [process.ts]; [process] refers to the child process
    object, whose streams [stdin] and [stdout] are. *)
Record ServerProcess := {
  process : nat;
  name : string;
  source_path : string;
  deployed_at : Z
}.

(** [ProcessTransport] of [transport.ts]. [exitHandler] holds the identity
    of the closure [start] stored; the three handler slots say whether a
    handler is registered. *)
Record ProcessTransport := {
  server : ServerProcess;
  messageBuffer : string;
  isConnected : bool;
  exitHandler : option nat;
  onclose : bool;
  onerror : bool;
  onmessage : bool
}.

(** The operations of the runtime on a child process object. *)
Module Child.

Definition set_listeners (ex : list (nat * ExitListener)) (er da : list nat)
    (p : ChildProcess) : ChildProcess :=
  {| killed := killed p; exited := exited p; signalled := signalled p;
     exits_on_SIGTERM := exits_on_SIGTERM p;
     exit_listeners := ex; error_listeners := er; data_listeners := da |}.

(** A process as [spawn] returns it. *)
Definition spawned (exits_on_term : bool) : ChildProcess :=
  {| killed := false; exited := false; signalled := false;
     exits_on_SIGTERM := exits_on_term;
     exit_listeners := []; error_listeners := []; data_listeners := [] |}.

(** Does the signal end a process that has this behaviour? [SIGKILL] cannot
    be caught. *)
Definition fatal (sig : Signal) (p : ChildProcess) : bool :=
  match sig with
  | SIGKILL => true
  | SIGTERM => exits_on_SIGTERM p
  end.

(** [p.kill(signal)]: no signal is sent to a process that has exited, and
    the call returns false; otherwise the signal is sent, [killed] becomes
    true and the call returns true. *)
Definition kill (sig : Signal) (p : ChildProcess) : ChildProcess * bool :=
  if exited p then (p, false)
  else ({| killed := true; exited := false;
           signalled := signalled p || fatal sig p;
           exits_on_SIGTERM := exits_on_SIGTERM p;
           exit_listeners := exit_listeners p;
           error_listeners := error_listeners p;
           data_listeners := data_listeners p |}, true).

(** [p.on(exit, closure)] *)
Definition on_exit (h : nat) (l : ExitListener) (p : ChildProcess) : ChildProcess :=
  set_listeners (exit_listeners p ++ [(h, l)]) (error_listeners p)
    (data_listeners p) p.

(** The list without the first entry of the closure [h]. *)
Fixpoint remove_first (h : nat) (ls : list (nat * ExitListener))
  : list (nat * ExitListener) :=
  match ls with
  | [] => []
  | l :: ls' => if decide (fst l = h) then ls' else l :: remove_first h ls'
  end.

(** [p.removeListener(exit, closure)]: removes the most recently added
    registration of the closure, if there is one. *)
Definition removeListener_exit (h : nat) (p : ChildProcess) : ChildProcess :=
  set_listeners (rev (remove_first h (rev (exit_listeners p))))
    (error_listeners p) (data_listeners p) p.

(** [p.on(error, closure)] and [p.stdout.on(data, closure)], the closures
    being those of the transport with the given reference. *)
Definition on_error (t : nat) (p : ChildProcess) : ChildProcess :=
  set_listeners (exit_listeners p) (error_listeners p ++ [t]) (data_listeners p) p.

Definition on_data (t : nat) (p : ChildProcess) : ChildProcess :=
  set_listeners (exit_listeners p) (error_listeners p) (data_listeners p ++ [t]) p.

(** The process terminates: the runtime emits [exit] once, to the listeners
    registered at that time. *)
Definition emit_exit (p : ChildProcess) : ChildProcess * list (nat * ExitListener) :=
  if exited p then (p, [])
  else ({| killed := killed p; exited := true; signalled := false;
           exits_on_SIGTERM := exits_on_SIGTERM p;
           exit_listeners := exit_listeners p;
           error_listeners := error_listeners p;
           data_listeners := data_listeners p |}, exit_listeners p).

End Child.

(** ** The framed transport ([transport.ts]) *)

Module Transport.

(** Keeps the equation of a matched value, for the loop's termination. *)
Definition inspect {A : Type} (x : A) : {y : A | x = y} := exist _ x eq_refl.
Notation "x 'eqn:' p" := (exist _ x p) (only parsing, at level 20).

Definition set_messageBuffer (b : string) (t : ProcessTransport) : ProcessTransport :=
  {| server := server t; messageBuffer := b; isConnected := isConnected t;
     exitHandler := exitHandler t; onclose := onclose t; onerror := onerror t;
     onmessage := onmessage t |}.

Definition set_isConnected (b : bool) (t : ProcessTransport) : ProcessTransport :=
  {| server := server t; messageBuffer := messageBuffer t; isConnected := b;
     exitHandler := exitHandler t; onclose := onclose t; onerror := onerror t;
     onmessage := onmessage t |}.

Definition set_exitHandler (h : option nat) (t : ProcessTransport) : ProcessTransport :=
  {| server := server t; messageBuffer := messageBuffer t; isConnected := isConnected t;
     exitHandler := h; onclose := onclose t; onerror := onerror t;
     onmessage := onmessage t |}.

(** [new ProcessTransport(server)] *)
Definition new (srv : ServerProcess) : ProcessTransport :=
  {| server := srv; messageBuffer := EmptyString; isConnected := false;
     exitHandler := None; onclose := false; onerror := false; onmessage := false |}.

(** The body of the loop of [handleData] for one line [messageStr]: a line
    that is empty after [trim] is skipped; a line that parses goes to
    [onmessage]; one that does not goes to [onerror]. *)
Definition dispatch (E : Env) (t : ProcessTransport) (messageStr : string)
  : list Notification :=
  if Js.truthy (Js.trim messageStr) then
    match JSON_parse E messageStr with
    | inl message => if onmessage t then [OnMessage message] else []
    | inr err => if onerror t then [OnError err] else []
    end
  else [].

Lemma indexOf_LF_cases (buf : string) :
  (Js.indexOf buf Js.LF = -1 /\ has_LF buf = false) \/
  (exists pre rest, buf = pre +:+ Js.LF +:+ rest /\ has_LF pre = false /\
                    Js.indexOf buf Js.LF = Js.len pre).
Proof.
  destruct (first_LF buf) as [H | (pre & rest & -> & H)].
  - left. split; [now apply indexOf_from_absent | assumption].
  - right. exists pre, rest. repeat split; try assumption.
    unfold Js.indexOf. now rewrite indexOf_from_found.
Qed.

Lemma loop_decreases (buf : string) (i : Z) :
  Js.indexOf buf Js.LF = i -> (i =? -1) = false ->
  (String.length (Js.slice_from buf (i + 1)) < String.length buf)%nat.
Proof.
  intros Hi Hne. apply Z.eqb_neq in Hne.
  destruct (indexOf_LF_cases buf) as [[H _] | (pre & rest & -> & Hpre & H)].
  - congruence.
  - rewrite H in Hi. subst i. rewrite slice_rest.
    rewrite !length_append. simpl. lia.
Qed.

(** The loop of [handleData]:
    [while ((i = buffer.indexOf(LF)) !== -1) { line = buffer.slice(0, i);
    buffer = buffer.slice(i + 1); ... }]. It returns the buffer that is left
    and the notifications in the order they were made. *)
Equations handleData_loop (E : Env) (t : ProcessTransport) (buf : string)
  : string * list Notification by wf (String.length buf) lt :=
  handleData_loop E t buf with inspect (Js.indexOf buf Js.LF) := {
    | messageEndIndex eqn:Hidx with inspect (messageEndIndex =? -1) := {
      | true eqn:_ := (buf, [])
      | false eqn:Hne :=
          let messageStr := Js.slice buf 0 messageEndIndex in
          let rest := handleData_loop E t (Js.slice_from buf (messageEndIndex + 1)) in
          (fst rest, dispatch E t messageStr ++ snd rest) } }.
Next Obligation. intros. now apply loop_decreases. Qed.

(** [handleData(data)] *)
Definition handleData (E : Env) (t : ProcessTransport) (data : string)
  : ProcessTransport * list Notification :=
  let r := handleData_loop E t (messageBuffer t +:+ data) in
  (set_messageBuffer (fst r) t, snd r).

(** [start()], for the transport known by the reference [self]; [h] is the
    identity of the closure made for [exitHandler] and [p] the process object
    of [server.process], if there is one. *)
Definition start (self h : nat) (t : ProcessTransport) (p : option ChildProcess)
  : ProcessTransport * option ChildProcess * Result unit :=
  match p with
  | Some cp =>
      if killed cp then
        (set_isConnected false t, p,
         Throw (JsError ("Server process for " +:+ name (server t) +:+ " is not active")))
      else
        let cp1 := Child.on_data self cp in
        let cp2 := Child.on_exit h (TransportExit self) cp1 in
        let cp3 := Child.on_error self cp2 in
        (set_isConnected true (set_exitHandler (Some h) t), Some cp3, Ok tt)
  | None =>
      (set_isConnected false t, p,
       Throw (JsError ("Server process for " +:+ name (server t) +:+ " is not active")))
  end.

(** The [exit] listener that [start] registers. *)
Definition on_process_exit (t : ProcessTransport)
  : ProcessTransport * list Notification :=
  (set_isConnected false t, if onclose t then [OnClose] else []).

(** The [error] listener that [start] registers. *)
Definition on_process_error (t : ProcessTransport) (err : string)
  : ProcessTransport * list Notification :=
  (set_isConnected false t, if onerror t then [OnError err] else []).

(** [close()]: removes the [exit] listener, signals the process unless
    [killed] is set, and in every case marks the transport disconnected and
    calls [onclose]. *)
Definition close (t : ProcessTransport) (p : option ChildProcess)
  : ProcessTransport * option ChildProcess * list Notification :=
  let p1 :=
    match exitHandler t, p with
    | Some h, Some cp => Some (Child.removeListener_exit h cp)
    | _, _ => p
    end in
  let p2 :=
    match p1 with
    | Some cp => if killed cp then p1 else Some (fst (Child.kill SIGTERM cp))
    | None => None
    end in
  (set_isConnected false t, p2, if onclose t then [OnClose] else []).

(** The [data] listener that [start] registers on the standard output:
    [(data: Buffer) => { this.handleData(data.toString()) }]. Every chunk is
    decoded on its own. *)
Definition data_listener (E : Env) (t : ProcessTransport) (data : list Byte.byte)
  : ProcessTransport * list Notification :=
  handleData E t (Buffer_toString E data).

(** The chunks of a stream of bytes arriving, one [data] event per chunk;
    the notifications are collected in order. *)
Fixpoint receive (E : Env) (t : ProcessTransport) (chunks : list (list Byte.byte))
  : ProcessTransport * list Notification :=
  match chunks with
  | [] => (t, [])
  | data :: more =>
      let r1 := data_listener E t data in
      let r2 := receive E (fst r1) more in
      (fst r2, snd r1 ++ snd r2)
  end.

(** Calls of [handleData] one after the other, one per string, the strings
    being what the listener has decoded; the notifications are collected in
    order. *)
Fixpoint feed (E : Env) (t : ProcessTransport) (chunks : list string)
  : ProcessTransport * list Notification :=
  match chunks with
  | [] => (t, [])
  | data :: more =>
      let r1 := handleData E t data in
      let r2 := feed E (fst r1) more in
      (fst r2, snd r1 ++ snd r2)
  end.

(** The stream that a list of chunks reassembles to. *)
Definition reassemble (chunks : list string) : string :=
  fold_right String.append EmptyString chunks.

(** The specification's frames, independent of the loop: the lines of a
    stream that are terminated by a line feed, in order, and the fragment
    after the last line feed. *)
Fixpoint split_frames (s : string) : list string * string :=
  match s with
  | EmptyString => ([], EmptyString)
  | String c s' =>
      let r := split_frames s' in
      if decide (c = Js.LF_char) then (EmptyString :: fst r, snd r)
      else match fst r with
           | [] => ([], String c (snd r))
           | line :: lines => (String c line :: lines, snd r)
           end
  end.

Definition complete_frames (s : string) : list string := fst (split_frames s).
Definition trailing_fragment (s : string) : string := snd (split_frames s).

(** The stream with the given frames, each followed by its line feed, and
    the given fragment after them. *)
Definition framed (frames : list string) (fragment : string) : string :=
  fold_right (fun line acc => line +:+ Js.LF +:+ acc) fragment frames.

(** The standard input of the server process, as [send] sees it: whether
    the stream is [writable], the message of what [write] throws if it
    throws, and the strings written so far. *)
Record Stdin := {
  writable : bool;
  write_throws : option string;
  written : list string
}.

(** [send(message)]: rejects, after a call of [onerror], when the transport
    is not connected or the stream is not writable; else writes the message
    as one line. A [write] that throws disconnects the transport, goes to
    [onerror] and rejects. What is thrown is an [Error] object here. *)
Definition send (E : Env) (t : ProcessTransport) (stdin : Stdin) (message : Json)
  : ProcessTransport * Stdin * list Notification * Result unit :=
  if negb (isConnected t) || negb (writable stdin) then
    let err := "Cannot send message to " +:+ name (server t) +:+
               ": transport not connected" in
    (t, stdin, if onerror t then [OnError err] else [], Throw (JsError err))
  else
    match write_throws stdin with
    | Some msg =>
        (set_isConnected false t, stdin, if onerror t then [OnError msg] else [],
         Throw (JsError msg))
    | None =>
        (t, {| writable := writable stdin; write_throws := write_throws stdin;
               written := written stdin ++ [JSON_stringify E message +:+ Js.LF] |},
         [], Ok tt)
    end.

(** Sending messages one after the other, each [send] awaited; the first
    rejection ends the run. *)
Fixpoint send_each (E : Env) (t : ProcessTransport) (stdin : Stdin) (messages : list Json)
  : ProcessTransport * Stdin * list Notification * Result unit :=
  match messages with
  | [] => (t, stdin, [], Ok tt)
  | message :: more =>
      match send E t stdin message with
      | (t1, stdin1, ns, Ok _) =>
          match send_each E t1 stdin1 more with
          | (t2, stdin2, ns', r) => (t2, stdin2, ns ++ ns', r)
          end
      | rejected => rejected
      end
  end.

End Transport.

(** ** The world of the session layer

    The two maps of the sources ([runningServers] of [process.ts] and
    [connectedClients] of [cache.ts]), the objects they refer to, the files
    the sources look at, and a log of what was done to the outside. An
    exported operation is one transition of the world; what the event loop
    does between two operations (a child process exits, fails, or writes to
    its output) is a transition of its own, see [process_exit],
    [process_error] and [process_output]. The wait of [terminateProcess] for
    the [exit] event is part of that operation, and so is the wait of
    [deployServer] after it has started the process, with the exits that
    fall into it. *)

(** The RPC client of the SDK, as far as the sources look into it:
    [client.transport], the transport the client was connected with. What
    the SDK does with that reference on its own, when the transport has
    closed, is not followed. *)
Record Client := { transport : option nat }.

Inductive FsNode :=
| Directory
| File (content : string).

Inductive Event :=
| Notified (tr : nat) (n : Notification)
| Spawned (pid : nat) (command dir : string) (environment : gmap string string)
| Exited (pid : nat)
| Connecting (serverName : string) (client tr : nat).

Record World := {
  runningServers : gmap string ServerProcess;
  connectedClients : gmap string nat;
  processes : gmap nat ChildProcess;
  transports : gmap nat ProcessTransport;
  clients : gmap nat Client;
  files : gmap string FsNode;
  process_env : gmap string string;
  next_ref : nat;
  tick : nat;
  log : list Event
}.

Module W.

Definition set_runningServers (f : gmap string ServerProcess -> gmap string ServerProcess)
    (w : World) : World :=
  {| runningServers := f (runningServers w); connectedClients := connectedClients w;
     processes := processes w; transports := transports w; clients := clients w;
     files := files w; process_env := process_env w; next_ref := next_ref w;
     tick := tick w; log := log w |}.

Definition set_connectedClients (f : gmap string nat -> gmap string nat)
    (w : World) : World :=
  {| runningServers := runningServers w; connectedClients := f (connectedClients w);
     processes := processes w; transports := transports w; clients := clients w;
     files := files w; process_env := process_env w; next_ref := next_ref w;
     tick := tick w; log := log w |}.

Definition set_processes (f : gmap nat ChildProcess -> gmap nat ChildProcess)
    (w : World) : World :=
  {| runningServers := runningServers w; connectedClients := connectedClients w;
     processes := f (processes w); transports := transports w; clients := clients w;
     files := files w; process_env := process_env w; next_ref := next_ref w;
     tick := tick w; log := log w |}.

Definition set_transports (f : gmap nat ProcessTransport -> gmap nat ProcessTransport)
    (w : World) : World :=
  {| runningServers := runningServers w; connectedClients := connectedClients w;
     processes := processes w; transports := f (transports w); clients := clients w;
     files := files w; process_env := process_env w; next_ref := next_ref w;
     tick := tick w; log := log w |}.

Definition set_clients (f : gmap nat Client -> gmap nat Client) (w : World) : World :=
  {| runningServers := runningServers w; connectedClients := connectedClients w;
     processes := processes w; transports := transports w; clients := f (clients w);
     files := files w; process_env := process_env w; next_ref := next_ref w;
     tick := tick w; log := log w |}.

Definition set_files (f : gmap string FsNode -> gmap string FsNode) (w : World) : World :=
  {| runningServers := runningServers w; connectedClients := connectedClients w;
     processes := processes w; transports := transports w; clients := clients w;
     files := f (files w); process_env := process_env w; next_ref := next_ref w;
     tick := tick w; log := log w |}.

Definition set_next_ref (n : nat) (w : World) : World :=
  {| runningServers := runningServers w; connectedClients := connectedClients w;
     processes := processes w; transports := transports w; clients := clients w;
     files := files w; process_env := process_env w; next_ref := n;
     tick := tick w; log := log w |}.

Definition set_tick (n : nat) (w : World) : World :=
  {| runningServers := runningServers w; connectedClients := connectedClients w;
     processes := processes w; transports := transports w; clients := clients w;
     files := files w; process_env := process_env w; next_ref := next_ref w;
     tick := n; log := log w |}.

Definition emit (evs : list Event) (w : World) : World :=
  {| runningServers := runningServers w; connectedClients := connectedClients w;
     processes := processes w; transports := transports w; clients := clients w;
     files := files w; process_env := process_env w; next_ref := next_ref w;
     tick := tick w; log := log w ++ evs |}.

(** The world at start-up: both maps empty. *)
Definition initial (fs : gmap string FsNode) (env : gmap string string) : World :=
  {| runningServers := ∅; connectedClients := ∅; processes := ∅; transports := ∅;
     clients := ∅; files := fs; process_env := env; next_ref := 0%nat;
     tick := 0%nat; log := [] |}.

End W.

(** The number of attempts to connect a client among events. *)
Fixpoint connects (evs : list Event) : nat :=
  match evs with
  | [] => 0
  | Connecting _ _ _ :: more => S (connects more)
  | _ :: more => connects more
  end.

(** *** Computations: a state of the world, and a value or a thrown error *)

Definition M (A : Type) : Type := World -> Result A * World.

#[global] Instance M_bind : MBind M := fun A B k m w =>
  match m w with
  | (Ok a, w') => k a w'
  | (Throw e, w') => (Throw e, w')
  end.

Definition ret {A : Type} (a : A) : M A := fun w => (Ok a, w).

Definition throw {A : Type} (e : Error) : M A := fun w => (Throw e, w).

(** [try { m } catch (error) { handler error }] *)
Definition try_catch {A : Type} (m : M A) (handler : Error -> M A) : M A :=
  fun w =>
    match m w with
    | (Ok a, w') => (Ok a, w')
    | (Throw e, w') => handler e w'
    end.

(** [try { m } finally { cleanup }], for a cleanup that does not throw. *)
Definition try_finally {A : Type} (m : M A) (cleanup : World -> World) : M A :=
  fun w => let r := m w in (fst r, cleanup (snd r)).

(** A step written directly on the world. *)
Definition step {A : Type} (f : World -> Result A * World) : M A := f.

Definition gets {A : Type} (f : World -> A) : M A := fun w => (Ok (f w), w).

Definition modify (f : World -> World) : M unit := fun w => (Ok tt, f w).

(** The number of the next request to the outside. *)
Definition next_tick : M nat := fun w => (Ok (tick w), W.set_tick (S (tick w)) w).

(** A reference for a new object or closure. *)
Definition fresh : M nat := fun w => (Ok (next_ref w), W.set_next_ref (S (next_ref w)) w).

Section Operations.
Variable E : Env.

(** [Date.now()] and [new Date()]: the clock is read from outside. *)
Definition now : M Z := k ← next_tick; ret (Date_now E k).

(** [await] of a request to the RPC client. *)
Definition await {A : Type} (r : Rpc A) : M A :=
  match rpc_result r with
  | Fulfilled a => ret a
  | Rejected msg => throw (JsError msg)
  end.

(** *** [process.ts]: lookup *)

Definition getServerProcess (serverName : string) : M ServerProcess :=
  fun w =>
    match runningServers w !! serverName with
    | Some srv => (Ok srv, w)
    | None => (Throw (ServerNotFoundError serverName), w)
    end.

(** [p.kill(signal)] on the process object with reference [pid]; a missing
    object is the [TypeError] of calling a method of [undefined]. *)
Definition kill (pid : nat) (sig : Signal) : M bool :=
  fun w =>
    match processes w !! pid with
    | Some p =>
        let r := Child.kill sig p in
        (Ok (snd r), W.set_processes <[pid := fst r]> w)
    | None => (Throw (JsError "Cannot read properties of undefined"), w)
    end.

(** *** The event loop: what a child process does to the world *)

Definition run_exit_listener (w : World) (l : nat * ExitListener) : World :=
  match snd l with
  | TransportExit tr =>
      match transports w !! tr with
      | Some t =>
          let r := Transport.on_process_exit t in
          W.emit (map (Notified tr) (snd r)) (W.set_transports <[tr := fst r]> w)
      | None => w
      end
  | DeployExit serverName persistent =>
      if persistent then w else W.set_runningServers (delete serverName) w
  end.

(** The child process [pid] terminates: its [exit] event is recorded and
    goes to its listeners, in the order of their registration. *)
Definition process_exit (pid : nat) (w : World) : World :=
  match processes w !! pid with
  | Some p =>
      let r := Child.emit_exit p in
      fold_left run_exit_listener (snd r)
        (W.emit (if exited p then [] else [Exited pid])
           (W.set_processes <[pid := fst r]> w))
  | None => w
  end.

Definition run_error_listener (err : string) (w : World) (tr : nat) : World :=
  match transports w !! tr with
  | Some t =>
      let r := Transport.on_process_error t err in
      W.emit (map (Notified tr) (snd r)) (W.set_transports <[tr := fst r]> w)
  | None => w
  end.

(** Processes that terminate one after the other. *)
Definition processes_exit (pids : list nat) (w : World) : World :=
  fold_left (fun w' pid => process_exit pid w') pids w.

(** The child process [pid] emits [error]. *)
Definition process_error (pid : nat) (err : string) (w : World) : World :=
  match processes w !! pid with
  | Some p => fold_left (run_error_listener err) (error_listeners p) w
  | None => w
  end.

Definition run_data_listener (data : list Byte.byte) (w : World) (tr : nat) : World :=
  match transports w !! tr with
  | Some t =>
      let r := Transport.data_listener E t data in
      W.emit (map (Notified tr) (snd r)) (W.set_transports <[tr := fst r]> w)
  | None => w
  end.

(** The child process [pid] writes a chunk to its standard output. *)
Definition process_output (pid : nat) (data : list Byte.byte) (w : World) : World :=
  match processes w !! pid with
  | Some p => fold_left (run_data_listener data) (data_listeners p) w
  | None => w
  end.

(** *** [transport.ts] on the objects of the world *)

Definition transport_start (tr : nat) : M unit :=
  h ← fresh;
  step (fun w =>
    match transports w !! tr with
    | Some t =>
        let pid := process (server t) in
        let r := Transport.start tr h t (processes w !! pid) in
        let w1 := W.set_transports <[tr := fst (fst r)]> w in
        let w2 := match snd (fst r) with
                  | Some cp => W.set_processes <[pid := cp]> w1
                  | None => w1
                  end in
        (snd r, w2)
    | None => (Throw (JsError "Cannot read properties of undefined"), w)
    end).

Definition transport_close (tr : nat) : M unit :=
  k ← next_tick;
  step (fun w =>
    match transports w !! tr with
    | Some t =>
        let pid := process (server t) in
        let r := Transport.close t (processes w !! pid) in
        let w1 := W.set_transports <[tr := fst (fst r)]> w in
        let w2 := match snd (fst r) with
                  | Some cp => W.set_processes <[pid := cp]> w1
                  | None => w1
                  end in
        let w3 := W.emit (map (Notified tr) (snd r)) w2 in
        match onclose t, onclose_throws E k with
        | true, Some msg => (Throw (JsError msg), w3)
        | _, _ => (Ok tt, w3)
        end
    | None => (Throw (JsError "Cannot read properties of undefined"), w)
    end).

(** *** [cache.ts] *)

(** [removeClientFromCache]: closes the transport of the cached client, if
    it has one, and whatever that does, deletes the entry. *)
Definition removeClientFromCache (serverName : string) : M unit :=
  fun w =>
    match connectedClients w !! serverName with
    | Some c =>
        try_finally
          (try_catch
             (match clients w !! c with
              | Some client =>
                  match transport client with
                  | Some tr => transport_close tr
                  | None => ret tt
                  end
              | None => ret tt
              end)
             (fun _ => ret tt))
          (W.set_connectedClients (delete serverName)) w
    | None => (Ok tt, w)
    end.

(** *** [connection.ts] *)

(** [client.connect(transport)] of the SDK, by its contract: the client
    takes the transport and registers its three handlers on it, starts it,
    and performs the initialisation exchange, whose outcome comes from
    outside. A failure of [start] or of the exchange rejects; what the SDK
    does to the transport after a failed exchange is not followed. *)
Definition register_handlers (t : ProcessTransport) : ProcessTransport :=
  {| server := server t; messageBuffer := messageBuffer t;
     isConnected := isConnected t; exitHandler := exitHandler t;
     onclose := true; onerror := true; onmessage := true |}.

Definition connect (serverName : string) (c tr : nat) : M unit :=
  modify (W.emit [Connecting serverName c tr]);;
  modify (W.set_clients <[c := {| transport := Some tr |}]>);;
  modify (W.set_transports (alter register_handlers tr));;
  transport_start tr;;
  k ← next_tick;
  await (client_connect E k).

(** [createNewClient] *)
Definition createNewClient (serverName : string) : M nat :=
  try_catch
    (srv ← getServerProcess serverName;
     tr ← fresh;
     modify (W.set_transports <[tr := Transport.new srv]>);;
     c ← fresh;
     modify (W.set_clients <[c := {| transport := None |}]>);;
     connect serverName c tr;;
     modify (W.set_connectedClients <[serverName := c]>);;
     ret c)
    (fun error => throw (ToolCallError serverName "connect" (message E error))).

(** The race of [verifyConnection]: the health-check promise, which settles
    to true or false when the list request settles, against the timer that
    rejects after 1000 ms. *)
Definition health_race (r : Rpc (option (list Tool.t))) : M bool :=
  if rpc_after r <? 1000 then
    match rpc_result r with
    | Fulfilled _ => ret true
    | Rejected _ => ret false
    end
  else throw (JsError "Connection health check timed out").

(** [verifyConnection] *)
Definition verifyConnection (client : nat) (serverName : string) : M bool :=
  try_catch
    (k ← next_tick;
     health_race (client_listTools E k))
    (fun healthError => ret false).

Definition not_active (serverName : string) : Error :=
  JsError ("Server process for " +:+ serverName +:+ " is not active").

(** The cached branch of [getClient]: the cached client if it is to be
    reused, nothing if it was removed and a new one is to be created. *)
Definition reuse_cached (serverName : string) (cachedClient : nat) : M (option nat) :=
  try_catch
    (serverProcess ← getServerProcess serverName;
     p ← gets (fun w => processes w !! process serverProcess);
     match p with
     | Some cp =>
         if killed cp then throw (not_active serverName)
         else
           healthy ← verifyConnection cachedClient serverName;
           if (healthy : bool) then ret (Some cachedClient)
           else removeClientFromCache serverName;; ret None
     | None => throw (not_active serverName)
     end)
    (fun error => removeClientFromCache serverName;; ret None).

(** [getClient] *)
Definition getClient (serverName : string) : M nat :=
  cached ← gets (fun w => connectedClients w !! serverName);
  match cached with
  | Some cachedClient =>
      reused ← reuse_cached serverName cachedClient;
      match reused with
      | Some client => ret client
      | None => createNewClient serverName
      end
  | None => createNewClient serverName
  end.

(** *** [tools.ts] *)

(** Truthiness of a JSON value. *)
Definition json_truthy (j : Json) : bool :=
  match j with
  | JNull => false
  | JBool b => b
  | JNum n => negb (n =? 0)
  | JStr s => Js.truthy s
  | JArr _ | JObj _ => true
  end.

Fixpoint assoc (key : string) (fields : list (string * Json)) : option Json :=
  match fields with
  | [] => None
  | (k, v) :: more => if decide (k = key) then Some v else assoc key more
  end.

(** [j.key] for a value other than null; nothing is [undefined]. *)
Definition prop (j : Json) (key : string) : option Json :=
  match j with
  | JObj fields => assoc key fields
  | _ => None
  end.

(** [content.find(item => item.type === text)]; reading a property of null
    throws. *)
Fixpoint find_text (items : list Json) : Result (option Json) :=
  match items with
  | [] => Ok None
  | item :: more =>
      match item with
      | JNull => Throw (JsError "Cannot read properties of null (reading 'type')")
      | _ =>
          match prop item "type" with
          | Some (JStr "text") => Ok (Some item)
          | _ => find_text more
          end
      end
  end.

(** [JSON.parse(v)], the argument converted to a string first. *)
Definition parse_value (v : Json) : Json + string :=
  JSON_parse E (match v with JStr s => s | _ => to_String E v end).

(** The normalisation of a tool's response in [callTool]. *)
Definition extract_result (response : Json) : Result Json :=
  if json_truthy response then
    match prop response "content" with
    | Some (JArr items) =>
        match find_text items with
        | Ok (Some textContent) =>
            match prop textContent "text" with
            | Some text =>
                if json_truthy text then
                  Ok (match parse_value text with
                      | inl parsed => parsed
                      | inr _ => text
                      end)
                else Ok response
            | None => Ok response
            end
        | Ok None => Ok response
        | Throw e => Throw e
        end
    | _ => Ok response
    end
  else Ok response.

End Operations.

Module CallToolInput.
Record t := { server_name : string; tool_name : string; arguments : Json }.
End CallToolInput.

Module CallToolResponse.
Record t := { result : Json; error : option string; duration_ms : Z }.
End CallToolResponse.

Module Expected.
Inductive kind := equals | contains | regex.
Record t := { type : kind; value : Json }.
End Expected.

Module TestCase.
Record t := {
  name : string;
  description : string;
  tool : string;
  input : Json;
  expected : option Expected.t
}.
End TestCase.

Module TestResult.
Record t := {
  name : string;
  passed : bool;
  message : string;
  duration_ms : Z;
  error : option string
}.
End TestResult.

Module Summary.
Record t := { total : Z; passed : Z; failed : Z; duration_ms : Z }.
End Summary.

Module RunTestsInput.
Record t := { server_name : string; test_suite : option string }.
End RunTestsInput.

Module RunTestsResponse.
Record t := { results : list TestResult.t; summary : Summary.t }.
End RunTestsResponse.

Section ClientOperations.
Variable E : Env.

(** [callTool]: every failure, of the acquisition or of the call, becomes a
    response with an [error]. *)
Definition callTool (input : CallToolInput.t) : M CallToolResponse.t :=
  startTime ← now E;
  try_catch
    (client ← getClient E (CallToolInput.server_name input);
     k ← next_tick;
     response ← await (client_callTool E k (CallToolInput.tool_name input)
                         (CallToolInput.arguments input));
     finished ← now E;
     match extract_result E response with
     | Ok result =>
         ret {| CallToolResponse.result := result;
                CallToolResponse.error := None;
                CallToolResponse.duration_ms := finished - startTime |}
     | Throw e => throw e
     end)
    (fun error =>
       finished ← now E;
       ret {| CallToolResponse.result := JNull;
              CallToolResponse.error := Some (message E error);
              CallToolResponse.duration_ms := finished - startTime |}).

(** [listTools]: every failure is thrown again as a [ToolCallError]. *)
Definition listTools (serverName : string) : M (list string) :=
  try_catch
    (client ← getClient E serverName;
     k ← next_tick;
     response ← await (client_listTools E k);
     let tools := default [] response in
     ret (map Tool.name tools))
    (fun error => throw (ToolCallError serverName "listTools" (message E error))).

(** *** [tests.ts] *)

(** The comparison of a result with an expectation in [runTestCase]; the
    construction of the regular expression may throw. *)
Definition matches (ex : Expected.t) (result : Json) : M bool :=
  match Expected.type ex with
  | Expected.equals =>
      ret (String.eqb (JSON_stringify E result) (JSON_stringify E (Expected.value ex)))
  | Expected.contains =>
      ret (Js.includes (JSON_stringify E result) (JSON_stringify E (Expected.value ex)))
  | Expected.regex =>
      match RegExp_test E (Expected.value ex) (JSON_stringify E result) with
      | inl b => ret b
      | inr msg => throw (JsError msg)
      end
  end.

(** [if (result.error)]: an error that is a non-empty string. *)
Definition error_set (error : option string) : option string :=
  match error with
  | Some e => if Js.truthy e then Some e else None
  | None => None
  end.

(** [runTestCase] *)
Definition runTestCase (serverName : string) (test : TestCase.t) : M TestResult.t :=
  startTime ← now E;
  try_catch
    (result ← callTool {| CallToolInput.server_name := serverName;
                          CallToolInput.tool_name := TestCase.tool test;
                          CallToolInput.arguments := TestCase.input test |};
     finished ← now E;
     let duration := finished - startTime in
     match error_set (CallToolResponse.error result) with
     | Some e =>
         ret {| TestResult.name := TestCase.name test;
                TestResult.passed := false;
                TestResult.message := "Tool call failed: " +:+ e;
                TestResult.duration_ms := duration;
                TestResult.error := Some e |}
     | None =>
         match TestCase.expected test with
         | Some ex =>
             passed ← matches ex (CallToolResponse.result result);
             ret {| TestResult.name := TestCase.name test;
                    TestResult.passed := passed;
                    TestResult.message :=
                      if (passed : bool) then "Test passed"
                      else "Test failed: result did not match expected value";
                    TestResult.duration_ms := duration;
                    TestResult.error := None |}
         | None =>
             ret {| TestResult.name := TestCase.name test;
                    TestResult.passed := true;
                    TestResult.message := "Test passed";
                    TestResult.duration_ms := duration;
                    TestResult.error := None |}
         end
     end)
    (fun error =>
       finished ← now E;
       ret {| TestResult.name := TestCase.name test;
              TestResult.passed := false;
              TestResult.message := "Test failed with error: " +:+ message E error;
              TestResult.duration_ms := finished - startTime;
              TestResult.error := Some (message E error) |}).

(** The test that [runTests] makes for a tool: a call with an empty object
    for arguments and no expectation. *)
Definition basic_test (tool : string) : TestCase.t :=
  {| TestCase.name := "List " +:+ tool +:+ " schema";
     TestCase.description := "Check that " +:+ tool +:+ " is available and has a valid schema";
     TestCase.tool := tool;
     TestCase.input := JObj [];
     TestCase.expected := None |}.

(** The loop of [runTests]: one test after the other, the results in the
    order of the tests. *)
Fixpoint run_each (serverName : string) (tests : list TestCase.t)
  : M (list TestResult.t) :=
  match tests with
  | [] => ret []
  | test :: more =>
      result ← runTestCase serverName test;
      results ← run_each serverName more;
      ret (result :: results)
  end.

Definition summarize (results : list TestResult.t) (duration : Z) : Summary.t :=
  let passed := Z.of_nat (length (filter (fun r => TestResult.passed r = true) results)) in
  let total := Z.of_nat (length results) in
  let failed := total - passed in
  {| Summary.total := total; Summary.passed := passed; Summary.failed := failed;
     Summary.duration_ms := duration |}.

(** [runTests]; the [test_suite] of the input is not read. *)
Definition runTests (input : RunTestsInput.t) : M RunTestsResponse.t :=
  let server_name := RunTestsInput.server_name input in
  startTime ← now E;
  try_catch
    (getServerProcess server_name;;
     tools ← listTools server_name;
     let basicTests := map basic_test tools in
     results ← run_each server_name basicTests;
     finished ← now E;
     ret {| RunTestsResponse.results := results;
            RunTestsResponse.summary := summarize results (finished - startTime) |})
    (fun error =>
       match error with
       | ServerNotFoundError _ => throw error
       | _ =>
           finished ← now E;
           ret {| RunTestsResponse.results :=
                    [{| TestResult.name := "Test suite setup";
                        TestResult.passed := false;
                        TestResult.message :=
                          "Failed to setup test suite: " +:+ message E error;
                        TestResult.duration_ms := finished - startTime;
                        TestResult.error := Some (message E error) |}];
                  RunTestsResponse.summary :=
                    {| Summary.total := 1; Summary.passed := 0; Summary.failed := 1;
                       Summary.duration_ms := finished - startTime |} |}
       end).

End ClientOperations.

(** ** The process supervisor ([process.ts], [deploy.ts], the container
    module, [logs.ts]) *)

Definition CONTAINER_PREFIX : string := "mcp-test-".

Module DeployServerInput.
Record t := {
  name : string;
  source_path : string;
  env_vars : option (gmap string string);
  persistent : bool
}.
End DeployServerInput.

Module DeployServerResponse.
Record t := { name : string; id : string; status : string }.
End DeployServerResponse.

Module ServerOperationResponse.
Record t := { name : string; status : string }.
End ServerOperationResponse.

Module GetLogsInput.
Record t := { server_name : string; lines : Z }.
End GetLogsInput.

Module GetLogsResponse.
Record t := { logs : string; error : option string }.
End GetLogsResponse.

Section Supervisor.
Variable E : Env.

(** The wait of [terminateProcess]: the [exit] event of the process, if it
    comes within the second, or else the timer, which sends [SIGKILL] unless
    [killed] is set. *)
Definition await_exit_or_timeout (pid : nat) : M unit :=
  p ← gets (fun w => processes w !! pid);
  match p with
  | Some cp =>
      if negb (exited cp) && signalled cp then modify (process_exit pid)
      else
        try_catch
          (if negb (killed cp) then kill pid SIGKILL;; ret tt else ret tt)
          (fun forceError => ret tt)
  | None => ret tt
  end.

(** [terminateProcess]: never throws. *)
Definition terminateProcess (serverName : string) : M unit :=
  try_catch
    (existingServer ← getServerProcess serverName;
     kill (process existingServer) SIGTERM;;
     modify (W.set_runningServers (delete serverName));;
     await_exit_or_timeout (process existingServer))
    (fun error => ret tt).

(** [validateSourcePath] *)
Definition validateSourcePath (sourcePath : string) : M unit :=
  fs ← gets files;
  match fs !! sourcePath with
  | None => throw (ServerDeploymentError ("Source path not found: " +:+ sourcePath))
  | Some _ =>
      match fs !! path_join E sourcePath "package.json" with
      | None => throw (ServerDeploymentError ("package.json not found in " +:+ sourcePath))
      | Some _ => ret tt
      end
  end.

(** [fs.readFileSync(path, utf-8)] *)
Definition readFileSync (path : string) : M string :=
  fs ← gets files;
  match fs !! path with
  | Some (File content) => ret content
  | Some Directory => throw (JsError "EISDIR: illegal operation on a directory, read")
  | None => throw (JsError ("ENOENT: no such file or directory, open " +:+ path))
  end.

(** [packageJson.scripts && packageJson.scripts.start] *)
Definition has_start_script (packageJson : Json) : Result bool :=
  match packageJson with
  | JNull => Throw (JsError "Cannot read properties of null (reading 'scripts')")
  | _ =>
      match prop packageJson "scripts" with
      | Some scripts =>
          if json_truthy scripts then
            Ok (match prop scripts "start" with
                | Some start => json_truthy start
                | None => false
                end)
          else Ok false
      | None => Ok false
      end
  end.

(** [determineStartCommand] *)
Definition determineStartCommand (sourcePath : string) : M string :=
  text ← readFileSync (path_join E sourcePath "package.json");
  match JSON_parse E text with
  | inl packageJson =>
      match has_start_script packageJson with
      | Ok true => ret "npm run start"
      | Ok false => ret "node dist/index.js"
      | Throw e => throw e
      end
  | inr msg => throw (JsError msg)
  end.

(** [prepareEnvironmentVariables]: the given variables over those of the
    harness. *)
Definition prepareEnvironmentVariables (envVars : option (gmap string string))
  : M (gmap string string) :=
  current ← gets process_env;
  ret (match envVars with
       | Some vars => vars ∪ current
       | None => current
       end).

(** [setupLogStream]: makes the directory of the logs if it is missing and
    opens the log file of the server for appending, which creates it. *)
Definition setupLogStream (serverName : string) : M string :=
  let logDir := path_join E (cwd E) "logs" in
  modify (W.set_files (fun fs => match fs !! logDir with
                                 | Some _ => fs
                                 | None => <[logDir := Directory]> fs
                                 end));;
  let logFile := path_join E logDir (serverName +:+ ".log") in
  modify (W.set_files (fun fs => match fs !! logFile with
                                 | Some _ => fs
                                 | None => <[logFile := File EmptyString]> fs
                                 end));;
  ret logFile.

(** [spawn(sh, [-c, command], {cwd, env, stdio})] *)
Definition spawn (command dir : string) (environment : gmap string string) : M nat :=
  k ← next_tick;
  match spawn_throws E k with
  | Some msg => throw (JsError msg)
  | None =>
      pid ← fresh;
      modify (W.set_processes <[pid := Child.spawned (child_exits_on_SIGTERM E k)]>);;
      modify (W.emit [Spawned pid command dir environment]);;
      ret pid
  end.

(** The wait of a second at the end of [deployServer], to give the server
    time to initialise. A process that ends in that second emits [exit]
    then, to the listeners it has. *)
Definition initial_wait (pid : nat) : M unit :=
  modify (processes_exit (exits_during_wait E pid)).

(** [deployServer] *)
Definition deployServer (input : DeployServerInput.t) : M DeployServerResponse.t :=
  let serverName := DeployServerInput.name input in
  let sourcePath := DeployServerInput.source_path input in
  try_catch
    (validateSourcePath sourcePath;;
     removeClientFromCache E serverName;;
     running ← gets (fun w => runningServers w !! serverName);
     (if running is Some _ then terminateProcess serverName else ret tt);;
     startCommand ← determineStartCommand sourcePath;
     environment ← prepareEnvironmentVariables (DeployServerInput.env_vars input);
     serverProcess ← spawn startCommand sourcePath environment;
     setupLogStream serverName;;
     deployedAt ← now E;
     modify (W.set_runningServers
               <[serverName := {| process := serverProcess; name := serverName;
                                  source_path := sourcePath;
                                  deployed_at := deployedAt |}]>);;
     h ← fresh;
     modify (W.set_processes
               (alter (Child.on_exit h
                         (DeployExit serverName (DeployServerInput.persistent input)))
                  serverProcess));;
     initial_wait serverProcess;;
     ret {| DeployServerResponse.name := serverName;
            DeployServerResponse.id := CONTAINER_PREFIX +:+ serverName;
            DeployServerResponse.status := "running" |})
    (fun error =>
       match error with
       | ServerDeploymentError _ => throw error
       | _ => throw (ServerDeploymentError (message E error))
       end).

Definition stopped (serverName : string) : ServerOperationResponse.t :=
  {| ServerOperationResponse.name := serverName;
     ServerOperationResponse.status := "stopped" |}.

(** [stopServer] *)
Definition stopServer (server_name : string) : M ServerOperationResponse.t :=
  try_catch
    (running ← gets (fun w => runningServers w !! server_name);
     match running with
     | None =>
         removeClientFromCache E server_name;;
         ret (stopped server_name)
     | Some _ =>
         srv ← getServerProcess server_name;
         kill (process srv) SIGTERM;;
         modify (W.set_runningServers (delete server_name));;
         removeClientFromCache E server_name;;
         ret (stopped server_name)
     end)
    (fun error =>
       try_catch (removeClientFromCache E server_name) (fun clientError => ret tt);;
       match error with
       | ServerNotFoundError _ => ret (stopped server_name)
       | _ => throw (JsError (message E error))
       end).

(** *** [logs.ts] *)

(** The chunks in which the read stream hands over a file: 1024 code units
    each, the last one what is left. *)
Fixpoint chunks_of (fuel : nat) (content : string) : list string :=
  match fuel with
  | O => []
  | S fuel' =>
      if Js.truthy content then
        String.substring 0 1024 content ::
        chunks_of fuel' (String.substring 1024 (String.length content - 1024) content)
      else []
  end.

(** The lines between line feeds: [s.split(LF)]. *)
Fixpoint split_LF (s : string) : list string :=
  match s with
  | EmptyString => [EmptyString]
  | String c s' =>
      if decide (c = Js.LF_char) then EmptyString :: split_LF s'
      else match split_LF s' with
           | line :: lines => String c line :: lines
           | [] => [String c EmptyString]
           end
  end.

(** [lines.splice(0, n)] and [lines.slice(start)] *)
Definition splice_front {A : Type} (n : Z) (l : list A) : list A :=
  drop (Z.to_nat (Z.max n 0)) l.

Definition array_slice_from {A : Type} (start : Z) (l : list A) : list A :=
  drop (Z.to_nat (Js.clamp_index (Z.of_nat (length l)) start)) l.

(** [lines.join(LF)] *)
Fixpoint join_LF (lines : list string) : string :=
  match lines with
  | [] => EmptyString
  | [line] => line
  | line :: more => line +:+ Js.LF +:+ join_LF more
  end.

(** The [data] listener of [readLastLines], on the pair of [buffer] and
    [lines]. *)
Definition read_chunk (lineCount : Z) (state : string * list string) (chunk : string)
  : string * list string :=
  let linesToAdd := split_LF (fst state +:+ chunk) in
  let buffer := List.last linesToAdd EmptyString in
  let lines := snd state ++ removelast linesToAdd in
  let n := Z.of_nat (length lines) in
  (buffer, if lineCount <? n then splice_front (n - lineCount) lines else lines).

(** [readLastLines], for the content of the file. *)
Definition lastLines (content : string) (lineCount : Z) : string :=
  let state := fold_left (read_chunk lineCount)
                 (chunks_of (String.length content) content) (EmptyString, []) in
  let lines := if Js.truthy (fst state) then snd state ++ [fst state] else snd state in
  join_LF (array_slice_from (- lineCount) lines).

Definition readLastLines (filePath : string) (lineCount : Z) : M string :=
  content ← readFileSync filePath;
  ret (lastLines content lineCount).

(** [getServerLogs] *)
Definition getServerLogs (input : GetLogsInput.t) : M GetLogsResponse.t :=
  let server_name := GetLogsInput.server_name input in
  try_catch
    (getServerProcess server_name;;
     let logDir := path_join E (cwd E) "logs" in
     let logFile := path_join E logDir (server_name +:+ ".log") in
     fs ← gets files;
     match fs !! logFile with
     | None =>
         ret {| GetLogsResponse.logs := "No logs found for server '" +:+ server_name +:+ "'";
                GetLogsResponse.error := None |}
     | Some _ =>
         logs ← readLastLines logFile (GetLogsInput.lines input);
         ret {| GetLogsResponse.logs := logs; GetLogsResponse.error := None |}
     end)
    (fun error =>
       match error with
       | ServerNotFoundError _ => throw error
       | _ => ret {| GetLogsResponse.logs := EmptyString;
                     GetLogsResponse.error := Some (message E error) |}
       end).

End Supervisor.

(** ** The rest of the cache and of the container module *)

Module ServerInfo.
Record t := {
  name : string;
  id : string;
  status : string;
  source_path : string;
  deployed_at : string
}.
End ServerInfo.

Section Enumerations.
Variable E : Env.

(** A [Map] of the runtime is enumerated in the order in which its keys were
    inserted, which the maps of the world do not record: the enumerations
    are taken from outside. [keys] is [Array.from(map.keys())] and [entries]
    is [Array.from(map.entries())]. *)
Variable keys : gmap string nat -> list string.
Variable entries : gmap string ServerProcess -> list (string * ServerProcess).

(** [Date.prototype.toISOString], on the time values that [new Date()]
    gives, for which it does not throw. *)
Variable toISOString : Z -> string.

(** The loop of [clearClientCache] over the names that were cached when it
    started. *)
Fixpoint remove_each (serverNames : list string) : M unit :=
  match serverNames with
  | [] => ret tt
  | serverName :: more => removeClientFromCache E serverName;; remove_each more
  end.

(** [clearClientCache] *)
Definition clearClientCache : M unit :=
  clientCount ← gets (fun w => size (connectedClients w));
  if decide (clientCount = 0%nat) then ret tt
  else
    serverNames ← gets (fun w => keys (connectedClients w));
    remove_each serverNames;;
    remaining ← gets (fun w => size (connectedClients w));
    if decide (0 < remaining)%nat
    then modify (W.set_connectedClients (fun _ => ∅))
    else ret tt.

(** [listServers]; its input is not read. Nothing in the callback throws, so
    the handler of the [try] is not reached. *)
Definition listServers : M (list ServerInfo.t) :=
  servers ← gets (fun w => entries (runningServers w));
  ret (map (fun entry : string * ServerProcess =>
              {| ServerInfo.name := fst entry;
                 ServerInfo.id := CONTAINER_PREFIX +:+ fst entry;
                 ServerInfo.status := "running";
                 ServerInfo.source_path := source_path (snd entry);
                 ServerInfo.deployed_at := toISOString (deployed_at (snd entry)) |})
           servers).

End Enumerations.

(** ** A sample environment and sample worlds, for the examples *)

(** The decoding of the examples: [toString] of a [Buffer] in UTF-8, the
    default of the runtime. A sequence of bytes that is no character (a
    lead byte without its continuation bytes, a continuation byte alone, a
    byte that UTF-8 does not use) is decoded to the replacement character
    U+FFFD, once for every maximal part of it. The strings of the examples
    hold the characters outside ASCII in UTF-8, as string literals are
    written, and so the replacement character as the three units EF BF
    BD. *)
Module Utf8.

Definition chars (bytes : list Byte.byte) : string :=
  fold_right (fun b s => String (ascii_of_byte b) s) EmptyString bytes.

Definition replacement : string := chars [Byte.xef; Byte.xbf; Byte.xbd].

(** A sequence that has begun: its bytes so far, how many are still to
    come, and the bounds of the next one. *)
Record Pending := {
  seen : list Byte.byte;
  needed : nat;
  lower : N;
  upper : N
}.

(** A byte at the start of a character. *)
Definition lead (b : Byte.byte) : string + Pending :=
  let n := Byte.to_N b in
  (if n <=? 127 then inl (chars [b])
   else if (194 <=? n) && (n <=? 223) then
     inr {| seen := [b]; needed := 1; lower := 128; upper := 191 |}
   else if (224 <=? n) && (n <=? 239) then
     inr {| seen := [b]; needed := 2;
            lower := if n =? 224 then 160 else 128;
            upper := if n =? 237 then 159 else 191 |}
   else if (240 <=? n) && (n <=? 244) then
     inr {| seen := [b]; needed := 3;
            lower := if n =? 240 then 144 else 128;
            upper := if n =? 244 then 143 else 191 |}
   else inl replacement)%N.

Fixpoint decode (state : option Pending) (bytes : list Byte.byte) : string :=
  match bytes with
  | [] => match state with Some _ => replacement | None => EmptyString end
  | b :: more =>
      let fresh :=
        match lead b with
        | inl s => s +:+ decode None more
        | inr p => decode (Some p) more
        end in
      match state with
      | None => fresh
      | Some p =>
          if ((lower p <=? Byte.to_N b) && (Byte.to_N b <=? upper p))%N then
            match needed p with
            | S (S k) =>
                decode (Some {| seen := seen p ++ [b]; needed := S k;
                                lower := 128; upper := 191 |}) more
            | _ => chars (seen p ++ [b]) +:+ decode None more
            end
          else replacement +:+ fresh
      end
  end.

Definition toString (bytes : list Byte.byte) : string := decode None bytes.

(** The sequence that is begun and not finished when the bytes have been
    read, if there is one. *)
Fixpoint pending (state : option Pending) (bytes : list Byte.byte) : option Pending :=
  match bytes with
  | [] => state
  | b :: more =>
      let fresh :=
        match lead b with
        | inl _ => pending None more
        | inr p => pending (Some p) more
        end in
      match state with
      | None => fresh
      | Some p =>
          if ((lower p <=? Byte.to_N b) && (Byte.to_N b <=? upper p))%N then
            match needed p with
            | S (S k) =>
                pending (Some {| seen := seen p ++ [b]; needed := S k;
                                 lower := 128; upper := 191 |}) more
            | _ => pending None more
            end
          else fresh
      end
  end.

(** The bytes of a text that is written in UTF-8. *)
Definition bytes_of (s : string) : list Byte.byte :=
  map byte_of_ascii (String.list_ascii_of_string s).

End Utf8.

Module Sample.

(** A parser for the examples: the empty object, the three literals and
    the numerals; everything else is a syntax error. *)
Fixpoint numeral (acc : Z) (s : string) : option Z :=
  match s with
  | EmptyString => Some acc
  | String c s' =>
      match Ascii.is_nat c with
      | Some d => numeral (10 * acc + Z.of_nat d) s'
      | None => None
      end
  end.

Definition parse (s : string) : Json + string :=
  if String.eqb s "{}" then inl (JObj [])
  else if String.eqb s "null" then inl JNull
  else if String.eqb s "true" then inl (JBool true)
  else if String.eqb s "false" then inl (JBool false)
  else match s with
       | EmptyString => inr "Unexpected end of JSON input"
       | _ => match numeral 0 s with
              | Some n => inl (JNum n)
              | None => inr ("Unexpected token in JSON: " +:+ s)
              end
       end.

Definition echo : list Tool.t := [{| Tool.name := "echo" |}].

(** The list request answers after 5 ms. *)
Definition answers (k : nat) : Rpc (option (list Tool.t)) :=
  {| rpc_after := 5; rpc_result := Fulfilled (Some echo) |}.

(** The list request answers after 5 ms, with the tool listed twice. *)
Definition answers_twice (k : nat) : Rpc (option (list Tool.t)) :=
  {| rpc_after := 5; rpc_result := Fulfilled (Some (echo ++ echo)) |}.

(** The list request is rejected after 5 ms. *)
Definition rejects (k : nat) : Rpc (option (list Tool.t)) :=
  {| rpc_after := 5; rpc_result := Rejected "Connection closed" |}.

(** The list request is answered after five seconds. *)
Definition late (k : nat) : Rpc (option (list Tool.t)) :=
  {| rpc_after := 5000; rpc_result := Fulfilled (Some echo) |}.

(** An environment, given the answers to the initialisation exchange and
    to the list request, and whether the programs that are started end on
    [SIGTERM]. *)
Definition env_with (connecting : nat -> Rpc unit)
    (listing : nat -> Rpc (option (list Tool.t))) (on_term : bool) : Env :=
  {| JSON_parse := parse;
     JSON_stringify := fun _ => "{}";
     to_String := fun _ => "[object Object]";
     RegExp_test := fun _ _ => inl true;
     path_join := fun a b => a +:+ "/" +:+ b;
     cwd := "/harness";
     ServerNotFoundError_message := fun n => "Server not found: " +:+ n;
     ServerDeploymentError_message := fun m => "Deployment failed: " +:+ m;
     ToolCallError_message := fun s t m => s +:+ "." +:+ t +:+ ": " +:+ m;
     client_connect := connecting;
     client_listTools := listing;
     client_callTool := fun _ _ _ =>
       {| rpc_after := 5;
          rpc_result := Fulfilled (JObj [("status", JStr "success")]) |};
     onclose_throws := fun _ => None;
     Date_now := fun k => 1000 * Z.of_nat k;
     spawn_throws := fun _ => None;
     child_exits_on_SIGTERM := fun _ => on_term;
     Buffer_toString := Utf8.toString;
     exits_during_wait := fun _ => [] |}.

(** The initialisation exchange succeeds after 5 ms. *)
Definition env (listing : nat -> Rpc (option (list Tool.t))) (on_term : bool) : Env :=
  env_with (fun _ => {| rpc_after := 5; rpc_result := Fulfilled tt |}) listing on_term.


(** Two source directories with a package file each. *)
Definition sources : gmap string FsNode :=
  <["/src/a" := Directory]> (<["/src/a/package.json" := File "{}"]>
  (<["/src/b" := Directory]> (<["/src/b/package.json" := File "{}"]> ∅))).

Definition empty_world : World := W.initial sources ∅.

Definition deploy (source : string) : DeployServerInput.t :=
  {| DeployServerInput.name := "srv"; DeployServerInput.source_path := source;
     DeployServerInput.env_vars := None; DeployServerInput.persistent := false |}.

Definition deploy_persistent (source : string) : DeployServerInput.t :=
  {| DeployServerInput.name := "srv"; DeployServerInput.source_path := source;
     DeployServerInput.env_vars := None; DeployServerInput.persistent := true |}.





(** The sample environment in which a process that is deployed ends
    within the second that its deployment waits. *)
Definition ending_early : Env :=
  let E := env answers true in
  {| JSON_parse := JSON_parse E;
     JSON_stringify := JSON_stringify E; to_String := to_String E;
     RegExp_test := RegExp_test E; path_join := path_join E; cwd := cwd E;
     ServerNotFoundError_message := ServerNotFoundError_message E;
     ServerDeploymentError_message := ServerDeploymentError_message E;
     ToolCallError_message := ToolCallError_message E;
     client_connect := client_connect E;
     client_listTools := client_listTools E;
     client_callTool := client_callTool E;
     onclose_throws := onclose_throws E; Date_now := Date_now E;
     spawn_throws := spawn_throws E;
     child_exits_on_SIGTERM := child_exits_on_SIGTERM E;
     Buffer_toString := Buffer_toString E;
     exits_during_wait := fun pid => [pid] |}.


End Sample.

(** ** One channel under the triggers of a close *)

(** One channel: a transport, known by the reference [self], and the child
    process of its server, under the three triggers of a close: a call of
    [close], the [exit] event and the [error] event of the process. The
    listeners of other transports and of [deployServer] do not touch this
    transport. *)
Module Channel.

Inductive Trigger :=
| Close
| Exit
| Error (err : string).

Definition exit_listener (self : nat) (acc : ProcessTransport * list Notification)
    (l : nat * ExitListener) : ProcessTransport * list Notification :=
  match snd l with
  | TransportExit x =>
      if decide (x = self) then
        let r := Transport.on_process_exit (fst acc) in
        (fst r, snd acc ++ snd r)
      else acc
  | DeployExit _ _ => acc
  end.

Definition error_listener (self : nat) (err : string)
    (acc : ProcessTransport * list Notification) (x : nat)
  : ProcessTransport * list Notification :=
  if decide (x = self) then
    let r := Transport.on_process_error (fst acc) err in
    (fst r, snd acc ++ snd r)
  else acc.

Definition trigger (self : nat) (st : ProcessTransport * ChildProcess) (g : Trigger)
  : (ProcessTransport * ChildProcess) * list Notification :=
  match g with
  | Close =>
      let r := Transport.close (fst st) (Some (snd st)) in
      ((fst (fst r), default (snd st) (snd (fst r))), snd r)
  | Exit =>
      let r := Child.emit_exit (snd st) in
      let a := fold_left (exit_listener self) (snd r) (fst st, []) in
      ((fst a, fst r), snd a)
  | Error err =>
      let a := fold_left (error_listener self err) (error_listeners (snd st))
                 (fst st, []) in
      ((fst a, snd st), snd a)
  end.

Fixpoint run (self : nat) (st : ProcessTransport * ChildProcess) (gs : list Trigger)
  : (ProcessTransport * ChildProcess) * list Notification :=
  match gs with
  | [] => (st, [])
  | g :: more =>
      let r1 := trigger self st g in
      let r2 := run self (fst r1) more in
      (fst r2, snd r1 ++ snd r2)
  end.

(** The number of calls of [onclose] among notifications. *)
Fixpoint onclose_calls (ns : list Notification) : nat :=
  match ns with
  | [] => 0
  | OnClose :: more => S (onclose_calls more)
  | _ :: more => onclose_calls more
  end.

(** The number of calls of [close] among triggers. *)
Fixpoint closes (gs : list Trigger) : nat :=
  match gs with
  | [] => 0
  | Close :: more => S (closes more)
  | _ :: more => closes more
  end.

(** 1 if an [exit] event comes before the first call of [close], else 0. *)
Fixpoint exit_before_close (gs : list Trigger) : nat :=
  match gs with
  | [] => 0
  | Close :: _ => 0
  | Exit :: _ => 1
  | Error _ :: more => exit_before_close more
  end.

(** No listener of the list is the closure [h] or belongs to [self]. *)
Definition foreign (self h : nat) (ls : list (nat * ExitListener)) : Prop :=
  Forall (fun l => fst l <> h /\ snd l <> TransportExit self) ls.

End Channel.

(** A started channel for the examples: the transport 0 of a client, with
    the handlers of the client registered, on a process as [spawn] returns
    it. *)
Definition sample_server : ServerProcess :=
  {| process := 7%nat; name := "srv"; source_path := "/src/a"; deployed_at := 0 |}.

Definition sample_transport : ProcessTransport :=
  register_handlers (Transport.new sample_server).

Definition sample_started : ProcessTransport * ChildProcess :=
  let r := Transport.start 0 1 sample_transport (Some (Child.spawned true)) in
  (fst (fst r), default (Child.spawned true) (snd (fst r))).

(** ** Properties *)

(** Unfolds the plumbing of computations. *)
Ltac munfold :=
  unfold await, now in *;
  unfold mbind, M_bind, try_catch, try_finally, gets, modify, ret, throw, step,
    next_tick, fresh in *.

(** *** Frames and chunks *)

Section Framing.
Import Transport.
Variable E : Env.

Lemma split_frames_no_LF (s : string) :
  has_LF s = false -> split_frames s = ([], s).
Proof.
  induction s as [|c s IH]; simpl; intros H; [reflexivity |].
  destruct (decide (c = Js.LF_char)); [discriminate |].
  now rewrite IH.
Qed.

Lemma split_frames_first (pre rest : string) :
  has_LF pre = false ->
  split_frames (pre +:+ Js.LF +:+ rest) =
  (pre :: complete_frames rest, trailing_fragment rest).
Proof.
  unfold complete_frames, trailing_fragment.
  induction pre as [|c pre IH]; intros H.
  - rewrite append_nil_l. unfold Js.LF. rewrite append_cons, append_nil_l.
    reflexivity.
  - rewrite append_cons. simpl in *.
    destruct (decide (c = Js.LF_char)); [discriminate |].
    now rewrite IH.
Qed.

(** The frames of a stream do not depend on where it is cut. *)
Lemma split_frames_app (a b : string) :
  split_frames (a +:+ b) =
  (complete_frames a ++ complete_frames (trailing_fragment a +:+ b),
   trailing_fragment (trailing_fragment a +:+ b)).
Proof.
  unfold complete_frames, trailing_fragment.
  induction a as [|c a IH].
  - rewrite append_nil_l. simpl. rewrite append_nil_l.
    now destruct (split_frames b).
  - rewrite append_cons. simpl. rewrite IH.
    destruct (decide (c = Js.LF_char)) as [-> | Hc]; simpl; [reflexivity |].
    destruct (split_frames a) as [[|line lines] frag]; simpl.
    + rewrite decide_False by assumption.
      now destruct (split_frames (frag +:+ b)) as [[|line lines] frag'].
    + reflexivity.
Qed.

Lemma complete_frames_app (a b : string) :
  complete_frames (a +:+ b) =
  complete_frames a ++ complete_frames (trailing_fragment a +:+ b).
Proof. unfold complete_frames at 1. now rewrite split_frames_app. Qed.

Lemma trailing_fragment_app (a b : string) :
  trailing_fragment (a +:+ b) = trailing_fragment (trailing_fragment a +:+ b).
Proof. unfold trailing_fragment at 1. now rewrite split_frames_app. Qed.

Lemma trailing_fragment_no_LF (s : string) :
  has_LF (trailing_fragment s) = false.
Proof.
  unfold trailing_fragment.
  induction s as [|c s IH]; simpl; [reflexivity |].
  destruct (decide (c = Js.LF_char)) as [-> | Hc]; simpl; [assumption |].
  destruct (split_frames s) as [[|line lines] frag]; simpl in *; [| assumption].
  now rewrite decide_False by assumption.
Qed.



(** The loop computes the frames: it leaves the trailing fragment in the
    buffer and dispatches the complete frames in order. *)
Lemma handleData_loop_frames (t : ProcessTransport) (buf : string) :
  handleData_loop E t buf =
  (trailing_fragment buf, flat_map (dispatch E t) (complete_frames buf)).
Proof.
  funelim (handleData_loop E t buf).
  - match goal with
    | Hhit : (Js.indexOf buf Js.LF =? -1) = true |- _ =>
        pose proof (proj1 (Z.eqb_eq _ _) Hhit) as Habsent
    end.
    destruct (indexOf_LF_cases buf) as [[_ H'] | (pre & rest & _ & _ & H')].
    + unfold trailing_fragment, complete_frames.
      now rewrite split_frames_no_LF.
    + unfold Js.len in H'. lia.
  - match goal with
    | IH : handleData_loop E t _ = (_, _) |- _ => rewrite IH; clear IH
    end.
    pose proof (proj1 (Z.eqb_neq _ _) Hne) as Hfound.
    destruct (indexOf_LF_cases buf) as [[H' _] | (pre & rest & -> & Hpre & Hi)];
      [congruence |].
    rewrite Hi. rewrite slice_line, slice_rest.
    unfold trailing_fragment, complete_frames.
    rewrite split_frames_first by assumption. simpl.
    reflexivity.
Qed.

Lemma set_messageBuffer_same (t : ProcessTransport) :
  set_messageBuffer (messageBuffer t) t = t.
Proof. now destruct t. Qed.

Lemma handleData_frames (t : ProcessTransport) (data : string) :
  handleData E t data =
  (set_messageBuffer (trailing_fragment (messageBuffer t +:+ data)) t,
   flat_map (dispatch E t) (complete_frames (messageBuffer t +:+ data))).
Proof. unfold handleData. now rewrite handleData_loop_frames. Qed.

(** Feeding chunks one by one is reading the reassembled stream at once. *)
Lemma feed_frames (chunks : list string) (t : ProcessTransport) :
  has_LF (messageBuffer t) = false ->
  feed E t chunks =
  (set_messageBuffer (trailing_fragment (messageBuffer t +:+ reassemble chunks)) t,
   flat_map (dispatch E t)
     (complete_frames (messageBuffer t +:+ reassemble chunks))).
Proof.
  revert t. induction chunks as [|data more IH]; intros t Hbuf.
  - simpl. rewrite append_nil_r.
    unfold trailing_fragment, complete_frames.
    rewrite split_frames_no_LF by assumption. simpl.
    now rewrite set_messageBuffer_same.
  - cbn [feed]. rewrite handleData_frames. cbn [fst snd].
    rewrite IH by apply trailing_fragment_no_LF.
    change (reassemble (data :: more)) with (data +:+ reassemble more).
    rewrite <- (append_assoc (messageBuffer t) data (reassemble more)).
    rewrite (complete_frames_app (messageBuffer t +:+ data)).
    rewrite (trailing_fragment_app (messageBuffer t +:+ data)).
    rewrite flat_map_app. reflexivity.
Qed.

(** On the world, a chunk written by the process reaches the transport
    that listens to it through [handleData]. *)
Lemma process_output_handleData (pid tr : nat) (data : list Byte.byte) (w : World)
    (p : ChildProcess) (t : ProcessTransport) :
  processes w !! pid = Some p ->
  data_listeners p = [tr] ->
  transports w !! tr = Some t ->
  process_output E pid data w =
  W.emit (map (Notified tr) (snd (handleData E t (Buffer_toString E data))))
    (W.set_transports <[tr := fst (handleData E t (Buffer_toString E data))]> w).
Proof.
  intros Hp Hls Ht. unfold process_output. rewrite Hp, Hls. cbn.
  unfold run_data_listener. now rewrite Ht.
Qed.

End Framing.

(** The listener decodes every chunk on its own: a stream of chunks of
    bytes is read as the strings they decode to, one by one. *)
Lemma receive_feed (E : Env) (chunks : list (list Byte.byte)) (t : ProcessTransport) :
  Transport.receive E t chunks = Transport.feed E t (map (Buffer_toString E) chunks).
Proof.
  revert t. induction chunks as [|data more IH]; intros t; [reflexivity |].
  cbn [Transport.receive Transport.feed map]. unfold Transport.data_listener.
  now rewrite IH.
Qed.

(** The text that the chunks of a stream give, each decoded on its own. *)
Definition decoded (E : Env) (chunks : list (list Byte.byte)) : string :=
  Transport.reassemble (map (Buffer_toString E) chunks).

(** No chunk ends inside a character: the chunks, each decoded on its own,
    give the decoding of the stream. *)
Definition cuts_no_character (E : Env) (chunks : list (list Byte.byte)) : Prop :=
  decoded E chunks = Buffer_toString E (concat chunks).

(** In UTF-8 the decoding of bytes that end with a character goes on
    afresh after them. *)
Lemma decode_app (a b : list Byte.byte) (state : option Utf8.Pending) :
  Utf8.pending state a = None ->
  Utf8.decode state (a ++ b) = Utf8.decode state a +:+ Utf8.decode None b.
Proof.
  revert state. induction a as [|x a IH]; intros state Hdone.
  - cbn in Hdone. subst state. reflexivity.
  - cbn [app Utf8.decode Utf8.pending] in *.
    assert (Hfresh :
      match Utf8.lead x with
      | inl _ => Utf8.pending None a
      | inr p => Utf8.pending (Some p) a
      end = None ->
      match Utf8.lead x with
      | inl s => s +:+ Utf8.decode None (a ++ b)
      | inr p => Utf8.decode (Some p) (a ++ b)
      end =
      match Utf8.lead x with
      | inl s => s +:+ Utf8.decode None a
      | inr p => Utf8.decode (Some p) a
      end +:+ Utf8.decode None b).
    { destruct (Utf8.lead x) as [s | p]; intros H.
      - now rewrite (IH None H), append_assoc.
      - exact (IH (Some p) H). }
    destruct state as [p|]; [| exact (Hfresh Hdone)].
    destruct ((Utf8.lower p <=? Byte.to_N x)%N && (Byte.to_N x <=? Utf8.upper p)%N).
    + destruct (Utf8.needed p) as [|[|k]].
      * now rewrite (IH None Hdone), append_assoc.
      * now rewrite (IH None Hdone), append_assoc.
      * exact (IH _ Hdone).
    + now rewrite (Hfresh Hdone), append_assoc.
Qed.

(** So chunks that each end with a character cut no character. *)
Lemma whole_characters_cut_no_character (E : Env) (chunks : list (list Byte.byte)) :
  Buffer_toString E = Utf8.toString ->
  Forall (fun chunk => Utf8.pending None chunk = None) chunks ->
  cuts_no_character E chunks.
Proof.
  intros HE Hwhole. unfold cuts_no_character, decoded. rewrite HE.
  induction Hwhole as [|chunk more Hchunk _ IH]; [reflexivity |].
  cbn [map concat]. unfold Utf8.toString at 3. rewrite decode_app by exact Hchunk.
  fold (Utf8.toString (concat more)). rewrite <- IH. reflexivity.
Qed.

(** In UTF-8 a chunk of ASCII is its own characters, so chunks of ASCII cut
    no character wherever they end. *)
Lemma decode_ascii (bytes : list Byte.byte) :
  Forall (fun b => (Byte.to_N b <= 127)%N) bytes ->
  Utf8.toString bytes = Utf8.chars bytes.
Proof.
  unfold Utf8.toString. induction 1 as [|b more Hb _ IH]; [reflexivity |].
  cbn [Utf8.decode Utf8.chars fold_right]. unfold Utf8.lead.
  apply N.leb_le in Hb. rewrite Hb, IH. reflexivity.
Qed.

Lemma chars_app (a b : list Byte.byte) :
  Utf8.chars (a ++ b) = Utf8.chars a +:+ Utf8.chars b.
Proof.
  induction a as [|x a IH]; [reflexivity |].
  cbn [app Utf8.chars fold_right]. rewrite append_cons. f_equal. exact IH.
Qed.

Lemma ascii_cuts_no_character (E : Env) (chunks : list (list Byte.byte)) :
  Buffer_toString E = Utf8.toString ->
  Forall (Forall (fun b => (Byte.to_N b <= 127)%N)) chunks ->
  cuts_no_character E chunks.
Proof.
  intros HE Hascii. unfold cuts_no_character, decoded. rewrite HE.
  rewrite decode_ascii by now apply Forall_concat.
  induction Hascii as [|chunk more Hchunk _ IH]; [reflexivity |].
  cbn [map concat]. rewrite chars_app, <- IH, decode_ascii by exact Hchunk.
  reflexivity.
Qed.




(** *** The close notification *)

Section CloseNotification.
Import Channel.
Variables self h : nat.

Lemma onclose_calls_app (a b : list Notification) :
  onclose_calls (a ++ b) = (onclose_calls a + onclose_calls b)%nat.
Proof.
  induction a as [|n a IH]; [reflexivity |].
  destruct n; simpl; rewrite IH; reflexivity.
Qed.

Lemma remove_first_foreign (ls : list (nat * ExitListener)) :
  Forall (fun l => fst l <> h) ls -> Child.remove_first h ls = ls.
Proof.
  induction 1 as [|l ls Hl _ IH]; simpl; [reflexivity |].
  rewrite decide_False by assumption. now rewrite IH.
Qed.

Lemma removeListener_armed (p : ChildProcess) (ls : list (nat * ExitListener)) :
  exit_listeners p = ls ++ [(h, TransportExit self)] ->
  exit_listeners (Child.removeListener_exit h p) = ls.
Proof.
  intros H. unfold Child.removeListener_exit. simpl. rewrite H.
  rewrite rev_app_distr. simpl. rewrite decide_True by reflexivity.
  apply rev_involutive.
Qed.

Lemma removeListener_foreign (p : ChildProcess) :
  foreign self h (exit_listeners p) ->
  exit_listeners (Child.removeListener_exit h p) = exit_listeners p.
Proof.
  intros H. unfold Child.removeListener_exit. simpl.
  rewrite remove_first_foreign.
  - apply rev_involutive.
  - apply Forall_rev. eapply Forall_impl; [exact H |]. now intros l [Hl _].
Qed.

(** Listeners that are not of this transport leave it alone. *)
Lemma exit_listeners_foreign (ls : list (nat * ExitListener))
    (acc : ProcessTransport * list Notification) :
  foreign self h ls -> fold_left (exit_listener self) ls acc = acc.
Proof.
  intros H. revert acc. induction H as [|l ls [_ Hl] _ IH]; intros acc; simpl;
    [reflexivity |].
  rewrite IH. unfold exit_listener.
  destruct (snd l) as [x|]; [| reflexivity].
  destruct (decide (x = self)) as [-> | _]; [congruence | reflexivity].
Qed.

(** The [error] listeners call [onerror], never [onclose], and keep the
    handlers and the stored closure. *)
Lemma error_listeners_no_close (err : string) (xs : list nat)
    (acc : ProcessTransport * list Notification) :
  let r := fold_left (error_listener self err) xs acc in
  onclose_calls (snd r) = onclose_calls (snd acc) /\
  onclose (fst r) = onclose (fst acc) /\
  exitHandler (fst r) = exitHandler (fst acc).
Proof.
  revert acc. induction xs as [|x xs IH]; intros acc; simpl; [done |].
  destruct (IH (error_listener self err acc x)) as (H1 & H2 & H3).
  rewrite H1, H2, H3. unfold error_listener.
  destruct (decide (x = self)); [| done].
  simpl. rewrite onclose_calls_app.
  destruct (onerror (fst acc)); simpl; split; try lia; done.
Qed.

(** The state of a started channel: the transport holds the closure [h],
    and the [exit] listeners of the process are foreign but for that closure,
    registered last (armed), or are all foreign (after a [close]). *)
Definition channel_inv (armed : bool) (t : ProcessTransport) (p : ChildProcess) : Prop :=
  exitHandler t = Some h /\
  if armed then
    exists ls, exit_listeners p = ls ++ [(h, TransportExit self)] /\ foreign self h ls
  else foreign self h (exit_listeners p).

Definition expected_calls (armed : bool) (t : ProcessTransport) (p : ChildProcess)
    (gs : list Trigger) : nat :=
  if onclose t then
    (closes gs + (if armed && negb (exited p) then exit_before_close gs else 0))%nat
  else 0%nat.

Lemma close_step (armed : bool) (t : ProcessTransport) (p : ChildProcess) :
  channel_inv armed t p ->
  let r := trigger self (t, p) Close in
  channel_inv false (fst (fst r)) (snd (fst r)) /\
  onclose (fst (fst r)) = onclose t /\
  snd r = (if onclose t then [OnClose] else []).
Proof.
  intros [Hh Hls]. unfold trigger, Transport.close. cbn [fst snd]. rewrite Hh.
  set (p1 := Child.removeListener_exit h p).
  assert (Hp1 : foreign self h (exit_listeners p1)).
  { subst p1. destruct armed.
    - destruct Hls as (ls & Hls & Hforeign).
      now rewrite (removeListener_armed p ls Hls).
    - now rewrite removeListener_foreign. }
  destruct (killed p1) eqn:Hk; cbn.
  - split; [split; [exact Hh | exact Hp1] | done].
  - split; [split; [exact Hh |] | done].
    unfold Child.kill. destruct (exited p1); assumption.
Qed.

Lemma exit_step (armed : bool) (t : ProcessTransport) (p : ChildProcess) :
  channel_inv armed t p ->
  let r := trigger self (t, p) Exit in
  channel_inv armed (fst (fst r)) (snd (fst r)) /\
  onclose (fst (fst r)) = onclose t /\
  exited (snd (fst r)) = true /\
  onclose_calls (snd r) =
    (if onclose t then if armed && negb (exited p) then 1 else 0 else 0)%nat.
Proof.
  intros Hinv. pose proof Hinv as [Hh Hls].
  unfold trigger, Child.emit_exit. cbn [fst snd].
  destruct (exited p) eqn:Hex; cbn [fst snd fold_left].
  - rewrite andb_false_r. split; [exact Hinv |].
    split; [reflexivity |]. split; [exact Hex |]. now destruct (onclose t).
  - rewrite andb_true_r. destruct armed.
    + destruct Hls as (ls & Hls & Hforeign). rewrite Hls.
      rewrite fold_left_app.
      rewrite (exit_listeners_foreign ls (t, []) Hforeign).
      cbn. rewrite decide_True by reflexivity. cbn.
      split; [split; [exact Hh | exists ls; split; [reflexivity | assumption]] |].
      split; [reflexivity |]. split; [reflexivity |]. now destruct (onclose t).
    + rewrite (exit_listeners_foreign _ (t, []) Hls). cbn.
      split; [split; [exact Hh | exact Hls] |].
      split; [reflexivity |]. split; [reflexivity |]. now destruct (onclose t).
Qed.

Lemma error_step (armed : bool) (t : ProcessTransport) (p : ChildProcess)
    (err : string) :
  channel_inv armed t p ->
  let r := trigger self (t, p) (Error err) in
  channel_inv armed (fst (fst r)) (snd (fst r)) /\
  onclose (fst (fst r)) = onclose t /\
  exited (snd (fst r)) = exited p /\
  onclose_calls (snd r) = 0%nat.
Proof.
  intros [Hh Hls]. unfold trigger. cbn [fst snd].
  destruct (error_listeners_no_close err (error_listeners p) (t, []))
    as (Hcalls & Honclose & Hhandler).
  cbn [fst snd] in *.
  split; [split; [now rewrite Hhandler | exact Hls] |].
  split; [exact Honclose |]. split; [reflexivity | exact Hcalls].
Qed.

(** The calls of [onclose] under any triggers, from a state of a started
    channel. *)
Lemma run_onclose_calls (gs : list Trigger) (armed : bool) (t : ProcessTransport)
    (p : ChildProcess) :
  channel_inv armed t p ->
  onclose_calls (snd (run self (t, p) gs)) = expected_calls armed t p gs.
Proof.
  revert armed t p. induction gs as [|g gs IH]; intros armed t p Hinv.
  - unfold expected_calls. cbn.
    destruct (onclose t); [| reflexivity]. now destruct (armed && negb (exited p)).
  - cbn [run snd fst]. rewrite onclose_calls_app.
    destruct g as [| | err].
    + destruct (close_step armed t p Hinv) as (Hinv' & Honclose & Hns).
      destruct (trigger self (t, p) Close) as [[t' p'] ns]. cbn [fst snd] in *.
      rewrite (IH false t' p' Hinv'). subst ns.
      unfold expected_calls. rewrite Honclose. cbn.
      destruct (onclose t); cbn; [| reflexivity].
      destruct (armed && negb (exited p)); lia.
    + destruct (exit_step armed t p Hinv) as (Hinv' & Honclose & Hex & Hns).
      destruct (trigger self (t, p) Exit) as [[t' p'] ns]. cbn [fst snd] in *.
      rewrite (IH armed t' p' Hinv'), Hns.
      unfold expected_calls. rewrite Honclose, Hex. cbn.
      rewrite andb_false_r.
      destruct (onclose t); cbn; [| reflexivity].
      destruct (armed && negb (exited p)); lia.
    + destruct (error_step armed t p err Hinv) as (Hinv' & Honclose & Hex & Hns).
      destruct (trigger self (t, p) (Error err)) as [[t' p'] ns]. cbn [fst snd] in *.
      rewrite (IH armed t' p' Hinv'), Hns.
      unfold expected_calls. rewrite Honclose, Hex. cbn. reflexivity.
Qed.

(** [start] on a process whose listeners are foreign arms the channel. *)
Lemma start_arms (t t1 : ProcessTransport) (p p1 : ChildProcess) :
  Transport.start self h t (Some p) = (t1, Some p1, Ok tt) ->
  foreign self h (exit_listeners p) ->
  channel_inv true t1 p1 /\ onclose t1 = onclose t /\ exited p1 = exited p.
Proof.
  unfold Transport.start. destruct (killed p); [discriminate |].
  intros H Hforeign. inversion H; subst; clear H. cbn.
  repeat split. exists (exit_listeners p). split; [reflexivity | assumption].
Qed.

(** The triggers keep the state of a started channel. *)
Lemma run_keeps_inv (gs : list Trigger) (armed : bool) (t : ProcessTransport)
    (p : ChildProcess) :
  channel_inv armed t p ->
  exists armed', channel_inv armed' (fst (fst (run self (t, p) gs)))
                   (snd (fst (run self (t, p) gs))).
Proof.
  revert armed t p. induction gs as [|g gs IH]; intros armed t p Hinv.
  - exists armed. exact Hinv.
  - cbn [run fst snd]. destruct g as [| | err].
    + destruct (close_step armed t p Hinv) as (Hinv' & _).
      destruct (trigger self (t, p) Close) as [[t' p'] ns]. cbn [fst snd] in *.
      exact (IH false t' p' Hinv').
    + destruct (exit_step armed t p Hinv) as (Hinv' & _).
      destruct (trigger self (t, p) Exit) as [[t' p'] ns]. cbn [fst snd] in *.
      exact (IH armed t' p' Hinv').
    + destruct (error_step armed t p err Hinv) as (Hinv' & _).
      destruct (trigger self (t, p) (Error err)) as [[t' p'] ns]. cbn [fst snd] in *.
      exact (IH armed t' p' Hinv').
Qed.

Lemma removeListener_foreign_id (p : ChildProcess) :
  foreign self h (exit_listeners p) -> Child.removeListener_exit h p = p.
Proof.
  intros H. pose proof (removeListener_foreign p H) as Hls.
  unfold Child.removeListener_exit, Child.set_listeners in *. cbn in Hls.
  rewrite Hls. now destruct p.
Qed.

(** On the state, [close] is idempotent: a second call changes neither the
    transport nor the process; it only calls [onclose] again. *)
Lemma close_twice (armed : bool) (t : ProcessTransport) (p : ChildProcess) :
  channel_inv armed t p ->
  trigger self (fst (trigger self (t, p) Close)) Close = trigger self (t, p) Close.
Proof.
  intros Hinv. destruct (close_step armed t p Hinv) as ([Hh Hforeign] & Honclose & Hns).
  revert Hh Hforeign Honclose Hns.
  destruct (trigger self (t, p) Close) as [[t' p'] ns] eqn:Hfirst. cbn [fst snd].
  intros Hh Hforeign Honclose Hns.
  assert (Hk : killed p' = true \/ exited p' = true).
  { unfold trigger, Transport.close in Hfirst. cbn [fst snd] in Hfirst.
    destruct Hinv as [Hh0 _]. rewrite Hh0 in Hfirst.
    destruct (killed (Child.removeListener_exit h p)) eqn:Hk0;
      cbn in Hfirst; inversion Hfirst; subst; clear Hfirst.
    - now left.
    - unfold Child.kill.
      destruct (exited (Child.removeListener_exit h p)) eqn:Hex0; cbn.
      + now right.
      + now left. }
  assert (Ht' : t' = Transport.set_isConnected false t).
  { unfold trigger, Transport.close in Hfirst. cbn [fst snd] in Hfirst.
    now inversion Hfirst. }
  unfold trigger, Transport.close. cbn [fst snd]. rewrite Hh.
  rewrite (removeListener_foreign_id p' Hforeign).
  rewrite Honclose, Hns. subst t'. cbn.
  destruct (killed p') eqn:Hkilled; cbn; [reflexivity |].
  destruct Hk as [Hk | Hk]; [congruence |].
  unfold Child.kill. rewrite Hk. reflexivity.
Qed.

End CloseNotification.

(** C2, as the code has it. On the state of a started channel [close] is
    idempotent: after any triggers, a second call in a row changes neither
    the transport nor the process. But it has no guard against a second
    call: every call calls the registered [onclose] handler once more. Over
    the life of a started channel, whatever the order of the triggers, the
    handler is called once for every call of [close], and once more if the
    process was alive at the start and its [exit] event comes before the
    first [close]; [close] removes the [exit] listener, so an exit after it
    adds nothing, and the [error] event never calls [onclose]. *)
Theorem onclose_once_per_close (self h : nat) (t t1 : ProcessTransport)
    (p p1 : ChildProcess) (gs : list Channel.Trigger) :
  Transport.start self h t (Some p) = (t1, Some p1, Ok tt) ->
  Channel.foreign self h (exit_listeners p) ->
  let reached := fst (Channel.run self (t1, p1) gs) in
  Channel.onclose_calls (snd (Channel.run self (t1, p1) gs)) =
  (if onclose t then
     Channel.closes gs +
     (if exited p then 0 else Channel.exit_before_close gs)
   else 0)%nat /\
  Channel.trigger self (fst (Channel.trigger self reached Channel.Close)) Channel.Close =
  Channel.trigger self reached Channel.Close /\
  isConnected (fst (fst (Channel.trigger self reached Channel.Close))) = false.
Proof.
  intros Hstart Hforeign reached.
  destruct (start_arms self h t t1 p p1 Hstart Hforeign) as (Hinv & Honclose & Hex).
  split; [| split].
  - rewrite (run_onclose_calls self h gs true t1 p1 Hinv).
    unfold expected_calls. rewrite Honclose, Hex. cbn.
    now destruct (exited p).
  - destruct (run_keeps_inv self h gs true t1 p1 Hinv) as [armed' Hreached].
    fold reached in Hreached. destruct reached as [t' p'].
    exact (close_twice self h armed' t' p' Hreached).
  - reflexivity.
Qed.

Lemma onclose_once_per_close_witness :
  Transport.start 0 1 sample_transport (Some (Child.spawned true)) =
    (fst sample_started, Some (snd sample_started), Ok tt) /\
  Channel.foreign 0 1 (exit_listeners (Child.spawned true)) /\
  Channel.onclose_calls
    (snd (Channel.run 0 sample_started
            [Channel.Error "EPIPE"; Channel.Exit; Channel.Close; Channel.Exit;
             Channel.Close])) = 3%nat.
Proof.
  assert (Hstart : Transport.start 0 1 sample_transport (Some (Child.spawned true)) =
                   (fst sample_started, Some (snd sample_started), Ok tt))
    by reflexivity.
  assert (Hforeign : Channel.foreign 0 1 (exit_listeners (Child.spawned true)))
    by constructor.
  split; [exact Hstart |]. split; [exact Hforeign |].
  exact (proj1 (onclose_once_per_close 0 1 sample_transport (fst sample_started)
                  (Child.spawned true) (snd sample_started)
                  [Channel.Error "EPIPE"; Channel.Exit; Channel.Close; Channel.Exit;
                   Channel.Close] Hstart Hforeign)).
Defined.

(** C2 as stated fails: on a started channel two calls of [close] call
    [onclose] twice, and so do the [exit] event and a call of [close] after
    it. *)
Lemma onclose_called_twice :
  Channel.onclose_calls
    (snd (Channel.run 0 sample_started [Channel.Close; Channel.Close])) = 2%nat /\
  Channel.onclose_calls
    (snd (Channel.run 0 sample_started [Channel.Exit; Channel.Close])) = 2%nat.
Proof. split; reflexivity. Qed.

(** *** Eviction *)

Section Eviction.
Variable E : Env.

Lemma transport_close_maps (tr : nat) (w : World) :
  runningServers (snd (transport_close E tr w)) = runningServers w /\
  connectedClients (snd (transport_close E tr w)) = connectedClients w.
Proof.
  unfold transport_close. munfold. cbn -[Transport.close].
  destruct (transports w !! tr) as [t|]; cbn -[Transport.close]; [| done].
  destruct (Transport.close t _) as [[t' [cp|]] ns]; cbn;
    destruct (onclose t); cbn; try destruct (onclose_throws E _); done.
Qed.

(** [removeClientFromCache] does not throw, deletes the entry of the name
    whatever closing the transport did, and leaves the running servers. *)
Lemma removeClientFromCache_spec (serverName : string) (w : World) :
  fst (removeClientFromCache E serverName w) = Ok tt /\
  connectedClients (snd (removeClientFromCache E serverName w)) =
    delete serverName (connectedClients w) /\
  runningServers (snd (removeClientFromCache E serverName w)) = runningServers w.
Proof.
  unfold removeClientFromCache.
  destruct (connectedClients w !! serverName) as [c|] eqn:Hc; simpl.
  - unfold try_finally, try_catch. simpl.
    assert (Hmaps : forall m : M unit,
      (runningServers (snd (m w)) = runningServers w /\
       connectedClients (snd (m w)) = connectedClients w) ->
      (let r := match m w with
                | (Ok a, w') => (Ok a, w')
                | (Throw _, w') => ret tt w'
                end in
       fst r = Ok tt /\
       connectedClients (W.set_connectedClients (delete serverName) (snd r)) =
         delete serverName (connectedClients w) /\
       runningServers (W.set_connectedClients (delete serverName) (snd r)) =
         runningServers w)).
    { intros m [Hr Hcc]. destruct (m w) as [[[]|e] w']; simpl in *;
        rewrite ?Hr, ?Hcc; done. }
    destruct (clients w !! c) as [[[tr|]]|]; simpl.
    + apply (Hmaps (transport_close E tr)), transport_close_maps.
    + done.
    + done.
  - split; [done |]. split; [| done].
    symmetry. now apply delete_id.
Qed.

End Eviction.

(** *** Stopping a server *)

Section Stopping.
Variable E : Env.

Lemma removeClientFromCache_run (serverName : string) (w : World) :
  exists w', removeClientFromCache E serverName w = (Ok tt, w') /\
    connectedClients w' = delete serverName (connectedClients w) /\
    runningServers w' = runningServers w.
Proof.
  destruct (removeClientFromCache_spec E serverName w) as (Hr & Hc & Hs).
  destruct (removeClientFromCache E serverName w) as [r w']; simpl in *.
  exists w'. subst r. done.
Qed.

(** The transitions of the event loop only delete from the running servers
    and leave the cache alone. *)
Lemma run_exit_listener_absent (serverName : string) (w : World)
    (l : nat * ExitListener) :
  runningServers w !! serverName = None ->
  connectedClients w !! serverName = None ->
  runningServers (run_exit_listener w l) !! serverName = None /\
  connectedClients (run_exit_listener w l) !! serverName = None.
Proof.
  intros Hs Hc. unfold run_exit_listener.
  destruct (snd l) as [tr | other persistent].
  - destruct (transports w !! tr); done.
  - destruct persistent; [done |]. simpl. split; [| done].
    destruct (decide (other = serverName)) as [-> | Hne].
    + apply lookup_delete_eq.
    + now rewrite lookup_delete_ne.
Qed.

Lemma exit_listeners_absent (serverName : string)
    (ls : list (nat * ExitListener)) (w : World) :
  runningServers w !! serverName = None ->
  connectedClients w !! serverName = None ->
  runningServers (fold_left run_exit_listener ls w) !! serverName = None /\
  connectedClients (fold_left run_exit_listener ls w) !! serverName = None.
Proof.
  revert w. induction ls as [|l ls IH]; intros w Hs Hc; simpl; [done |].
  destruct (run_exit_listener_absent serverName w l Hs Hc) as [H1 H2].
  now apply IH.
Qed.

Lemma process_exit_absent (pid : nat) (serverName : string) (w : World) :
  runningServers w !! serverName = None ->
  connectedClients w !! serverName = None ->
  runningServers (process_exit pid w) !! serverName = None /\
  connectedClients (process_exit pid w) !! serverName = None.
Proof.
  intros Hs Hc. unfold process_exit.
  destruct (processes w !! pid) as [p|]; [| done].
  now apply exit_listeners_absent.
Qed.

Lemma kill_maps (pid : nat) (sig : Signal) (w : World) :
  runningServers (snd (kill pid sig w)) = runningServers w /\
  connectedClients (snd (kill pid sig w)) = connectedClients w.
Proof. unfold kill. destruct (processes w !! pid); done. Qed.

Lemma kill_throws (pid : nat) (sig : Signal) (w w' : World) (e : Error) :
  kill pid sig w = (Throw e, w') -> exists msg, e = JsError msg.
Proof.
  unfold kill. destruct (processes w !! pid); intros H; inversion H; eauto.
Qed.

(** What [stopServer] does, by the two ways it can end. *)
Lemma stopServer_outcome (server_name : string) (w : World) :
  (fst (stopServer E server_name w) = Ok (stopped server_name) /\
   runningServers (snd (stopServer E server_name w)) !! server_name = None /\
   connectedClients (snd (stopServer E server_name w)) !! server_name = None) \/
  (exists e, fst (stopServer E server_name w) = Throw e /\
   is_Some (runningServers w !! server_name)).
Proof.
  unfold stopServer. munfold.
  destruct (runningServers w !! server_name) as [srv|] eqn:Hrun; simpl.
  - unfold getServerProcess. rewrite Hrun. simpl.
    destruct (kill_maps (process srv) SIGTERM w) as [Hks Hkc].
    destruct (kill (process srv) SIGTERM w) as [[sent|e] w1] eqn:Hkill; simpl in *.
    + destruct (removeClientFromCache_run server_name
                  (W.set_runningServers (delete server_name) w1))
        as (w2 & -> & Hc & Hs). simpl.
      left. split; [done |]. rewrite Hs, Hc. simpl.
      split; apply lookup_delete_eq.
    + destruct (removeClientFromCache_run server_name w1) as (w2 & -> & Hc & Hs).
      right. destruct (kill_throws _ _ _ _ _ Hkill) as [msg ->]. simpl. eauto.
  - destruct (removeClientFromCache_run server_name w) as (w2 & -> & Hc & Hs).
    simpl. left. split; [done |]. rewrite Hs, Hc.
    split; [done | apply lookup_delete_eq].
Qed.

End Stopping.

(** *** Termination *)

Section Termination.

(** [terminateProcess] on a running process that does not end on
    [SIGTERM]: the entry is deleted, [killed] is set, and the process has
    neither exited nor been sent [SIGKILL] when the call returns. *)
Lemma terminateProcess_survivor (serverName : string) (w : World)
    (srv : ServerProcess) (cp : ChildProcess) :
  runningServers w !! serverName = Some srv ->
  processes w !! process srv = Some cp ->
  exited cp = false -> signalled cp = false -> exits_on_SIGTERM cp = false ->
  let w' := snd (terminateProcess serverName w) in
  runningServers w' !! serverName = None /\
  exists cp', processes w' !! process srv = Some cp' /\
              exited cp' = false /\ signalled cp' = false /\ killed cp' = true.
Proof.
  intros Hsrv Hcp Hex Hsig Hterm.
  unfold terminateProcess, await_exit_or_timeout, getServerProcess, kill. munfold.
  rewrite Hsrv. cbn. rewrite Hcp. cbn. rewrite lookup_insert_eq.
  unfold Child.kill. rewrite Hex. cbn. rewrite Hsig, Hterm. cbn.
  split; [apply lookup_delete_eq |].
  eexists. split; [apply lookup_insert_eq |]. done.
Qed.

(** The listeners of an [exit] event leave the processes, the files and
    the references alone, and only add to the log. *)
Lemma exit_listeners_frame (ls : list (nat * ExitListener)) (w : World) :
  let w1 := fold_left run_exit_listener ls w in
  processes w1 = processes w /\ next_ref w1 = next_ref w /\
  files w1 = files w /\ process_env w1 = process_env w /\
  exists l, log w1 = log w ++ l.
Proof.
  revert w. induction ls as [|l ls IH]; intros w; cbn.
  - repeat split. exists []. now rewrite app_nil_r.
  - destruct (IH (run_exit_listener w l)) as (Hp & Hn & Hf & He & l1 & Hl).
    rewrite Hp, Hn, Hf, He, Hl. unfold run_exit_listener.
    destruct (snd l) as [tr | other persistent].
    + destruct (transports w !! tr) as [t|]; cbn.
      * repeat split. eexists. now rewrite <- app_assoc.
      * repeat split. eauto.
    + destruct persistent; cbn; repeat split; eauto.
Qed.

(** On a running process that ends on [SIGTERM], the [exit] event is
    awaited: when the call returns the event has been recorded, the process
    has exited and its entry is deleted; no process has been started. *)
Lemma terminateProcess_exits (serverName : string) (w : World)
    (srv : ServerProcess) (cp : ChildProcess) :
  runningServers w !! serverName = Some srv ->
  processes w !! process srv = Some cp ->
  exited cp = false -> exits_on_SIGTERM cp = true ->
  exists w' cp' l,
    terminateProcess serverName w = (Ok tt, w') /\
    processes w' !! process srv = Some cp' /\ exited cp' = true /\
    log w' = log w ++ Exited (process srv) :: l /\
    next_ref w' = next_ref w /\ files w' = files w /\
    process_env w' = process_env w.
Proof.
  intros Hsrv Hcp Hex Hterm.
  unfold terminateProcess, await_exit_or_timeout, getServerProcess, kill. munfold.
  rewrite Hsrv. cbn. rewrite Hcp. cbn. rewrite lookup_insert_eq.
  unfold Child.kill. rewrite Hex. cbn. rewrite Hterm, orb_true_r. cbn.
  unfold process_exit. cbn. rewrite lookup_insert_eq. cbn.
  match goal with |- context [fold_left run_exit_listener ?ls ?w0] =>
    destruct (exit_listeners_frame ls w0) as (Hp & Hn & Hf & He & l & Hl);
    cbn in Hp, Hn, Hf, He, Hl
  end.
  eexists. eexists. exists l. split; [reflexivity |].
  rewrite Hp, Hn, Hf, He, Hl. cbn.
  split; [apply lookup_insert_eq |]. split; [reflexivity |].
  split; [now rewrite <- app_assoc |]. done.
Qed.

(** [close] leaves the life of the process as it is: it only sets
    [killed], records a signal and removes a listener. *)
Lemma close_keeps_life (t : ProcessTransport) (cp : ChildProcess) :
  exists cp', snd (fst (Transport.close t (Some cp))) = Some cp' /\
              exited cp' = exited cp /\
              exits_on_SIGTERM cp' = exits_on_SIGTERM cp.
Proof.
  unfold Transport.close.
  destruct (exitHandler t) as [h|]; cbn.
  - destruct (killed cp); cbn; [eauto |].
    unfold Child.kill. cbn. destruct (exited cp) eqn:Hex; cbn; eauto.
  - destruct (killed cp); cbn; [eauto |].
    unfold Child.kill. destruct (exited cp) eqn:Hex; cbn; eauto.
Qed.

(** What an eviction leaves alone: the references, the files, the running
    servers, and the life of every process; it only adds to the log. *)
Definition keeps_life (pid : nat) (w w1 : World) : Prop :=
  next_ref w1 = next_ref w /\ files w1 = files w /\
  process_env w1 = process_env w /\
  (exists l, log w1 = log w ++ l) /\
  forall cp, processes w !! pid = Some cp ->
    exists cp1, processes w1 !! pid = Some cp1 /\
                exited cp1 = exited cp /\
                exits_on_SIGTERM cp1 = exits_on_SIGTERM cp.

Lemma keeps_life_refl (pid : nat) (w : World) : keeps_life pid w w.
Proof.
  repeat split; try reflexivity.
  - exists []. now rewrite app_nil_r.
  - intros cp Hcp. eauto.
Qed.

Lemma transport_close_keeps_life (E : Env) (tr pid : nat) (w : World) :
  keeps_life pid w (snd (transport_close E tr w)).
Proof.
  unfold transport_close. munfold. cbn -[Transport.close].
  destruct (transports w !! tr) as [t|]; cbn -[Transport.close].
  2: { repeat split; try reflexivity.
       - exists []. now rewrite app_nil_r.
       - intros cp Hcp. eauto. }
  destruct (processes w !! process (server t)) as [cp0|] eqn:Hcp0.
  - destruct (close_keeps_life t cp0) as (cp' & Hclose & Hex & Hterm).
    destruct (Transport.close t (Some cp0)) as [[t' p'] ns]. cbn in Hclose. subst p'.
    assert (Hgoal : keeps_life pid w
              (W.emit (map (Notified tr) ns)
                 (W.set_processes <[process (server t):=cp']>
                    (W.set_transports <[tr:=t']> (W.set_tick (S (tick w)) w))))).
    { repeat split; try reflexivity.
      - cbn. eauto.
      - intros cp Hcp. cbn.
        destruct (decide (process (server t) = pid)) as [<- | Hne].
        + rewrite lookup_insert_eq. rewrite Hcp0 in Hcp. inversion Hcp; subst. eauto.
        + rewrite lookup_insert_ne by assumption. eauto. }
    cbn. destruct (onclose t); [destruct (onclose_throws E (tick w)) |]; exact Hgoal.
  - assert (Hnone : Transport.close t None =
                    (Transport.set_isConnected false t, None,
                     if onclose t then [OnClose] else [])).
    { unfold Transport.close. now destruct (exitHandler t). }
    rewrite Hnone. cbn.
    assert (Hgoal : keeps_life pid w
              (W.emit (map (Notified tr) (if onclose t then [OnClose] else []))
                 (W.set_transports <[tr:=Transport.set_isConnected false t]>
                    (W.set_tick (S (tick w)) w)))).
    { repeat split; try reflexivity.
      - cbn. eauto.
      - intros cp Hcp. cbn. eauto. }
    destruct (onclose t); [destruct (onclose_throws E (tick w)) |]; exact Hgoal.
Qed.

Lemma removeClientFromCache_keeps_life (E : Env) (serverName : string) (pid : nat)
    (w : World) :
  keeps_life pid w (snd (removeClientFromCache E serverName w)).
Proof.
  unfold removeClientFromCache.
  destruct (connectedClients w !! serverName) as [c|]; [| apply keeps_life_refl].
  unfold try_finally, try_catch. cbn.
  assert (Hstep : forall m : M unit, keeps_life pid w (snd (m w)) ->
            keeps_life pid w
              (W.set_connectedClients (delete serverName)
                 (snd (match m w with
                       | (Ok a, w') => (Ok a, w')
                       | (Throw _, w') => ret tt w'
                       end)))).
  { intros m H. destruct (m w) as [[[]|e] w1]; exact H. }
  destruct (clients w !! c) as [[[tr|]]|]; cbn.
  - apply (Hstep (transport_close E tr)), transport_close_keeps_life.
  - exact (keeps_life_refl pid w).
  - exact (keeps_life_refl pid w).
Qed.

End Termination.

Section Redeploy.
Variable E : Env.

Lemma validateSourcePath_world (sourcePath : string) (w : World) :
  snd (validateSourcePath E sourcePath w) = w.
Proof.
  unfold validateSourcePath. munfold. cbn.
  destruct (files w !! sourcePath); [| reflexivity].
  now destruct (files w !! path_join E sourcePath "package.json").
Qed.

Lemma determineStartCommand_world (sourcePath : string) (w : World) :
  snd (determineStartCommand E sourcePath w) = w.
Proof.
  unfold determineStartCommand, readFileSync. munfold. cbn.
  destruct (files w !! path_join E sourcePath "package.json") as [[|content]|];
    cbn; try reflexivity.
  destruct (JSON_parse E content) as [packageJson | msg]; [| reflexivity].
  now destruct (has_start_script packageJson) as [[|]|].
Qed.

End Redeploy.

Section Waiting.

(** The exit of a process changes, among the processes, only the one that
    exits. *)
Lemma process_exit_processes (pid q : nat) (w : World) :
  processes (process_exit pid w) !! q =
  if decide (q = pid) then fst ∘ Child.emit_exit <$> processes w !! q
  else processes w !! q.
Proof.
  unfold process_exit.
  destruct (processes w !! pid) as [p|] eqn:Hp.
  - match goal with |- context [fold_left run_exit_listener ?ls ?w0] =>
      destruct (exit_listeners_frame ls w0) as (Hps & _); cbn in Hps
    end.
    rewrite Hps. destruct (decide (q = pid)) as [-> | Hne].
    + now rewrite lookup_insert_eq, Hp.
    + now rewrite lookup_insert_ne by congruence.
  - destruct (decide (q = pid)) as [-> | Hne]; [now rewrite Hp | reflexivity].
Qed.

(** It leaves the references, the files and the variables, and only adds
    to the log. *)
Lemma process_exit_frame (pid : nat) (w : World) :
  let w1 := process_exit pid w in
  next_ref w1 = next_ref w /\ files w1 = files w /\
  process_env w1 = process_env w /\ exists l, log w1 = log w ++ l.
Proof.
  unfold process_exit. destruct (processes w !! pid) as [p|].
  - match goal with |- context [fold_left run_exit_listener ?ls ?w0] =>
      destruct (exit_listeners_frame ls w0) as (_ & Hn & Hf & He & l & Hl);
      cbn in Hn, Hf, He, Hl
    end.
    cbn. rewrite Hn, Hf, He, Hl. repeat split. rewrite <- app_assoc. eauto.
  - cbn. repeat split. exists []. now rewrite app_nil_r.
Qed.

(** So do processes that exit one after the other; a process that has
    exited stays so, and one that is not among them is left as it is. *)
Lemma processes_exit_frame (pids : list nat) (w : World) :
  let w1 := processes_exit pids w in
  next_ref w1 = next_ref w /\ files w1 = files w /\
  process_env w1 = process_env w /\ (exists l, log w1 = log w ++ l) /\
  forall q cp, processes w !! q = Some cp ->
    exists cp1, processes w1 !! q = Some cp1 /\
                (exited cp = true -> cp1 = cp) /\ (q ∉ pids -> cp1 = cp).
Proof.
  revert w. induction pids as [|pid pids IH]; intros w; cbn.
  - repeat split. { exists []. now rewrite app_nil_r. } eauto.
  - destruct (IH (process_exit pid w)) as (Hn & Hf & He & [l Hl] & Hps).
    destruct (process_exit_frame pid w) as (Hn0 & Hf0 & He0 & [l0 Hl0]).
    fold (processes_exit pids (process_exit pid w)).
    rewrite Hn, Hf, He, Hl, Hn0, Hf0, He0, Hl0.
    repeat split. { rewrite <- app_assoc. eauto. }
    intros q cp Hq.
    pose proof (process_exit_processes pid q w) as Hstep. rewrite Hq in Hstep.
    destruct (decide (q = pid)) as [-> | Hne]; cbn in Hstep.
    + destruct (Hps pid _ Hstep) as (cp1 & Hcp1 & Hex1 & _).
      exists cp1. split; [exact Hcp1 |]. split.
      * intros Hex. unfold Child.emit_exit in Hex1. rewrite Hex in Hex1.
        apply Hex1. exact Hex.
      * intros Hnot. exfalso. apply Hnot. apply list_elem_of_here.
    + destruct (Hps q cp Hstep) as (cp1 & Hcp1 & Hex1 & Hnot1).
      exists cp1. split; [exact Hcp1 |]. split; [exact Hex1 |].
      intros Hnot. apply Hnot1. intros Hin. apply Hnot.
      now apply list_elem_of_further.
Qed.

End Waiting.

(** What does hold of a redeployment. A deployment under a name that has a
    running server first evicts the cached client and runs
    [terminateProcess], which signals the old process, deletes its entry
    and waits for its [exit] event for at most a second, and only then
    starts the replacement. For an old process that ends within that
    second, whenever the deployment returns: the [exit] event of the old
    process was delivered before the replacement, a different process, was
    started, and the old process has exited. If no process ends in the
    second that the deployment then waits, the name belongs to the
    replacement, which is running. *)
Lemma deployServer_awaits_exit (E : Env) (input : DeployServerInput.t) (w w' : World)
    (response : DeployServerResponse.t) (srv : ServerProcess) (cp : ChildProcess) :
  let serverName := DeployServerInput.name input in
  deployServer E input w = (Ok response, w') ->
  runningServers w !! serverName = Some srv ->
  processes w !! process srv = Some cp ->
  exited cp = false -> exits_on_SIGTERM cp = true ->
  (process srv < next_ref w)%nat ->
  exists before between after replacement command environment cp',
    log w' = log w ++ before ++ Exited (process srv) :: between ++
             Spawned replacement command (DeployServerInput.source_path input)
               environment :: after /\
    replacement <> process srv /\
    processes w' !! process srv = Some cp' /\ exited cp' = true /\
    (exits_during_wait E replacement = [] ->
     after = [] /\
     (process <$> runningServers w' !! serverName) = Some replacement /\
     (exited <$> processes w' !! replacement) = Some false).
Proof.
  intros serverName Hrun Hsrv Hcp Hex Hterm Hfresh.
  unfold deployServer in Hrun. fold serverName in Hrun.
  unfold try_catch in Hrun.
  match type of Hrun with context [match ?b with _ => _ end] =>
    destruct b as [[response0 | e] w0] eqn:Hbody
  end.
  2: { destruct e; discriminate. }
  inversion Hrun; subst response0 w0; clear Hrun.
  unfold mbind, M_bind in Hbody.
  pose proof (validateSourcePath_world E (DeployServerInput.source_path input) w) as Hv.
  destruct (validateSourcePath E _ w) as [[[]|e] w1]; [| discriminate].
  cbn in Hv. subst w1.
  destruct (removeClientFromCache_run E serverName w) as (w1 & Hrm & _ & Hservers).
  pose proof (removeClientFromCache_keeps_life E serverName (process srv) w) as Hlife.
  rewrite Hrm in Hbody, Hlife. cbn in Hlife.
  destruct Hlife as (Hn1 & Hf1 & He1 & [before Hl1] & Hcp1).
  destruct (Hcp1 cp Hcp) as (cp1 & Hcp1' & Hex1 & Hterm1).
  unfold gets in Hbody. rewrite Hservers, Hsrv in Hbody.
  destruct (terminateProcess_exits serverName w1 srv cp1)
    as (w2 & cp2 & between & Hterminate & Hcp2 & Hex2 & Hl2 & Hn2 & Hf2 & He2);
    try congruence.
  rewrite Hterminate in Hbody.
  pose proof (determineStartCommand_world E (DeployServerInput.source_path input) w2) as Hd.
  destruct (determineStartCommand E _ w2) as [[command|e] w3]; [| discriminate].
  cbn in Hd. subst w3.
  unfold prepareEnvironmentVariables, spawn, setupLogStream, now, initial_wait in Hbody.
  munfold. cbn -[processes_exit] in Hbody.
  destruct (spawn_throws E (tick w2)) as [msg|]; [discriminate |].
  cbn -[processes_exit] in Hbody. inversion Hbody; subst; clear Hbody.
  assert (Hne : next_ref w2 <> process srv) by lia.
  match goal with |- context [processes_exit ?pids ?w0] =>
    destruct (processes_exit_frame pids w0) as (_ & _ & _ & [after Hl] & Hps);
    cbn in Hl, Hps
  end.
  destruct (Hps (process srv) cp2) as (cp' & Hcp' & Hsame & _).
  { rewrite lookup_alter_ne by exact Hne.
    rewrite lookup_insert_ne by exact Hne. exact Hcp2. }
  exists before, between, after, (next_ref w2), command. eexists. exists cp'.
  split.
  { rewrite Hl, Hl2, Hl1. rewrite <- !app_assoc. reflexivity. }
  split; [exact Hne |].
  split; [exact Hcp' |].
  split; [now rewrite (Hsame Hex2) |].
  intros Hnone. rewrite Hnone in Hl |- *. cbn in Hl |- *.
  split.
  { eapply app_inv_head. rewrite app_nil_r. symmetry. exact Hl. }
  split; [now rewrite lookup_insert_eq |].
  rewrite lookup_alter_eq, lookup_insert_eq. reflexivity.
Qed.

Lemma deployServer_awaits_exit_sample :
  let E := Sample.env Sample.answers true in
  let first := snd (deployServer E (Sample.deploy "/src/a") Sample.empty_world) in
  let second := deployServer E (Sample.deploy "/src/b") first in
  fst second = Ok {| DeployServerResponse.name := "srv";
                     DeployServerResponse.id := "mcp-test-srv";
                     DeployServerResponse.status := "running" |} /\
  exists before between after replacement command environment cp',
    log (snd second) =
      log first ++ before ++ Exited 0 :: between ++
      Spawned replacement command "/src/b" environment :: after /\
    replacement <> 0%nat /\
    processes (snd second) !! 0%nat = Some cp' /\ exited cp' = true /\
    (exits_during_wait E replacement = [] ->
     after = [] /\
     (process <$> runningServers (snd second) !! "srv") = Some replacement /\
     (exited <$> processes (snd second) !! replacement) = Some false).
Proof.
  intros E first second.
  assert (Hrun : deployServer E (Sample.deploy "/src/b") first =
                 (Ok {| DeployServerResponse.name := "srv";
                        DeployServerResponse.id := "mcp-test-srv";
                        DeployServerResponse.status := "running" |}, snd second))
    by (vm_compute; reflexivity).
  split; [vm_compute; reflexivity |].
  apply (deployServer_awaits_exit E (Sample.deploy "/src/b") first (snd second) _
           {| process := 0%nat; name := "srv"; source_path := "/src/a";
              deployed_at := 1000 |}
           {| killed := false; exited := false; signalled := false;
              exits_on_SIGTERM := true;
              exit_listeners := [(1%nat, DeployExit "srv" false)];
              error_listeners := []; data_listeners := [] |} Hrun);
    try (vm_compute; reflexivity).
  vm_compute. lia.
Defined.

(** *** Deploying twice under one name *)

(** C3. The code breaks it. A program that does not end on [SIGTERM] is
    deployed as srv, and srv is deployed again. [terminateProcess] sends
    [SIGTERM], which sets [killed]; no [exit] event comes, the timer fires,
    and its forced kill, guarded by [killed] being unset, is not sent. The
    second deployment starts its process while the first process has not
    exited, and when it returns both processes are alive: the old process
    was not terminated before the replacement started.
    [terminateProcess_survivor] has the first half for every such process,
    and [terminateProcess_exits] says that a process that ends on [SIGTERM]
    has exited when the call returns. *)
Lemma deployServer_twice_first_survives :
  let E := Sample.env Sample.answers false in
  let first := deployServer E (Sample.deploy "/src/a") Sample.empty_world in
  let second := deployServer E (Sample.deploy "/src/b") (snd first) in
  (process <$> runningServers (snd first) !! "srv") = Some 0%nat /\
  (DeployServerResponse.status <$> fst_ok (fst second)) = Some "running" /\
  (process <$> runningServers (snd second) !! "srv") = Some 2%nat /\
  (exited <$> processes (snd second) !! 0%nat) = Some false /\
  (killed <$> processes (snd second) !! 0%nat) = Some true /\
  (signalled <$> processes (snd second) !! 0%nat) = Some false /\
  (exited <$> processes (snd second) !! 2%nat) = Some false /\
  log (snd second) =
    [Spawned 0 "node dist/index.js" "/src/a" ∅;
     Spawned 2 "node dist/index.js" "/src/b" ∅].
Proof. vm_compute. repeat split; reflexivity. Qed.

(** *** Acquiring a session *)

Section Acquisition.
Variable E : Env.

Lemma createNewClient_unregistered (serverName : string) (w : World) :
  runningServers w !! serverName = None ->
  createNewClient E serverName w =
  (Throw (ToolCallError serverName "connect"
            (message E (ServerNotFoundError serverName))), w).
Proof.
  intros H. unfold createNewClient, getServerProcess. munfold. now rewrite H.
Qed.

Lemma getClient_unregistered (serverName : string) (w : World) :
  runningServers w !! serverName = None ->
  fst (getClient E serverName w) =
  Throw (ToolCallError serverName "connect"
           (message E (ServerNotFoundError serverName))).
Proof.
  intros H. unfold getClient. munfold. simpl.
  destruct (connectedClients w !! serverName) as [c|].
  - unfold reuse_cached, getServerProcess. munfold. rewrite H. simpl.
    destruct (removeClientFromCache_run E serverName w) as (w' & -> & _ & Hs).
    simpl. rewrite createNewClient_unregistered by now rewrite Hs. reflexivity.
  - now rewrite createNewClient_unregistered.
Qed.

(** A client that [createNewClient] returns is the cached one, for a
    registered server whose process has not been signalled with [kill]. *)
Lemma createNewClient_ok (serverName : string) (w w1 : World) (c : nat) :
  createNewClient E serverName w = (Ok c, w1) ->
  connectedClients w1 !! serverName = Some c /\
  exists srv cp, runningServers w1 !! serverName = Some srv /\
                 processes w1 !! process srv = Some cp /\ killed cp = false.
Proof.
  unfold createNewClient, connect, transport_start, getServerProcess. munfold.
  destruct (runningServers w !! serverName) as [srv|] eqn:Hsrv; [| discriminate].
  cbn -[Transport.start]. rewrite lookup_alter_eq, lookup_insert_eq.
  cbn -[Transport.start].
  unfold Transport.start.
  destruct (processes w !! process srv) as [cp|] eqn:Hcp; cbn; [| discriminate].
  destruct (killed cp) eqn:Hkilled; cbn; [discriminate |].
  destruct (rpc_result (client_connect E (tick w))); cbn; [| discriminate].
  intros H. inversion H; subst; clear H. cbn.
  split; [apply lookup_insert_eq |].
  exists srv. eexists. split; [exact Hsrv |]. split; [apply lookup_insert_eq |].
  exact Hkilled.
Qed.

(** The health check passes: the list request is answered within the
    timeout. *)
Definition health_check_passes (k : nat) : Prop :=
  rpc_after (client_listTools E k) < 1000 /\
  exists tools, rpc_result (client_listTools E k) = Fulfilled tools.

(** The health check fails: the list request takes the timeout or more, or
    is rejected. *)
Definition health_check_fails (k : nat) : Prop :=
  1000 <= rpc_after (client_listTools E k) \/
  exists msg, rpc_result (client_listTools E k) = Rejected msg.

Lemma verifyConnection_fails (c : nat) (serverName : string) (w : World) :
  health_check_fails (tick w) ->
  verifyConnection E c serverName w = (Ok false, W.set_tick (S (tick w)) w).
Proof.
  intros Hfail. unfold verifyConnection, health_race. munfold. cbn.
  destruct (Z.ltb_spec (rpc_after (client_listTools E (tick w))) 1000) as [Hlt | Hge];
    cbn; [| reflexivity].
  destruct Hfail as [Hge | [msg Hmsg]]; [lia |].
  now rewrite Hmsg.
Qed.

Lemma verifyConnection_passes (c : nat) (serverName : string) (w : World) :
  health_check_passes (tick w) ->
  verifyConnection E c serverName w = (Ok true, W.set_tick (S (tick w)) w).
Proof.
  intros [Hlt [tools Hres]]. unfold verifyConnection, health_race. munfold. cbn.
  apply Z.ltb_lt in Hlt. rewrite Hlt, Hres. reflexivity.
Qed.

(** [verifyConnection] never throws: a time-out and a rejection are the
    answer false. *)
Lemma verifyConnection_total (c : nat) (serverName : string) (w : World) :
  exists healthy, verifyConnection E c serverName w =
                  (Ok healthy, W.set_tick (S (tick w)) w).
Proof.
  unfold verifyConnection, health_race. munfold. cbn.
  destruct (rpc_after (client_listTools E (tick w)) <? 1000); cbn; [| eauto].
  destruct (rpc_result (client_listTools E (tick w))); cbn; eauto.
Qed.

Lemma reuse_cached_healthy (serverName : string) (c : nat) (w : World)
    (srv : ServerProcess) (cp : ChildProcess) :
  runningServers w !! serverName = Some srv ->
  processes w !! process srv = Some cp ->
  killed cp = false ->
  health_check_passes (tick w) ->
  reuse_cached E serverName c w = (Ok (Some c), W.set_tick (S (tick w)) w).
Proof.
  intros Hsrv Hcp Hkilled Hhealth.
  unfold reuse_cached, getServerProcess. munfold.
  rewrite Hsrv. cbn. rewrite Hcp, Hkilled.
  now rewrite verifyConnection_passes.
Qed.

(** The cached branch either returns the cached client, having changed
    nothing but the count of requests, or removes the entry. *)
Lemma reuse_cached_cases (serverName : string) (c : nat) (w : World) :
  (reuse_cached E serverName c w = (Ok (Some c), W.set_tick (S (tick w)) w) /\
   exists srv cp, runningServers w !! serverName = Some srv /\
                  processes w !! process srv = Some cp /\ killed cp = false) \/
  (exists w', reuse_cached E serverName c w = (Ok None, w') /\
              connectedClients w' !! serverName = None /\
              runningServers w' = runningServers w).
Proof.
  unfold reuse_cached, getServerProcess. munfold.
  destruct (runningServers w !! serverName) as [srv|] eqn:Hsrv; cbn.
  - destruct (processes w !! process srv) as [cp|] eqn:Hcp; cbn.
    + destruct (killed cp) eqn:Hkilled; cbn.
      * right. destruct (removeClientFromCache_run E serverName w)
          as (w' & -> & Hc & Hs).
        exists w'. rewrite Hc. split; [done |]. split; [apply lookup_delete_eq | done].
      * destruct (verifyConnection_total c serverName w) as [[|] ->]; cbn.
        -- left. split; [done |]. eauto.
        -- right. destruct (removeClientFromCache_run E serverName
                              (W.set_tick (S (tick w)) w)) as (w' & -> & Hc & Hs).
           exists w'. rewrite Hc. split; [done |].
           split; [apply lookup_delete_eq | done].
    + right. destruct (removeClientFromCache_run E serverName w)
        as (w' & -> & Hc & Hs).
      exists w'. rewrite Hc. split; [done |]. split; [apply lookup_delete_eq | done].
  - right. destruct (removeClientFromCache_run E serverName w)
      as (w' & -> & Hc & Hs).
    exists w'. rewrite Hc. split; [done |]. split; [apply lookup_delete_eq | done].
Qed.

(** After a successful acquisition the client is the cached one, the
    server is registered and its process has not been signalled with
    [kill]. *)
Lemma getClient_ok (serverName : string) (w w1 : World) (c : nat) :
  getClient E serverName w = (Ok c, w1) ->
  connectedClients w1 !! serverName = Some c /\
  exists srv cp, runningServers w1 !! serverName = Some srv /\
                 processes w1 !! process srv = Some cp /\ killed cp = false.
Proof.
  unfold getClient. munfold. cbn.
  destruct (connectedClients w !! serverName) as [cached|] eqn:Hcached.
  - destruct (reuse_cached_cases serverName cached w)
      as [[-> (srv & cp & Hsrv & Hcp & Hk)] | (w' & -> & _ & _)]; cbn.
    + intros H. inversion H; subst; clear H. cbn. eauto 10.
    + apply createNewClient_ok.
  - apply createNewClient_ok.
Qed.

Lemma transport_start_maps (tr : nat) (w : World) :
  runningServers (snd (transport_start tr w)) = runningServers w /\
  connectedClients (snd (transport_start tr w)) = connectedClients w.
Proof.
  unfold transport_start. munfold. cbn -[Transport.start].
  destruct (transports w !! tr) as [t|]; cbn -[Transport.start]; [| done].
  destruct (Transport.start _ _ _ _) as [[t' [cp|]] r]; done.
Qed.

(** What [createNewClient] throws is a [ToolCallError] for connect, and it
    leaves the two maps as they were. *)
Lemma createNewClient_fails (serverName : string) (w w' : World) (e : Error) :
  createNewClient E serverName w = (Throw e, w') ->
  (exists cause, e = ToolCallError serverName "connect" cause) /\
  connectedClients w' = connectedClients w /\
  runningServers w' = runningServers w.
Proof.
  unfold createNewClient, connect, getServerProcess. munfold.
  destruct (runningServers w !! serverName) as [srv|] eqn:Hsrv.
  2: { intros H. inversion H; subst. eauto. }
  cbn -[transport_start].
  match goal with |- context [transport_start ?tr ?w0] =>
    destruct (transport_start_maps tr w0) as [Hs Hc];
    destruct (transport_start tr w0) as [[[]|e0] w1]
  end; cbn in Hs, Hc |- *.
  - destruct (rpc_result (client_connect E (tick w1))); cbn; [discriminate |].
    intros H. inversion H; subst. eauto.
  - intros H. inversion H; subst. eauto.
Qed.

(** So is what [getClient] throws; the name is not cached then. *)
Lemma getClient_fails (serverName : string) (w w' : World) (e : Error) :
  getClient E serverName w = (Throw e, w') ->
  (exists cause, e = ToolCallError serverName "connect" cause) /\
  connectedClients w' !! serverName = None /\
  runningServers w' = runningServers w.
Proof.
  unfold getClient. munfold. cbn.
  destruct (connectedClients w !! serverName) as [c|] eqn:Hc.
  - destruct (reuse_cached_cases serverName c w)
      as [[-> _] | (w1 & -> & Hc1 & Hs1)]; cbn; [discriminate |].
    intros Hnew. destruct (createNewClient_fails serverName w1 w' e Hnew)
      as (Hcause & Hc' & Hs').
    split; [exact Hcause |]. split; congruence.
  - intros Hnew. destruct (createNewClient_fails serverName w w' e Hnew)
      as (Hcause & Hc' & Hs').
    split; [exact Hcause |]. split; congruence.
Qed.

End Acquisition.

(** *** Listing the tools *)

(** C4, as the code has it. [listTools] lets the failures of the
    acquisition reach its caller, thrown and not returned as a value: when
    the acquisition throws, [listTools] throws, in the world the
    acquisition has left. What it throws is not the failure itself: every
    error that leaves [listTools] is a [ToolCallError] for the operation
    listTools that carries the message of its cause, and the cause, when
    the acquisition has failed, is a [ToolCallError] for connect. When the
    acquisition succeeds, [listTools] throws only if the list request is
    rejected, with the message of the rejection, and returns the names of
    the tools otherwise. For a name with no running server the cause is
    the [ToolCallError] for connect into which [createNewClient] has turned
    the [ServerNotFoundError]. *)
Theorem listTools_throws_ToolCallError (E : Env) (serverName : string) (w : World) :
  (forall cause w1, getClient E serverName w = (Throw cause, w1) ->
     listTools E serverName w =
       (Throw (ToolCallError serverName "listTools" (message E cause)), w1) /\
     exists msg, cause = ToolCallError serverName "connect" msg) /\
  (forall client w1, getClient E serverName w = (Ok client, w1) ->
     listTools E serverName w =
       (match rpc_result (client_listTools E (tick w1)) with
        | Rejected msg => Throw (ToolCallError serverName "listTools" msg)
        | Fulfilled response => Ok (map Tool.name (default [] response))
        end, W.set_tick (S (tick w1)) w1)) /\
  (forall e w', listTools E serverName w = (Throw e, w') ->
     exists cause, e = ToolCallError serverName "listTools" cause) /\
  (runningServers w !! serverName = None ->
     fst (listTools E serverName w) =
     Throw (ToolCallError serverName "listTools"
              (message E (ToolCallError serverName "connect"
                            (message E (ServerNotFoundError serverName)))))).
Proof.
  split; [| split; [| split]].
  - intros cause w1 Hget. split.
    + unfold listTools. munfold. now rewrite Hget.
    + now destruct (getClient_fails E serverName w w1 cause Hget) as [Hcause _].
  - intros client w1 Hget. unfold listTools. munfold. rewrite Hget. cbn.
    now destruct (rpc_result (client_listTools E (tick w1))).
  - intros e w'. unfold listTools. unfold try_catch.
    match goal with |- context [match ?body w with _ => _ end] =>
      destruct (body w) as [[names | cause] w0] end.
    + discriminate.
    + unfold throw. intros H. inversion H. eauto.
  - intros Hnone. unfold listTools. munfold.
    pose proof (getClient_unregistered E serverName w Hnone) as Hget.
    destruct (getClient E serverName w) as [r w0]. simpl in Hget. subst r.
    reflexivity.
Qed.

Lemma listTools_throws_ToolCallError_witness :
  runningServers Sample.empty_world !! "srv" = None /\
  listTools (Sample.env Sample.answers true) "srv" Sample.empty_world =
  (Throw (ToolCallError "srv" "listTools" "srv.connect: Server not found: srv"),
   Sample.empty_world).
Proof.
  split; [reflexivity |].
  exact (proj1 (proj1 (listTools_throws_ToolCallError (Sample.env Sample.answers true)
                         "srv" Sample.empty_world)
                  (ToolCallError "srv" "connect" "Server not found: srv")
                  Sample.empty_world eq_refl)).
Defined.

(** C4 as stated fails: for a name with no running server the caller of
    [listTools] does not receive the [ServerNotFoundError]. *)
Lemma listTools_not_found_is_converted :
  runningServers Sample.empty_world !! "srv" = None /\
  fst (listTools (Sample.env Sample.answers true) "srv" Sample.empty_world) =
    Throw (ToolCallError "srv" "listTools" "srv.connect: Server not found: srv") /\
  fst (listTools (Sample.env Sample.answers true) "srv" Sample.empty_world) <>
    Throw (ServerNotFoundError "srv").
Proof. split; [reflexivity |]. split; [reflexivity | discriminate]. Qed.

(** *** The rebuild after a failed health check *)

Section Rebuild.
Variable E : Env.

(** [createNewClient] on a server whose process has [killed] set: [start]
    refuses the process. *)
Lemma createNewClient_killed (serverName : string) (w : World)
    (srv : ServerProcess) (cp : ChildProcess) :
  runningServers w !! serverName = Some srv ->
  processes w !! process srv = Some cp ->
  killed cp = true ->
  fst (createNewClient E serverName w) =
  Throw (ToolCallError serverName "connect" (message E (not_active (name srv)))).
Proof.
  intros Hsrv Hcp Hkilled.
  unfold createNewClient, connect, transport_start, getServerProcess. munfold.
  rewrite Hsrv. cbn -[Transport.start]. rewrite lookup_alter_eq, lookup_insert_eq.
  cbn -[Transport.start]. unfold Transport.start. rewrite Hcp, Hkilled. reflexivity.
Qed.

(** Closing a transport signals the process of its server: if the process
    has not exited, [killed] is set afterwards. *)
Lemma close_sets_killed (t : ProcessTransport) (cp : ChildProcess) :
  exited cp = false ->
  exists cp', snd (fst (Transport.close t (Some cp))) = Some cp' /\ killed cp' = true.
Proof.
  intros Hex. unfold Transport.close.
  destruct (exitHandler t) as [h|]; cbn.
  - destruct (killed cp) eqn:Hk; cbn.
    + eexists. split; [reflexivity | exact Hk].
    + unfold Child.kill. cbn. rewrite Hex. eexists. split; reflexivity.
  - destruct (killed cp) eqn:Hk; cbn.
    + eexists. split; [reflexivity | exact Hk].
    + unfold Child.kill. rewrite Hex. eexists. split; reflexivity.
Qed.

(** Evicting a client whose transport is bound to the registered process,
    still running, leaves that process with [killed] set. *)
Lemma removeClientFromCache_kills (serverName : string) (w : World) (c tr : nat)
    (client : Client) (t : ProcessTransport) (srv : ServerProcess)
    (cp : ChildProcess) :
  connectedClients w !! serverName = Some c ->
  clients w !! c = Some client ->
  transport client = Some tr ->
  transports w !! tr = Some t ->
  process (server t) = process srv ->
  processes w !! process srv = Some cp ->
  exited cp = false ->
  exists cp', processes (snd (removeClientFromCache E serverName w)) !! process srv
              = Some cp' /\ killed cp' = true.
Proof.
  intros Hc Hclient Htr Ht Hpid Hcp Hex.
  unfold removeClientFromCache. rewrite Hc, Hclient, Htr.
  unfold try_finally, try_catch, transport_close. munfold.
  cbn -[Transport.close]. rewrite Ht, Hpid, Hcp.
  destruct (close_sets_killed t cp Hex) as (cp' & Hclose & Hkilled).
  destruct (Transport.close t (Some cp)) as [[t' p'] ns]. cbn in Hclose. subst p'.
  cbn. exists cp'. split; [| exact Hkilled].
  destruct (onclose t); [destruct (onclose_throws E (tick w)) |];
    cbn; apply lookup_insert_eq.
Qed.

(** The rebuild after a failed health check fails whenever the cached
    client is bound to the registered process and that process is running. *)
Lemma getClient_unhealthy (serverName : string) (w : World) (c tr : nat)
    (client : Client) (t : ProcessTransport) (srv : ServerProcess)
    (cp : ChildProcess) :
  connectedClients w !! serverName = Some c ->
  clients w !! c = Some client ->
  transport client = Some tr ->
  transports w !! tr = Some t ->
  process (server t) = process srv ->
  runningServers w !! serverName = Some srv ->
  processes w !! process srv = Some cp ->
  killed cp = false ->
  exited cp = false ->
  fst (verifyConnection E c serverName w) = Ok false ->
  fst (getClient E serverName w) =
  Throw (ToolCallError serverName "connect" (message E (not_active (name srv)))).
Proof.
  intros Hc Hclient Htr Ht Hpid Hsrv Hcp Hkilled Hex Hhealth.
  unfold getClient. munfold. cbn. rewrite Hc.
  unfold reuse_cached, getServerProcess. munfold. rewrite Hsrv. cbn.
  rewrite Hcp, Hkilled.
  destruct (verifyConnection_total E c serverName w) as [healthy Hv].
  rewrite Hv in Hhealth |- *. cbn in Hhealth. inversion Hhealth; subst healthy.
  cbn.
  set (w1 := W.set_tick (S (tick w)) w).
  destruct (removeClientFromCache_kills serverName w1 c tr client t srv cp)
    as (cp' & Hcp' & Hkilled'); try assumption.
  destruct (removeClientFromCache_run E serverName w1) as (w2 & Hrun & _ & Hs).
  rewrite Hrun in Hcp' |- *. cbn in Hcp' |- *.
  apply (createNewClient_killed serverName w2 srv cp'); try assumption.
  now rewrite Hs.
Qed.

End Rebuild.

(** C5. The code breaks it. A server is deployed and a client for it is
    cached; the server keeps running. At the next acquisition the list
    request of the health check is rejected, or answered too late. The
    cached entry is evicted and one attempt to connect is made; but evicting
    closes the transport of the client, [close] signals the server process,
    which the transport has not created, and that sets [killed]; [start]
    of the new transport refuses a process with [killed] set. The failed
    health check ends in a hard error: the caller of [getClient] receives a
    [ToolCallError], no fresh session is used, and the server has been sent
    [SIGTERM]. [getClient_unhealthy] has it for every world of that kind. *)
Lemma getClient_unhealthy_throws :
  let E := Sample.env Sample.answers true in
  let deployed := snd (deployServer E (Sample.deploy "/src/a") Sample.empty_world) in
  let connected := snd (getClient E "srv" deployed) in
  let U := Sample.env Sample.rejects true in
  let T := Sample.env Sample.late true in
  fst (getClient E "srv" deployed) = Ok 3%nat /\
  fst (verifyConnection U 3%nat "srv" connected) = Ok false /\
  fst (verifyConnection T 3%nat "srv" connected) = Ok false /\
  fst (getClient U "srv" connected) =
    Throw (ToolCallError "srv" "connect" "Server process for srv is not active") /\
  fst (getClient T "srv" connected) =
    Throw (ToolCallError "srv" "connect" "Server process for srv is not active") /\
  connectedClients (snd (getClient U "srv" connected)) !! "srv" = None /\
  log (snd (getClient U "srv" connected)) =
    log connected ++ [Notified 2 OnClose; Connecting "srv" 6 5] /\
  (killed <$> processes connected !! 0%nat) = Some false /\
  (killed <$> processes (snd (getClient U "srv" connected)) !! 0%nat) = Some true.
Proof. vm_compute. repeat split; reflexivity. Qed.

(** *** The smoke tests *)

Section SmokeTests.
Variable E : Env.

(** [runTestCase] never throws, and its result bears the name of the
    test. *)
Lemma runTestCase_total (serverName : string) (test : TestCase.t) (w : World) :
  exists result w', runTestCase E serverName test w = (Ok result, w') /\
                    TestResult.name result = TestCase.name test.
Proof.
  unfold runTestCase. munfold. cbn.
  destruct (callTool E _ _) as [[response | e] w1]; cbn; [| eauto].
  destruct (error_set (CallToolResponse.error response)); cbn; [eauto |].
  destruct (TestCase.expected test) as [ex|]; cbn; [| eauto].
  unfold matches. destruct (Expected.type ex); munfold; cbn; eauto.
  destruct (RegExp_test E _ _); cbn; eauto.
Qed.

(** The loop never throws and gives one result per test, in order. *)
Lemma run_each_total (serverName : string) (tests : list TestCase.t) (w : World) :
  exists results w', run_each E serverName tests w = (Ok results, w') /\
                     map TestResult.name results = map TestCase.name tests.
Proof.
  revert w. induction tests as [|test more IH]; intros w; cbn.
  - unfold ret. eauto.
  - munfold.
    destruct (runTestCase_total serverName test w) as (r & w1 & -> & Hname).
    destruct (IH w1) as (rs & w2 & -> & Hnames).
    exists (r :: rs), w2. split; [reflexivity |]. cbn. now rewrite Hname, Hnames.
Qed.

Lemma filter_passed_split (results : list TestResult.t) :
  (length (filter (fun r => TestResult.passed r = true) results) +
   length (filter (fun r => TestResult.passed r = false) results))%nat =
  length results.
Proof.
  induction results as [|r rs IH]; [reflexivity |].
  rewrite !filter_cons. destruct (TestResult.passed r) eqn:Hp.
  - rewrite decide_True by reflexivity. rewrite decide_False by discriminate.
    simpl. lia.
  - rewrite decide_False by discriminate. rewrite decide_True by reflexivity.
    simpl. lia.
Qed.

(** The summary counts the results. *)
Definition counts (response : RunTestsResponse.t) : Prop :=
  let results := RunTestsResponse.results response in
  let s := RunTestsResponse.summary response in
  Summary.total s = Summary.passed s + Summary.failed s /\
  Summary.total s = Z.of_nat (length results) /\
  Summary.passed s =
    Z.of_nat (length (filter (fun r => TestResult.passed r = true) results)) /\
  Summary.failed s =
    Z.of_nat (length (filter (fun r => TestResult.passed r = false) results)).

Lemma summarize_counts (results : list TestResult.t) (duration : Z) :
  counts {| RunTestsResponse.results := results;
            RunTestsResponse.summary := summarize results duration |}.
Proof.
  unfold counts, summarize. cbn.
  pose proof (filter_passed_split results) as Hsplit.
  repeat split; lia.
Qed.

Lemma runTests_counts (input : RunTestsInput.t) (w w' : World)
    (response : RunTestsResponse.t) :
  runTests E input w = (Ok response, w') -> counts response.
Proof.
  unfold runTests. munfold. cbn.
  destruct (getServerProcess _ _) as [[srv | e] w1]; cbn.
  - destruct (listTools E _ w1) as [[tools | e] w2]; cbn.
    + destruct (run_each E _ _ w2) as [[results | e] w3]; cbn.
      * intros H. inversion H; subst; clear H. apply summarize_counts.
      * destruct e; cbn; intros H; inversion H; subst; clear H;
          unfold counts; cbn; repeat split; reflexivity.
    + destruct e; cbn; intros H; inversion H; subst; clear H;
        unfold counts; cbn; repeat split; reflexivity.
  - destruct e; cbn; intros H; inversion H; subst; clear H;
      unfold counts; cbn; repeat split; reflexivity.
Qed.

(** [callTool] returns in every world. *)
Lemma callTool_returns (input : CallToolInput.t) (w : World) :
  exists response w', callTool E input w = (Ok response, w').
Proof.
  unfold callTool. munfold. cbn.
  destruct (getClient E _ _) as [[client | e] w1]; cbn; [| eauto].
  destruct (rpc_result (client_callTool E _ _ _)) as [response | msg]; cbn; [| eauto].
  destruct (extract_result E response) as [result | e]; cbn; eauto.
Qed.

(** The smoke tests in the words of the specification: for each tool of
    the listing, one after the other, one call of the tool with an empty
    object for arguments, recorded with its name, whether it passed, a
    message, its duration and its error if it has one. A call passes if
    its response has no error. *)
Fixpoint smoke_calls (serverName : string) (tools : list string)
  : M (list TestResult.t) :=
  match tools with
  | [] => ret []
  | tool :: more =>
      startTime ← now E;
      response ← callTool E {| CallToolInput.server_name := serverName;
                               CallToolInput.tool_name := tool;
                               CallToolInput.arguments := JObj [] |};
      finished ← now E;
      let recorded :=
        match error_set (CallToolResponse.error response) with
        | Some e =>
            {| TestResult.name := "List " +:+ tool +:+ " schema";
               TestResult.passed := false;
               TestResult.message := "Tool call failed: " +:+ e;
               TestResult.duration_ms := finished - startTime;
               TestResult.error := Some e |}
        | None =>
            {| TestResult.name := "List " +:+ tool +:+ " schema";
               TestResult.passed := true;
               TestResult.message := "Test passed";
               TestResult.duration_ms := finished - startTime;
               TestResult.error := None |}
        end in
      results ← smoke_calls serverName more;
      ret (recorded :: results)
  end.

(** The loop of [runTests] over the tests it makes is that. *)
Lemma run_each_smoke_calls (serverName : string) (tools : list string) (w : World) :
  run_each E serverName (map basic_test tools) w = smoke_calls serverName tools w.
Proof.
  revert w. induction tools as [|tool more IH]; intros w; [reflexivity |].
  cbn [map run_each smoke_calls]. unfold runTestCase. munfold. cbn.
  destruct (callTool_returns
              {| CallToolInput.server_name := serverName;
                 CallToolInput.tool_name := tool;
                 CallToolInput.arguments := JObj [] |}
              (W.set_tick (S (tick w)) w)) as (response & w1 & ->).
  cbn. destruct (error_set (CallToolResponse.error response)); cbn; now rewrite IH.
Qed.

(** When the server is registered and the listing succeeds, the run
    returns the results of those calls and their summary. *)
Lemma runTests_setup_ok (input : RunTestsInput.t) (w w1 : World)
    (srv : ServerProcess) (names : list string) :
  let server_name := RunTestsInput.server_name input in
  runningServers w !! server_name = Some srv ->
  listTools E server_name (W.set_tick (S (tick w)) w) = (Ok names, w1) ->
  exists results w2,
    smoke_calls server_name names w1 = (Ok results, w2) /\
    runTests E input w =
      (Ok {| RunTestsResponse.results := results;
             RunTestsResponse.summary :=
               summarize results (Date_now E (tick w2) - Date_now E (tick w)) |},
       W.set_tick (S (tick w2)) w2) /\
    map TestResult.name results =
      map (fun tool => "List " +:+ tool +:+ " schema") names.
Proof.
  intros server_name Hsrv Hlist.
  unfold runTests, getServerProcess. munfold. cbn. fold server_name.
  rewrite Hsrv. cbn. rewrite Hlist. cbn.
  destruct (run_each_total server_name (map basic_test names) w1)
    as (results & w2 & Hrun & Hnames).
  rewrite Hrun. cbn. rewrite run_each_smoke_calls in Hrun.
  exists results, w2. split; [exact Hrun |]. split; [reflexivity |].
  rewrite map_map in Hnames. exact Hnames.
Qed.

End SmokeTests.

(** A listing has no more distinct names than entries. *)
Lemma size_list_to_set_le (names : list string) :
  (size (list_to_set names : gset string) <= length names)%nat.
Proof.
  induction names as [|n names IH]; [reflexivity |].
  cbn [list_to_set length]. rewrite size_union_alt, size_singleton.
  assert (Hle : (size (list_to_set names ∖ {[n]} : gset string)
                 <= size (list_to_set names : gset string))%nat).
  { apply subseteq_size. apply subseteq_difference_l. reflexivity. }
  lia.
Qed.

(** The number of distinct tools of a listing. *)
Definition distinct (names : list string) : Z :=
  Z.of_nat (size (list_to_set names : gset string)).

(** C6, as the code has it. Every run of the smoke tests that returns a
    response has a summary with total = passed + failed, where total
    counts the results, passed those that passed and failed the others.
    When the server is registered and the listing of its tools at the time
    of the run succeeds, the run returns the results of one call per entry
    of the listing, made one after the other in the order of the listing,
    each with an empty object for arguments and through [callTool]; total
    is the number of entries of the listing, a tool that is listed twice
    counted twice. It is never less than the number of distinct tools, and
    equal to it when no name is listed twice. *)
Theorem runTests_summary (E : Env) (input : RunTestsInput.t) (w : World) :
  let server_name := RunTestsInput.server_name input in
  (forall response w',
     runTests E input w = (Ok response, w') ->
     let results := RunTestsResponse.results response in
     let s := RunTestsResponse.summary response in
     Summary.total s = Summary.passed s + Summary.failed s /\
     Summary.total s = Z.of_nat (length results) /\
     Summary.passed s =
       Z.of_nat (length (filter (fun r => TestResult.passed r = true) results)) /\
     Summary.failed s =
       Z.of_nat (length (filter (fun r => TestResult.passed r = false) results))) /\
  (forall srv names w1,
     runningServers w !! server_name = Some srv ->
     listTools E server_name (W.set_tick (S (tick w)) w) = (Ok names, w1) ->
     exists response w2,
       smoke_calls E server_name names w1 =
         (Ok (RunTestsResponse.results response), w2) /\
       runTests E input w = (Ok response, W.set_tick (S (tick w2)) w2) /\
       map TestResult.name (RunTestsResponse.results response) =
         map (fun tool => TestCase.name (basic_test tool)) names /\
       Summary.total (RunTestsResponse.summary response) = Z.of_nat (length names) /\
       distinct names <= Summary.total (RunTestsResponse.summary response) /\
       (NoDup names ->
        Summary.total (RunTestsResponse.summary response) = distinct names)).
Proof.
  intros server_name. split.
  - intros response w' Hrun. exact (runTests_counts E input w w' response Hrun).
  - intros srv names w1 Hsrv Hlist.
    destruct (runTests_setup_ok E input w w1 srv names Hsrv Hlist)
      as (results & w2 & Hcalls & Hrun & Hnames).
    exists {| RunTestsResponse.results := results;
              RunTestsResponse.summary :=
                summarize results (Date_now E (tick w2) - Date_now E (tick w)) |}, w2.
    split; [exact Hcalls |]. split; [exact Hrun |].
    split; [exact Hnames |]. cbn.
    assert (Hlen : length results = length names).
    { rewrite <- (length_map TestResult.name), Hnames. apply length_map. }
    rewrite Hlen. split; [reflexivity |]. unfold distinct. split.
    + apply inj_le, size_list_to_set_le.
    + intros Hnodup. f_equal. symmetry. now apply size_list_to_set.
Qed.

Lemma runTests_summary_witness :
  let E := Sample.env Sample.answers true in
  let deployed := snd (deployServer E (Sample.deploy "/src/a") Sample.empty_world) in
  let input := {| RunTestsInput.server_name := "srv";
                  RunTestsInput.test_suite := None |} in
  exists response w',
    runTests E input deployed = (Ok response, w') /\
    map TestResult.name (RunTestsResponse.results response) = ["List echo schema"] /\
    Summary.total (RunTestsResponse.summary response) = 1.
Proof.
  intros E deployed input.
  destruct (proj2 (runTests_summary E input deployed)
              {| process := 0%nat; name := "srv"; source_path := "/src/a";
                 deployed_at := 1000 |}
              ["echo"]
              (snd (listTools E "srv" (W.set_tick (S (tick deployed)) deployed)))
              eq_refl ltac:(vm_compute; reflexivity))
    as (response & w2 & _ & Hrun & Hnames & Htotal & _).
  exists response. eexists. split; [exact Hrun |].
  split; [exact Hnames | exact Htotal].
Defined.

(** C6 as stated fails. The server lists the tool echo twice. The run
    calls it twice and its summary has a total of two, while the listing
    has one distinct tool. *)
Lemma runTests_counts_repeated_tool :
  let E := Sample.env Sample.answers_twice true in
  let deployed := snd (deployServer E (Sample.deploy "/src/a") Sample.empty_world) in
  let input := {| RunTestsInput.server_name := "srv";
                  RunTestsInput.test_suite := None |} in
  fst (listTools E "srv" (W.set_tick (S (tick deployed)) deployed)) =
    Ok ["echo"; "echo"] /\
  (Summary.total ∘ RunTestsResponse.summary <$> fst_ok (fst (runTests E input deployed)))
    = Some 2 /\
  (map TestResult.name ∘ RunTestsResponse.results
     <$> fst_ok (fst (runTests E input deployed)))
    = Some ["List echo schema"; "List echo schema"] /\
  distinct ["echo"; "echo"] = 1.
Proof. vm_compute. repeat split; reflexivity. Qed.

(** C7. When an acquisition has returned a client, the next acquisition
    for the same name, with the health check passing, returns the same
    client object, the cached one, and changes nothing in the world but the
    count of requests to the outside: no transport and no client is made
    and nothing is connected. *)
Theorem getClient_twice_same_client (E : Env) (serverName : string)
    (w w1 : World) (c : nat) :
  getClient E serverName w = (Ok c, w1) ->
  health_check_passes E (tick w1) ->
  getClient E serverName w1 = (Ok c, W.set_tick (S (tick w1)) w1) /\
  connectedClients w1 !! serverName = Some c.
Proof.
  intros Hfirst Hhealth.
  destruct (getClient_ok E serverName w w1 c Hfirst)
    as (Hcached & srv & cp & Hsrv & Hcp & Hkilled).
  split; [| exact Hcached].
  unfold getClient. munfold. cbn. rewrite Hcached.
  now rewrite (reuse_cached_healthy E serverName c w1 srv cp).
Qed.

Lemma getClient_twice_same_client_witness :
  let E := Sample.env Sample.answers true in
  let deployed := snd (deployServer E (Sample.deploy "/src/a") Sample.empty_world) in
  let connected := snd (getClient E "srv" deployed) in
  getClient E "srv" deployed = (Ok 3%nat, connected) /\
  health_check_passes E (tick connected) /\
  getClient E "srv" connected = (Ok 3%nat, W.set_tick (S (tick connected)) connected) /\
  connectedClients connected !! "srv" = Some 3%nat.
Proof.
  intros E deployed connected.
  assert (Hfirst : getClient E "srv" deployed = (Ok 3%nat, connected))
    by (vm_compute; reflexivity).
  assert (Hhealth : health_check_passes E (tick connected)).
  { split; [vm_compute; reflexivity | eexists; vm_compute; reflexivity]. }
  split; [exact Hfirst |]. split; [exact Hhealth |].
  exact (getClient_twice_same_client E "srv" deployed connected 3%nat Hfirst Hhealth).
Defined.

(** *** Stopping a server and reading its logs: the claims *)

(** C8. For every server name that has no entry in the running servers,
    [stopServer] returns the name with the status stopped, and does not
    throw. *)
Theorem stopServer_never_deployed (E : Env) (server_name : string) (w : World) :
  runningServers w !! server_name = None ->
  fst (stopServer E server_name w) =
  Ok {| ServerOperationResponse.name := server_name;
        ServerOperationResponse.status := "stopped" |}.
Proof.
  intros Habsent.
  destruct (stopServer_outcome E server_name w) as [(Hok & _) | (e & _ & Hsome)].
  - exact Hok.
  - rewrite Habsent in Hsome. destruct Hsome as [srv Hsrv]. discriminate.
Qed.

Lemma stopServer_never_deployed_witness :
  runningServers Sample.empty_world !! "srv" = None /\
  fst (stopServer (Sample.env Sample.answers true) "srv" Sample.empty_world) =
  Ok {| ServerOperationResponse.name := "srv";
        ServerOperationResponse.status := "stopped" |}.
Proof.
  split; [reflexivity |].
  apply (stopServer_never_deployed (Sample.env Sample.answers true) "srv"
           Sample.empty_world).
  reflexivity.
Defined.

(** C9. When [stopServer] returns, the name is in neither map, on the path
    of a server that is not running too, and process exits delivered
    afterwards keep it so. [removeClientFromCache] itself never throws and
    removes the entry whatever closing the transport of the client does,
    also when [close] rejects. *)
Theorem stopServer_clears_both_maps (E : Env) (server_name : string)
    (w w' : World) (response : ServerOperationResponse.t) :
  stopServer E server_name w = (Ok response, w') ->
  (runningServers w' !! server_name = None /\
   connectedClients w' !! server_name = None) /\
  (forall pid,
     runningServers (process_exit pid w') !! server_name = None /\
     connectedClients (process_exit pid w') !! server_name = None) /\
  (forall w0,
     fst (removeClientFromCache E server_name w0) = Ok tt /\
     connectedClients (snd (removeClientFromCache E server_name w0)) !! server_name
       = None).
Proof.
  intros Hstop.
  assert (Hboth : runningServers w' !! server_name = None /\
                  connectedClients w' !! server_name = None).
  { destruct (stopServer_outcome E server_name w) as [(_ & Hs & Hc) | (e & He & _)];
      rewrite Hstop in *; simpl in *; [done | discriminate]. }
  split; [exact Hboth |]. split.
  - intros pid. destruct Hboth. now apply process_exit_absent.
  - intros w0. destruct (removeClientFromCache_spec E server_name w0) as (Hr & Hc & _).
    split; [exact Hr |]. rewrite Hc. apply lookup_delete_eq.
Qed.

Lemma stopServer_clears_both_maps_witness :
  let E := Sample.env Sample.answers true in
  let deployed := snd (deployServer E (Sample.deploy "/src/a") Sample.empty_world) in
  let connected := snd (getClient E "srv" deployed) in
  stopServer E "srv" connected =
    (Ok (stopped "srv"), snd (stopServer E "srv" connected)) /\
  runningServers (snd (stopServer E "srv" connected)) !! "srv" = None /\
  connectedClients (snd (stopServer E "srv" connected)) !! "srv" = None.
Proof.
  intros E deployed connected.
  assert (Hrun : stopServer E "srv" connected =
                 (Ok (stopped "srv"), snd (stopServer E "srv" connected)))
    by (vm_compute; reflexivity).
  split; [exact Hrun |].
  exact (proj1 (stopServer_clears_both_maps E "srv" connected
                  (snd (stopServer E "srv" connected)) (stopped "srv") Hrun)).
Defined.

(** C10. For every server that is registered in the running servers and
    whose log file does not exist, [getServerLogs] returns the text that no
    logs were found for the server, with no error, and leaves the world as
    it was. *)
Theorem getServerLogs_no_log_file (E : Env) (input : GetLogsInput.t)
    (w : World) (srv : ServerProcess) :
  let server_name := GetLogsInput.server_name input in
  runningServers w !! server_name = Some srv ->
  files w !! path_join E (path_join E (cwd E) "logs") (server_name +:+ ".log") = None ->
  getServerLogs E input w =
  (Ok {| GetLogsResponse.logs := "No logs found for server '" +:+ server_name +:+ "'";
         GetLogsResponse.error := None |}, w).
Proof.
  intros server_name Hrun Hfile.
  unfold getServerLogs, getServerProcess. munfold. fold server_name.
  rewrite Hrun. simpl. rewrite Hfile. reflexivity.
Qed.

Lemma getServerLogs_no_log_file_witness :
  let E := Sample.env Sample.answers true in
  let deployed := snd (deployServer E (Sample.deploy "/src/a") Sample.empty_world) in
  let unlogged := W.set_files (delete "/harness/logs/srv.log") deployed in
  let input := {| GetLogsInput.server_name := "srv"; GetLogsInput.lines := 10 |} in
  getServerLogs E input unlogged =
  (Ok {| GetLogsResponse.logs := "No logs found for server 'srv'";
         GetLogsResponse.error := None |}, unlogged).
Proof.
  intros E deployed unlogged input.
  apply (getServerLogs_no_log_file E input unlogged
           {| process := 0%nat; name := "srv"; source_path := "/src/a";
              deployed_at := 1000 |}); reflexivity.
Defined.

Section OneRebuild.
Variable E : Env.

Lemma connects_app (a b : list Event) :
  connects (a ++ b) = (connects a + connects b)%nat.
Proof.
  induction a as [|ev a IH]; [reflexivity |].
  destruct ev; simpl; rewrite IH; reflexivity.
Qed.

Lemma connects_notified (tr : nat) (ns : list Notification) :
  connects (map (Notified tr) ns) = 0%nat.
Proof. induction ns as [|n ns IH]; [reflexivity | exact IH]. Qed.

Lemma transport_close_connects (tr : nat) (w : World) :
  connects (log (snd (transport_close E tr w))) = connects (log w).
Proof.
  unfold transport_close. munfold. cbn -[Transport.close].
  destruct (transports w !! tr) as [t|]; cbn -[Transport.close]; [| reflexivity].
  destruct (Transport.close t _) as [[t' p'] ns]. cbn.
  assert (Hlog : connects (log w ++ map (Notified tr) ns) = connects (log w)).
  { rewrite connects_app, connects_notified. lia. }
  destruct p'; destruct (onclose t); try destruct (onclose_throws E (tick w));
    cbn; exact Hlog.
Qed.

(** An eviction connects nothing. *)
Lemma removeClientFromCache_connects (serverName : string) (w : World) :
  connects (log (snd (removeClientFromCache E serverName w))) = connects (log w).
Proof.
  unfold removeClientFromCache.
  destruct (connectedClients w !! serverName) as [c|]; [| reflexivity].
  unfold try_finally, try_catch. cbn.
  destruct (clients w !! c) as [[[tr|]]|]; cbn; try reflexivity.
  pose proof (transport_close_connects tr w) as H.
  destruct (transport_close E tr w) as [[[]|e] w1]; exact H.
Qed.

(** [createNewClient] for a registered server makes one attempt to
    connect. *)
Lemma createNewClient_connects (serverName : string) (w : World) (srv : ServerProcess) :
  runningServers w !! serverName = Some srv ->
  connects (log (snd (createNewClient E serverName w))) = S (connects (log w)).
Proof.
  intros Hsrv.
  unfold createNewClient, connect, transport_start, getServerProcess. munfold.
  rewrite Hsrv. cbn -[Transport.start]. rewrite lookup_alter_eq, lookup_insert_eq.
  cbn -[Transport.start].
  assert (Hlog : connects (log w ++ [Connecting serverName (S (next_ref w)) (next_ref w)])
                 = S (connects (log w))).
  { rewrite connects_app. simpl. lia. }
  destruct (Transport.start _ _ _ _) as [[t' p'] [[]|e]]; cbn.
  - destruct p'; cbn;
      destruct (rpc_result (client_connect E (tick w))); cbn; exact Hlog.
  - destruct p'; cbn; exact Hlog.
Qed.

(** Every error that leaves [createNewClient] is a [ToolCallError] for
    connect. *)
Lemma createNewClient_throws (serverName : string) (w w' : World) (e : Error) :
  createNewClient E serverName w = (Throw e, w') ->
  exists cause, e = ToolCallError serverName "connect" cause.
Proof.
  unfold createNewClient, try_catch.
  match goal with |- context [match ?body w with _ => _ end] =>
    destruct (body w) as [[c | cause] w0] end.
  - discriminate.
  - unfold throw. intros H. inversion H. eauto.
Qed.

End OneRebuild.

(** What does hold of the rebuild. For every acquisition that finds a
    cached client of a registered server whose process has not been
    signalled with [kill], a health check that times out or whose list
    request is rejected is not thrown: [verifyConnection] answers false,
    the cached entry is evicted, and exactly one attempt to build a fresh
    session follows, not none and no loop. The outcome of that attempt is
    the outcome of the acquisition: the fresh client, which is then the
    cached one, or the [ToolCallError] for connect that [createNewClient]
    throws. *)
Lemma getClient_rebuilds_once (E : Env) (serverName : string) (w : World)
    (c : nat) (srv : ServerProcess) (cp : ChildProcess) :
  connectedClients w !! serverName = Some c ->
  runningServers w !! serverName = Some srv ->
  processes w !! process srv = Some cp ->
  killed cp = false ->
  health_check_fails E (tick w) ->
  let evicted := snd (removeClientFromCache E serverName (W.set_tick (S (tick w)) w)) in
  verifyConnection E c serverName w = (Ok false, W.set_tick (S (tick w)) w) /\
  connectedClients evicted !! serverName = None /\
  getClient E serverName w = createNewClient E serverName evicted /\
  connects (log (snd (getClient E serverName w))) = S (connects (log w)) /\
  (forall c' w', getClient E serverName w = (Ok c', w') ->
     connectedClients w' !! serverName = Some c') /\
  (forall e w', getClient E serverName w = (Throw e, w') ->
     exists cause, e = ToolCallError serverName "connect" cause).
Proof.
  intros Hc Hsrv Hcp Hkilled Hfail evicted.
  pose proof (verifyConnection_fails E c serverName w Hfail) as Hverify.
  destruct (removeClientFromCache_run E serverName (W.set_tick (S (tick w)) w))
    as (w1 & Hrm & Hcache & Hservers).
  assert (Hevicted : evicted = w1) by (unfold evicted; now rewrite Hrm).
  assert (Hget : getClient E serverName w = createNewClient E serverName evicted).
  { unfold getClient. munfold. cbn. rewrite Hc.
    unfold reuse_cached, getServerProcess. munfold. rewrite Hsrv. cbn.
    rewrite Hcp, Hkilled, Hverify. cbn. rewrite Hrm. cbn. now rewrite Hevicted. }
  split; [exact Hverify |].
  split; [rewrite Hevicted, Hcache; apply lookup_delete_eq |].
  split; [exact Hget |].
  split.
  { rewrite Hget.
    rewrite (createNewClient_connects E serverName evicted srv)
      by (rewrite Hevicted, Hservers; exact Hsrv).
    f_equal. unfold evicted.
    now rewrite removeClientFromCache_connects. }
  split.
  - intros c' w' Hok. rewrite Hget in Hok.
    exact (proj1 (createNewClient_ok E serverName evicted w' c' Hok)).
  - intros e w' Hthrow. rewrite Hget in Hthrow.
    exact (createNewClient_throws E serverName evicted w' e Hthrow).
Qed.

(** ** Reading the last lines of a log ([logs.ts]) *)

Section LastLines.

(** The last [k] elements of a list. *)
Definition last_n {A : Type} (k : nat) (l : list A) : list A :=
  drop (length l - k) l.

(** The lines of a text: those that end in a line feed, and after them what
    follows the last line feed, unless that is empty. *)
Definition lines_of (content : string) : list string :=
  Transport.complete_frames content ++
  (if Js.truthy (Transport.trailing_fragment content)
   then [Transport.trailing_fragment content] else []).

Lemma last_n_length {A : Type} (k : nat) (l : list A) :
  (length (last_n k l) <= k)%nat.
Proof. unfold last_n. rewrite length_drop. lia. Qed.

Lemma last_n_short {A : Type} (k : nat) (l : list A) :
  (length l <= k)%nat -> last_n k l = l.
Proof.
  intros H. unfold last_n. now replace (length l - k)%nat with 0%nat by lia.
Qed.

Lemma last_n_app {A : Type} (k : nat) (a b : list A) :
  last_n k (last_n k a ++ b) = last_n k (a ++ b).
Proof.
  destruct (Nat.le_gt_cases (length a) k) as [Hle | Hgt].
  - now rewrite (last_n_short k a).
  - unfold last_n. rewrite !length_app, length_drop.
    replace (length a - (length a - k) + length b - k)%nat with (length b) by lia.
    replace (length a + length b - k)%nat
      with ((length a - k) + length b)%nat by lia.
    rewrite <- (drop_drop (a ++ b)).
    now rewrite (drop_app_le a b) by lia.
Qed.

Lemma last_n_zero {A : Type} (l : list A) : last_n 0 l = [].
Proof. unfold last_n. rewrite Nat.sub_0_r. apply drop_all. Qed.

(** [split] gives the terminated lines and, last, what follows them. *)
Lemma split_LF_frames (s : string) :
  split_LF s = Transport.complete_frames s ++ [Transport.trailing_fragment s].
Proof.
  unfold Transport.complete_frames, Transport.trailing_fragment.
  induction s as [|c s IH]; [reflexivity |].
  simpl. destruct (decide (c = Js.LF_char)) as [_ | _].
  - simpl. now rewrite IH.
  - rewrite IH. now destruct (fst (Transport.split_frames s)).
Qed.

Lemma splice_keeps_last (lineCount : Z) (lines : list string) :
  (if lineCount <? Z.of_nat (length lines)
   then splice_front (Z.of_nat (length lines) - lineCount) lines else lines) =
  last_n (Z.to_nat lineCount) lines.
Proof.
  destruct (Z.ltb_spec lineCount (Z.of_nat (length lines))) as [Hlt | Hge].
  - unfold splice_front, last_n.
    destruct (Z.le_gt_cases 0 lineCount) as [Hpos | Hneg].
    + f_equal. lia.
    + rewrite !drop_ge by lia. reflexivity.
  - symmetry. apply last_n_short. lia.
Qed.

Lemma read_chunk_frames (lineCount : Z) (buffer chunk : string) (lines : list string) :
  read_chunk lineCount (buffer, lines) chunk =
  (Transport.trailing_fragment (buffer +:+ chunk),
   last_n (Z.to_nat lineCount) (lines ++ Transport.complete_frames (buffer +:+ chunk))).
Proof.
  unfold read_chunk. cbn [fst snd]. rewrite split_LF_frames.
  rewrite last_last, removelast_last. now rewrite splice_keeps_last.
Qed.

Lemma read_chunks_frames (lineCount : Z) (chunks : list string) (buffer : string)
    (lines : list string) :
  has_LF buffer = false -> (length lines <= Z.to_nat lineCount)%nat ->
  fold_left (read_chunk lineCount) chunks (buffer, lines) =
  (Transport.trailing_fragment (buffer +:+ Transport.reassemble chunks),
   last_n (Z.to_nat lineCount)
     (lines ++ Transport.complete_frames (buffer +:+ Transport.reassemble chunks))).
Proof.
  revert buffer lines. induction chunks as [|chunk more IH]; intros buffer lines Hb Hl.
  - simpl. rewrite append_nil_r.
    unfold Transport.trailing_fragment, Transport.complete_frames.
    rewrite (split_frames_no_LF buffer Hb). simpl. rewrite app_nil_r.
    now rewrite last_n_short.
  - simpl fold_left. rewrite read_chunk_frames.
    rewrite IH; [| apply trailing_fragment_no_LF | apply last_n_length].
    change (Transport.reassemble (chunk :: more))
      with (chunk +:+ Transport.reassemble more).
    rewrite <- (append_assoc buffer chunk).
    rewrite (trailing_fragment_app (buffer +:+ chunk)).
    rewrite (complete_frames_app (buffer +:+ chunk)).
    now rewrite last_n_app, app_assoc.
Qed.

Lemma substring_split (n : nat) (s : string) :
  String.substring 0 n s +:+ String.substring n (String.length s - n) s = s.
Proof.
  revert n. induction s as [|c s IH]; intros n.
  - now destruct n.
  - destruct n as [|n].
    + simpl. now rewrite substring_all.
    + simpl. rewrite append_cons. now rewrite IH.
Qed.

Lemma substring_length_le (n m : nat) (s : string) :
  (String.length (String.substring n m s) <= m)%nat.
Proof.
  revert n m. induction s as [|c s IH]; intros n m.
  - destruct n, m; simpl; lia.
  - destruct n as [|n].
    + destruct m as [|m]; simpl; [lia |]. specialize (IH 0%nat m). lia.
    + simpl. apply IH.
Qed.

(** The chunks of a file are the file. *)
Lemma chunks_of_reassemble (fuel : nat) (content : string) :
  (String.length content <= fuel)%nat ->
  Transport.reassemble (chunks_of fuel content) = content.
Proof.
  revert content. induction fuel as [|fuel IH]; intros content Hlen.
  - destruct content; [reflexivity | simpl in Hlen; lia].
  - cbn [chunks_of]. destruct content as [|c content]; [reflexivity |].
    cbn [Js.truthy].
    change (Transport.reassemble (?x :: ?l)) with (x +:+ Transport.reassemble l).
    rewrite IH.
    + apply substring_split.
    + pose proof (substring_length_le 1024
                    (String.length (String c content) - 1024) (String c content)).
      simpl String.length in *. lia.
Qed.

Lemma lastLines_lines (content : string) (lineCount : Z) :
  lastLines content lineCount =
  let lines := last_n (Z.to_nat lineCount) (Transport.complete_frames content) in
  let buffer := Transport.trailing_fragment content in
  join_LF (array_slice_from (- lineCount)
             (if Js.truthy buffer then lines ++ [buffer] else lines)).
Proof.
  unfold lastLines.
  rewrite read_chunks_frames by (simpl; (reflexivity || lia)).
  rewrite append_nil_l, chunks_of_reassemble by lia.
  reflexivity.
Qed.

Lemma array_slice_last {A : Type} (n : Z) (l : list A) :
  0 < n -> array_slice_from (- n) l = last_n (Z.to_nat n) l.
Proof.
  intros Hn. unfold array_slice_from, Js.clamp_index, last_n.
  destruct (Z.ltb_spec (- n) 0) as [_ | H]; [| lia].
  f_equal. lia.
Qed.

End LastLines.

(** X1. For a registered server whose log file exists, and a positive
    number of lines, [getServerLogs] answers with the last so many lines of
    the file, joined by line feeds; where the chunks of 1024 code units, in
    which the file is read, cut the lines does not show. The lines are the
    texts that end in a line feed and, if the file does not end in one, the
    text after the last line feed. The answer has no error and nothing is
    changed. *)
Theorem getServerLogs_last_lines (E : Env) (input : GetLogsInput.t) (w : World)
    (srv : ServerProcess) (content : string) :
  let server_name := GetLogsInput.server_name input in
  runningServers w !! server_name = Some srv ->
  files w !! path_join E (path_join E (cwd E) "logs") (server_name +:+ ".log")
    = Some (File content) ->
  0 < GetLogsInput.lines input ->
  getServerLogs E input w =
  (Ok {| GetLogsResponse.logs :=
           join_LF (last_n (Z.to_nat (GetLogsInput.lines input)) (lines_of content));
         GetLogsResponse.error := None |}, w).
Proof.
  intros server_name Hrun Hfile Hpos.
  unfold getServerLogs, getServerProcess, readLastLines, readFileSync. munfold.
  fold server_name. rewrite Hrun. cbn. rewrite Hfile. cbn. rewrite Hfile.
  rewrite lastLines_lines. cbv zeta. rewrite array_slice_last by assumption.
  unfold lines_of.
  destruct (Js.truthy (Transport.trailing_fragment content)).
  - now rewrite last_n_app.
  - rewrite app_nil_r. rewrite last_n_short by apply last_n_length. reflexivity.
Qed.

Lemma getServerLogs_last_lines_witness :
  let E := Sample.env Sample.answers true in
  let deployed := snd (deployServer E (Sample.deploy "/src/a") Sample.empty_world) in
  let content := "one" +:+ Js.LF +:+ "two" +:+ Js.LF +:+ "three" +:+ Js.LF +:+ "four" in
  let logged := W.set_files <["/harness/logs/srv.log" := File content]> deployed in
  let input := {| GetLogsInput.server_name := "srv"; GetLogsInput.lines := 2 |} in
  getServerLogs E input logged =
  (Ok {| GetLogsResponse.logs := "three" +:+ Js.LF +:+ "four";
         GetLogsResponse.error := None |}, logged).
Proof.
  intros E deployed content logged input.
  apply (getServerLogs_last_lines E input logged
           {| process := 0%nat; name := "srv"; source_path := "/src/a";
              deployed_at := 1000 |} content); reflexivity.
Defined.

(** X2. With a line count of zero [readLastLines] does not answer with
    nothing: it answers with the text after the last line feed of the file
    (the empty text if the file ends in a line feed), because [slice(-0)] is
    the whole array. With a negative count it answers with the empty
    text. *)
Theorem readLastLines_without_count (filePath content : string)
    (lineCount : Z) (w : World) :
  files w !! filePath = Some (File content) ->
  lineCount <= 0 ->
  readLastLines filePath lineCount w =
  (Ok (if lineCount =? 0 then Transport.trailing_fragment content else EmptyString), w).
Proof.
  intros Hfile Hn.
  unfold readLastLines, readFileSync. munfold. cbn. rewrite Hfile.
  rewrite lastLines_lines. cbv zeta.
  replace (Z.to_nat lineCount) with 0%nat by lia. rewrite last_n_zero.
  destruct (Z.eqb_spec lineCount 0) as [-> | Hne].
  - unfold array_slice_from, Js.clamp_index. cbn.
    now destruct (Transport.trailing_fragment content).
  - unfold array_slice_from, Js.clamp_index.
    destruct (Z.ltb_spec (- lineCount) 0) as [H | _]; [lia |].
    destruct (Js.truthy (Transport.trailing_fragment content)); cbn [length app].
    + rewrite Z.min_r by lia. reflexivity.
    + rewrite Z.min_r by lia. reflexivity.
Qed.

Lemma readLastLines_without_count_witness :
  let content := "one" +:+ Js.LF +:+ "two" +:+ Js.LF +:+ "thr" in
  let w := W.set_files <["/harness/logs/srv.log" := File content]> Sample.empty_world in
  readLastLines "/harness/logs/srv.log" 0 w = (Ok "thr", w).
Proof.
  intros content w.
  apply (readLastLines_without_count "/harness/logs/srv.log" content 0 w);
    [reflexivity | lia].
Defined.

(** X3. [getServerLogs] for a name that is not registered throws the
    [ServerNotFoundError] of the lookup itself, not a response with an
    error, and changes nothing. *)
Theorem getServerLogs_unregistered (E : Env) (input : GetLogsInput.t) (w : World) :
  runningServers w !! GetLogsInput.server_name input = None ->
  getServerLogs E input w =
  (Throw (ServerNotFoundError (GetLogsInput.server_name input)), w).
Proof.
  intros Hrun. unfold getServerLogs, getServerProcess. munfold.
  now rewrite Hrun.
Qed.

Lemma getServerLogs_unregistered_witness :
  getServerLogs (Sample.env Sample.answers true)
    {| GetLogsInput.server_name := "srv"; GetLogsInput.lines := 10 |}
    Sample.empty_world =
  (Throw (ServerNotFoundError "srv"), Sample.empty_world).
Proof.
  apply (getServerLogs_unregistered (Sample.env Sample.answers true)
           {| GetLogsInput.server_name := "srv"; GetLogsInput.lines := 10 |}
           Sample.empty_world).
  reflexivity.
Defined.

(** X4. For a registered server [getServerLogs] never throws and changes
    nothing: a failure to read the log (its path is a directory, say)
    comes back as a response with the error's message and empty logs. *)
Theorem getServerLogs_registered_returns (E : Env) (input : GetLogsInput.t)
    (w : World) (srv : ServerProcess) :
  runningServers w !! GetLogsInput.server_name input = Some srv ->
  exists response,
    getServerLogs E input w = (Ok response, w) /\
    (GetLogsResponse.error response <> None ->
     GetLogsResponse.logs response = EmptyString) /\
    (files w !! path_join E (path_join E (cwd E) "logs")
                  (GetLogsInput.server_name input +:+ ".log") = Some Directory ->
     GetLogsResponse.error response <> None).
Proof.
  intros Hrun. unfold getServerLogs, getServerProcess, readLastLines, readFileSync.
  munfold. rewrite Hrun. cbn.
  destruct (files w !! _) as [[|content]|] eqn:Hfile; cbn; rewrite ?Hfile;
    eexists; (split; [reflexivity |]); cbn; split; congruence.
Qed.

Lemma getServerLogs_registered_returns_witness :
  let E := Sample.env Sample.answers true in
  let deployed := snd (deployServer E (Sample.deploy "/src/a") Sample.empty_world) in
  let w := W.set_files <["/harness/logs/srv.log" := Directory]> deployed in
  let input := {| GetLogsInput.server_name := "srv"; GetLogsInput.lines := 10 |} in
  exists response,
    getServerLogs E input w = (Ok response, w) /\
    GetLogsResponse.logs response = EmptyString.
Proof.
  intros E deployed w input.
  destruct (getServerLogs_registered_returns E input w
              {| process := 0%nat; name := "srv"; source_path := "/src/a";
                 deployed_at := 1000 |} eq_refl)
    as (response & Hrun & Hlogs & Hdir).
  exists response. split; [exact Hrun |]. apply Hlogs, Hdir. reflexivity.
Defined.

(** ** Sending, and the two directions of the framing ([transport.ts]) *)

Section Sending.
Variable E : Env.

(** The line that [send] writes for a message. *)
Definition line_of (message : Json) : string := JSON_stringify E message +:+ Js.LF.

(** A message that [JSON.stringify] writes on one line and [JSON.parse]
    reads back, as the two do for the values of JSON. *)
Definition reads_back (message : Json) : Prop :=
  JSON_parse E (JSON_stringify E message) = inl message /\
  has_LF (JSON_stringify E message) = false /\
  Js.truthy (Js.trim (JSON_stringify E message)) = true.

Lemma split_frames_framed (lines : list string) (fragment : string) :
  Forall (fun line => has_LF line = false) lines ->
  has_LF fragment = false ->
  Transport.split_frames (Transport.framed lines fragment) = (lines, fragment).
Proof.
  intros Hlines Hfrag. induction Hlines as [|line lines Hline _ IH].
  - now apply split_frames_no_LF.
  - cbn [Transport.framed fold_right].
    rewrite split_frames_first by assumption.
    change (fold_right (fun line acc => line +:+ Js.LF +:+ acc) fragment lines)
      with (Transport.framed lines fragment).
    unfold Transport.complete_frames, Transport.trailing_fragment.
    now rewrite IH.
Qed.

Lemma reassemble_lines (messages : list Json) :
  Transport.reassemble (map line_of messages) =
  Transport.framed (map (JSON_stringify E) messages) EmptyString.
Proof.
  induction messages as [|m more IH]; [reflexivity |].
  cbn [map]. change (Transport.reassemble (?x :: ?l)) with (x +:+ Transport.reassemble l).
  rewrite IH. unfold line_of. cbn [Transport.framed fold_right].
  now rewrite append_assoc.
Qed.

Lemma dispatch_reads_back (t : ProcessTransport) (messages : list Json) :
  onmessage t = true -> Forall reads_back messages ->
  flat_map (Transport.dispatch E t) (map (JSON_stringify E) messages) =
  map OnMessage messages.
Proof.
  intros Hon Hall. induction Hall as [|m more (Hparse & _ & Htrim) _ IH];
    [reflexivity |].
  cbn [map flat_map]. rewrite IH. unfold Transport.dispatch.
  now rewrite Htrim, Hparse, Hon.
Qed.

Lemma send_each_writes (t : ProcessTransport) (stdin : Transport.Stdin)
    (messages : list Json) :
  isConnected t = true -> Transport.writable stdin = true ->
  Transport.write_throws stdin = None ->
  Transport.send_each E t stdin messages =
  (t, {| Transport.writable := true; Transport.write_throws := None;
         Transport.written := Transport.written stdin ++ map line_of messages |},
   [], Ok tt).
Proof.
  revert stdin. induction messages as [|m more IH]; intros stdin Hc Hw Ht.
  - cbn. rewrite app_nil_r. destruct stdin; cbn in *; now subst.
  - cbn [Transport.send_each]. unfold Transport.send. rewrite Hc, Hw, Ht. cbn.
    rewrite IH by (cbn; assumption || reflexivity). cbn.
    now rewrite <- app_assoc.
Qed.

End Sending.

(** The error of a [send] on a transport that is not connected. *)
Definition not_connected (t : ProcessTransport) : string :=
  "Cannot send message to " +:+ name (server t) +:+ ": transport not connected".

(** [send] rejects with that error after telling [onerror], writes nothing
    and leaves the transport as it is. *)
Definition send_rejected (E : Env) (t : ProcessTransport) (stdin : Transport.Stdin)
    (message : Json) : Prop :=
  Transport.send E t stdin message =
  (t, stdin, (if onerror t then [OnError (not_connected t)] else []),
   Throw (JsError (not_connected t))).

(** X5. What [send] writes, the [data] listener reads back. On a
    connected transport with a writable input every one of a list of
    messages is written, as one line each, with no error. A transport that
    receives chunks of bytes which, decoded one by one as the listener
    decodes them, give those lines one after the other, delivers exactly
    those messages to [onmessage], in order, and is left with an empty
    buffer, wherever the chunks end in that text. The messages are those
    that [JSON.stringify] writes on a line and [JSON.parse] reads back. *)
Theorem send_handleData_round_trip (E : Env) (sender receiver : ProcessTransport)
    (stdin : Transport.Stdin) (messages : list Json)
    (chunks : list (list Byte.byte)) :
  isConnected sender = true ->
  Transport.writable stdin = true -> Transport.write_throws stdin = None ->
  onmessage receiver = true -> messageBuffer receiver = EmptyString ->
  Forall (reads_back E) messages ->
  decoded E chunks = Transport.reassemble (map (line_of E) messages) ->
  Transport.send_each E sender stdin messages =
    (sender,
     {| Transport.writable := true; Transport.write_throws := None;
        Transport.written := Transport.written stdin ++ map (line_of E) messages |},
     [], Ok tt) /\
  Transport.receive E receiver chunks = (receiver, map OnMessage messages).
Proof.
  intros Hc Hw Ht Hon Hbuf Hall Hchunks.
  split; [now apply send_each_writes |].
  rewrite receive_feed. rewrite feed_frames by now rewrite Hbuf.
  unfold decoded in Hchunks.
  rewrite Hbuf, append_nil_l, Hchunks, reassemble_lines.
  unfold Transport.complete_frames, Transport.trailing_fragment.
  rewrite split_frames_framed; cbn [fst snd].
  - rewrite dispatch_reads_back by assumption.
    rewrite <- Hbuf. now rewrite set_messageBuffer_same.
  - apply Forall_map. eapply Forall_impl; [exact Hall |].
    now intros m (_ & Hm & _).
  - reflexivity.
Qed.

Lemma send_handleData_round_trip_witness :
  let E := Sample.env Sample.answers true in
  let stdin := {| Transport.writable := true; Transport.write_throws := None;
                  Transport.written := [] |} in
  let line := "{}" +:+ Js.LF in
  let bytes := Utf8.bytes_of in
  Transport.send_each E (fst sample_started) stdin [JObj []; JObj []] =
    (fst sample_started,
     {| Transport.writable := true; Transport.write_throws := None;
        Transport.written := [line; line] |}, [], Ok tt) /\
  Transport.receive E sample_transport
    [bytes "{"; bytes ("}" +:+ Js.LF +:+ "{}"); bytes Js.LF] =
    (sample_transport, [OnMessage (JObj []); OnMessage (JObj [])]).
Proof.
  intros E stdin line bytes.
  apply (send_handleData_round_trip E (fst sample_started) sample_transport stdin
           [JObj []; JObj []]
           [bytes "{"; bytes ("}" +:+ Js.LF +:+ "{}"); bytes Js.LF]);
    try reflexivity.
  repeat constructor.
Defined.

(** X6. A transport that was closed, or whose process has exited or
    failed, sends nothing more: every [send] rejects with the error that
    the transport is not connected, after telling [onerror], and writes
    nothing, whatever the state of the input stream. It is the same after a
    [send] whose [write] threw. *)
Theorem send_after_close_rejects (E : Env) (t : ProcessTransport)
    (p : option ChildProcess) (err : string) (stdin : Transport.Stdin)
    (message : Json) :
  send_rejected E (fst (fst (Transport.close t p))) stdin message /\
  send_rejected E (fst (Transport.on_process_exit t)) stdin message /\
  send_rejected E (fst (Transport.on_process_error t err)) stdin message /\
  (forall stdin' message' msg,
     isConnected t = true -> Transport.writable stdin' = true ->
     Transport.write_throws stdin' = Some msg ->
     snd (Transport.send E t stdin' message') = Throw (JsError msg) /\
     snd (fst (fst (Transport.send E t stdin' message'))) = stdin' /\
     send_rejected E (fst (fst (fst (Transport.send E t stdin' message')))) stdin message).
Proof.
  split; [reflexivity |]. split; [reflexivity |]. split; [reflexivity |].
  intros stdin' message' msg Hc Hw Ht.
  unfold send_rejected, Transport.send. rewrite Hc, Hw, Ht. cbn.
  repeat split.
Qed.

(** ** Clearing the cache ([cache.ts]) *)

Section Clearing.
Variable E : Env.
Variable keys : gmap string nat -> list string.

(** [keys] enumerates the keys of a map, each once, in some order. *)
Hypothesis keys_enumerate : forall m : gmap string nat, keys m ≡ₚ (map_to_list m).*1.

Lemma keys_elem (m : gmap string nat) (serverName : string) :
  serverName ∈ keys m <-> is_Some (m !! serverName).
Proof.
  rewrite keys_enumerate. rewrite list_elem_of_fmap. split.
  - intros ([n c] & -> & Hin). apply elem_of_map_to_list in Hin. cbn. eauto.
  - intros [c Hc]. exists (serverName, c). split; [reflexivity |].
    now apply elem_of_map_to_list.
Qed.

Lemma remove_each_spec (serverNames : list string) (w : World) :
  exists w', remove_each E serverNames w = (Ok tt, w') /\
    runningServers w' = runningServers w /\
    forall serverName,
      connectedClients w' !! serverName =
      if decide (serverName ∈ serverNames) then None
      else connectedClients w !! serverName.
Proof.
  revert w. induction serverNames as [|n more IH]; intros w.
  - exists w. split; [reflexivity |]. split; [reflexivity |]. intros serverName.
    rewrite decide_False; [reflexivity | apply not_elem_of_nil].
  - cbn [remove_each]. unfold mbind, M_bind.
    destruct (removeClientFromCache_run E n w) as (w1 & -> & Hc & Hs).
    destruct (IH w1) as (w' & Hrun & Hs' & Hc').
    exists w'. split; [exact Hrun |]. split; [congruence |].
    intros serverName. rewrite Hc', Hc.
    destruct (decide (serverName ∈ more)) as [Hin | Hout].
    + rewrite decide_True; [reflexivity | now apply list_elem_of_further].
    + destruct (decide (serverName = n)) as [-> | Hne].
      * rewrite decide_True by apply list_elem_of_here. apply lookup_delete_eq.
      * rewrite lookup_delete_ne by congruence.
        rewrite decide_False; [reflexivity |].
        intros Hin. apply elem_of_cons in Hin. tauto.
Qed.

Lemma remove_each_keys (w : World) :
  exists w', remove_each E (keys (connectedClients w)) w = (Ok tt, w') /\
    runningServers w' = runningServers w /\ connectedClients w' = ∅.
Proof.
  destruct (remove_each_spec (keys (connectedClients w)) w) as (w' & Hrun & Hs & Hc).
  exists w'. split; [exact Hrun |]. split; [exact Hs |].
  apply map_empty. intros serverName. rewrite Hc.
  destruct (decide (serverName ∈ keys (connectedClients w))) as [Hin | Hout];
    [reflexivity |].
  destruct (connectedClients w !! serverName) as [c|] eqn:Hl; [| reflexivity].
  exfalso. apply Hout, keys_elem. eauto.
Qed.

Lemma clearClientCache_run (w : World) :
  exists w', clearClientCache E keys w = (Ok tt, w') /\
    connectedClients w' = ∅ /\
    runningServers w' = runningServers w /\
    remove_each E (keys (connectedClients w)) w = (Ok tt, w') /\
    clearClientCache E keys w' = (Ok tt, w').
Proof.
  assert (Hnoop : forall w0, connectedClients w0 = ∅ ->
            clearClientCache E keys w0 = (Ok tt, w0)).
  { intros w0 H0. unfold clearClientCache. munfold. rewrite H0, map_size_empty.
    reflexivity. }
  unfold clearClientCache. munfold.
  destruct (decide (size (connectedClients w) = 0%nat)) as [Hzero | Hsome].
  - apply map_size_empty_iff in Hzero.
    assert (Hkeys : keys (connectedClients w) = []).
    { apply Permutation_nil_r. rewrite keys_enumerate, Hzero.
      now rewrite map_to_list_empty. }
    exists w. rewrite Hkeys. repeat split; try assumption.
    now apply Hnoop.
  - destruct (remove_each_keys w) as (w' & Hrun & Hs & Hc).
    rewrite Hrun. cbn. rewrite Hc, map_size_empty. cbn.
    exists w'. repeat split; try assumption. now apply Hnoop.
Qed.

End Clearing.

(** X7. [clearClientCache] never throws and leaves the cache empty, for
    every environment, also one in which [close] rejects, and leaves the
    running servers registered. Its last resort of clearing the map is never
    needed: the loop over the names has emptied the cache already. A second
    call changes nothing. *)
Theorem clearClientCache_empties (E : Env) (keys : gmap string nat -> list string)
    (w : World) :
  (forall m : gmap string nat, keys m ≡ₚ (map_to_list m).*1) ->
  exists w',
    clearClientCache E keys w = (Ok tt, w') /\
    connectedClients w' = ∅ /\
    runningServers w' = runningServers w /\
    remove_each E (keys (connectedClients w)) w = (Ok tt, w') /\
    clearClientCache E keys w' = (Ok tt, w').
Proof. intros Hkeys. now apply clearClientCache_run. Qed.

Lemma clearClientCache_empties_witness :
  let E := Sample.env Sample.answers true in
  let keys := fun m : gmap string nat => (map_to_list m).*1 in
  let deployed := snd (deployServer E (Sample.deploy "/src/a") Sample.empty_world) in
  let connected := snd (getClient E "srv" deployed) in
  connectedClients connected !! "srv" = Some 3%nat /\
  exists w',
    clearClientCache E keys connected = (Ok tt, w') /\
    connectedClients w' = ∅ /\
    runningServers w' = runningServers connected.
Proof.
  intros E keys deployed connected. split; [reflexivity |].
  destruct (clearClientCache_empties E keys connected) as (w' & Hrun & Hc & Hs & _).
  - intros m. reflexivity.
  - exists w'. repeat split; assumption.
Defined.

(** ** Termination and deployment ([process.ts], [deploy.ts]) *)

Section Deployment.
Variable E : Env.

(** The listeners of an [exit] event leave the cache and the clock. *)
Lemma exit_listeners_cache (ls : list (nat * ExitListener)) (w : World) :
  connectedClients (fold_left run_exit_listener ls w) = connectedClients w /\
  tick (fold_left run_exit_listener ls w) = tick w.
Proof.
  revert w. induction ls as [|l ls IH]; intros w; cbn; [done |].
  destruct (IH (run_exit_listener w l)) as [-> ->]. unfold run_exit_listener.
  destruct (snd l) as [tr | other persistent].
  - destruct (transports w !! tr); done.
  - destruct persistent; done.
Qed.

(** They only delete from the running servers. *)
Lemma exit_listeners_unregistered (serverName : string)
    (ls : list (nat * ExitListener)) (w : World) :
  runningServers w !! serverName = None ->
  runningServers (fold_left run_exit_listener ls w) !! serverName = None.
Proof.
  revert w. induction ls as [|l ls IH]; intros w Hs; cbn; [done |].
  apply IH. unfold run_exit_listener.
  destruct (snd l) as [tr | other persistent].
  - destruct (transports w !! tr); done.
  - destruct persistent; [done |]. cbn.
    destruct (decide (other = serverName)) as [-> | Hne].
    + apply lookup_delete_eq.
    + now rewrite lookup_delete_ne.
Qed.

(** The listeners of an [exit] event register no server. *)
Lemma exit_listeners_delete_only (ls : list (nat * ExitListener)) (w : World)
    (serverName : string) (srv : ServerProcess) :
  runningServers (fold_left run_exit_listener ls w) !! serverName = Some srv ->
  runningServers w !! serverName = Some srv.
Proof.
  revert w. induction ls as [|l ls IH]; intros w H; [exact H |].
  cbn [fold_left] in H. apply IH in H. unfold run_exit_listener in H.
  destruct (snd l) as [tr | other persistent].
  - destruct (transports w !! tr); exact H.
  - destruct persistent; [exact H |]. cbn in H.
    apply lookup_delete_Some in H. tauto.
Qed.

(** Processes that exit one after the other leave the cache and the
    clock, and register no server. *)
Lemma processes_exit_cache (pids : list nat) (w : World) :
  connectedClients (processes_exit pids w) = connectedClients w /\
  tick (processes_exit pids w) = tick w /\
  forall serverName srv,
    runningServers (processes_exit pids w) !! serverName = Some srv ->
    runningServers w !! serverName = Some srv.
Proof.
  revert w. induction pids as [|pid pids IH]; intros w; [done |].
  cbn [processes_exit fold_left]. fold (processes_exit pids (process_exit pid w)).
  destruct (IH (process_exit pid w)) as (-> & -> & Hs).
  assert (Hstep : connectedClients (process_exit pid w) = connectedClients w /\
                  tick (process_exit pid w) = tick w /\
                  forall serverName srv,
                    runningServers (process_exit pid w) !! serverName = Some srv ->
                    runningServers w !! serverName = Some srv).
  { unfold process_exit. destruct (processes w !! pid) as [p|]; [| done].
    match goal with |- context [fold_left run_exit_listener ?ls ?w0] =>
      destruct (exit_listeners_cache ls w0) as [Hc Ht];
      pose proof (exit_listeners_delete_only ls w0) as Hd
    end.
    rewrite Hc, Ht. repeat split. intros serverName srv H. now apply Hd in H. }
  destruct Hstep as (-> & -> & Hs0). repeat split.
  intros serverName srv H. apply Hs0, Hs, H.
Qed.

(** What [terminateProcess] does in every world. *)
Lemma terminateProcess_frame (serverName : string) (w : World) :
  exists w', terminateProcess serverName w = (Ok tt, w') /\
    connectedClients w' = connectedClients w /\
    files w' = files w /\ process_env w' = process_env w /\
    next_ref w' = next_ref w /\ tick w' = tick w /\
    (runningServers w !! serverName = None -> w' = w) /\
    (forall srv cp, runningServers w !! serverName = Some srv ->
       processes w !! process srv = Some cp ->
       runningServers w' !! serverName = None).
Proof.
  unfold terminateProcess, await_exit_or_timeout, getServerProcess, kill. munfold.
  destruct (runningServers w !! serverName) as [srv|] eqn:Hsrv; cbn.
  2: { exists w. repeat split; congruence. }
  destruct (processes w !! process srv) as [cp|] eqn:Hcp; cbn.
  2: { exists w. repeat split; congruence. }
  rewrite lookup_insert_eq.
  set (cp1 := fst (Child.kill SIGTERM cp)).
  destruct (negb (exited cp1) && signalled cp1) eqn:Hgo; cbn.
  - unfold process_exit. cbn. rewrite lookup_insert_eq.
    match goal with |- context [fold_left run_exit_listener ?ls ?w0] =>
      destruct (exit_listeners_frame ls w0) as (Hp & Hn & Hf & He & l & Hl);
      destruct (exit_listeners_cache ls w0) as (Hc & Ht);
      pose proof (exit_listeners_unregistered serverName ls w0) as Hs;
      cbn in Hp, Hn, Hf, He, Hl, Hc, Ht, Hs
    end.
    eexists. split; [reflexivity |].
    rewrite Hc, Hf, He, Hn, Ht. repeat split; try congruence.
    intros srv0 cp0 _ _. apply Hs, lookup_delete_eq.
  - destruct (negb (killed cp1)) eqn:Hforce; cbn.
    + rewrite lookup_insert_eq. cbn.
      eexists. split; [reflexivity |]. cbn. repeat split; try congruence.
      intros srv0 cp0 _ _. apply lookup_delete_eq.
    + eexists. split; [reflexivity |]. cbn. repeat split; try congruence.
      intros srv0 cp0 _ _. apply lookup_delete_eq.
Qed.

(** The start of [deployServer], after the validation of the source path:
    the eviction and, if the name is registered, the termination. Both
    return; the name is not cached afterwards, and not registered if its
    process object is there. *)
Lemma teardown_run (serverName : string) (w : World) :
  exists w1 w2,
    removeClientFromCache E serverName w = (Ok tt, w1) /\
    runningServers w1 = runningServers w /\
    (match runningServers w !! serverName with
     | Some _ => terminateProcess serverName w1 = (Ok tt, w2)
     | None => w2 = w1
     end) /\
    connectedClients w2 !! serverName = None /\
    files w2 = files w /\ process_env w2 = process_env w /\
    next_ref w2 = next_ref w /\
    (runningServers w !! serverName = None -> runningServers w2 !! serverName = None) /\
    (forall srv cp, runningServers w !! serverName = Some srv ->
       processes w !! process srv = Some cp ->
       runningServers w2 !! serverName = None).
Proof.
  destruct (removeClientFromCache_run E serverName w) as (w1 & Hrm & Hc1 & Hs1).
  pose proof (fun pid => removeClientFromCache_keeps_life E serverName pid w) as Hlife.
  rewrite Hrm in Hlife. cbn in Hlife.
  destruct (Hlife 0%nat) as (Hn1 & Hf1 & He1 & _ & _).
  assert (Habsent : connectedClients w1 !! serverName = None)
    by (rewrite Hc1; apply lookup_delete_eq).
  destruct (runningServers w !! serverName) as [srv|] eqn:Hsrv.
  - destruct (terminateProcess_frame serverName w1)
      as (w2 & Hrun & Hc2 & Hf2 & He2 & Hn2 & _ & _ & Hgone).
    exists w1, w2. repeat split; try congruence.
    intros srv0 cp0 Hsrv0 Hcp0. inversion Hsrv0; subst srv0.
    destruct (Hlife (process srv)) as (_ & _ & _ & _ & Hcp).
    destruct (Hcp cp0 Hcp0) as (cp1 & Hcp1 & _).
    apply (Hgone srv cp1); congruence.
  - exists w1, w1. repeat split; congruence.
Qed.

(** What a deployment that returns has done. The process it has started
    has the reference that was the next one, and the closure of its [exit]
    listener the one after. [w0] is the world when the wait of a second
    begins. *)
Lemma deployServer_ok (input : DeployServerInput.t) (w w' : World)
    (response : DeployServerResponse.t) :
  let serverName := DeployServerInput.name input in
  let pid := next_ref w in
  deployServer E input w = (Ok response, w') ->
  response = {| DeployServerResponse.name := serverName;
                DeployServerResponse.id := CONTAINER_PREFIX +:+ serverName;
                DeployServerResponse.status := "running" |} /\
  exists w0 deployedAt,
    w' = processes_exit (exits_during_wait E pid) w0 /\
    connectedClients w0 !! serverName = None /\
    is_Some (files w0 !! path_join E (path_join E (cwd E) "logs")
                           (serverName +:+ ".log")) /\
    runningServers w0 !! serverName =
      Some {| process := pid; name := serverName;
              source_path := DeployServerInput.source_path input;
              deployed_at := deployedAt |} /\
    exists cp, processes w0 !! pid = Some cp /\
      killed cp = false /\ exited cp = false /\
      exit_listeners cp =
        [(S pid, DeployExit serverName (DeployServerInput.persistent input))].
Proof.
  intros serverName pid Hrun.
  unfold deployServer in Hrun. fold serverName in Hrun.
  unfold try_catch in Hrun.
  match type of Hrun with context [match ?b with _ => _ end] =>
    destruct b as [[response0 | e] w0] eqn:Hbody
  end.
  2: { destruct e; discriminate. }
  inversion Hrun; subst response0 w0; clear Hrun.
  unfold mbind, M_bind in Hbody.
  pose proof (validateSourcePath_world E (DeployServerInput.source_path input) w) as Hv.
  destruct (validateSourcePath E _ w) as [[[]|e] w0]; [| discriminate].
  cbn in Hv. subst w0.
  destruct (teardown_run serverName w)
    as (w1 & w2 & Hrm & Hs1 & Hterm & Hc2 & Hf2 & He2 & Hn2 & _ & _).
  rewrite Hrm in Hbody. unfold gets in Hbody. rewrite Hs1 in Hbody.
  assert (Hrest : forall (k : unit -> M DeployServerResponse.t),
            match (if runningServers w !! serverName is Some _
                   then terminateProcess serverName else ret tt) w1 with
            | (Ok a, w3) => k a w3
            | (Throw e, w3) => (Throw e, w3)
            end = k tt w2).
  { intros k. destruct (runningServers w !! serverName).
    - now rewrite Hterm.
    - now subst w2. }
  rewrite Hrest in Hbody. clear Hrest.
  pose proof (determineStartCommand_world E (DeployServerInput.source_path input) w2) as Hd.
  destruct (determineStartCommand E _ w2) as [[command|e] w3]; [| discriminate].
  cbn in Hd. subst w3.
  unfold prepareEnvironmentVariables, spawn, setupLogStream, now, initial_wait in Hbody.
  munfold. cbn -[processes_exit] in Hbody.
  destruct (spawn_throws E (tick w2)) as [msg|]; [discriminate |].
  cbn -[processes_exit] in Hbody. inversion Hbody; subst; clear Hbody.
  split; [reflexivity |]. unfold pid. rewrite <- Hn2.
  eexists. eexists. split; [reflexivity |]. cbn.
  split; [exact Hc2 |]. split.
  { match goal with |- context [files w2 !! ?dir] =>
      destruct (files w2 !! dir) end;
    match goal with |- is_Some (match ?x with _ => _ end !! _) =>
      destruct x eqn:Hlog end; try (eexists; exact Hlog);
    rewrite lookup_insert_eq; eauto. }
  split; [now rewrite lookup_insert_eq |].
  eexists. split; [now rewrite lookup_alter_eq, lookup_insert_eq |].
  cbn. repeat split.
Qed.

(** The state at the return of a deployment, from the state when its wait
    began: the cache and the files are as they were; if the name is
    registered, it is as it was; the process that was started has exited if
    it is the one that ended, and is as it was if it is not among those
    that did. *)
Lemma initial_wait_frame (pids : list nat) (w0 : World) (serverName : string)
    (srv : ServerProcess) (cp : ChildProcess) :
  runningServers w0 !! serverName = Some srv ->
  processes w0 !! process srv = Some cp ->
  exited cp = false ->
  let w' := processes_exit pids w0 in
  connectedClients w' = connectedClients w0 /\ files w' = files w0 /\
  (forall srv', runningServers w' !! serverName = Some srv' -> srv' = srv) /\
  (process srv ∉ pids -> processes w' !! process srv = Some cp) /\
  (pids = [] -> w' = w0) /\
  (pids = [process srv] ->
   w' = process_exit (process srv) w0 /\
   (exited <$> processes w' !! process srv) = Some true).
Proof.
  intros Hsrv Hcp Hex w'.
  destruct (processes_exit_cache pids w0) as (Hc & _ & Hs).
  destruct (processes_exit_frame pids w0) as (_ & Hf & _ & _ & Hps).
  split; [exact Hc |]. split; [exact Hf |]. split.
  { intros srv' H. apply Hs in H. congruence. }
  split.
  { intros Hnot. destruct (Hps _ _ Hcp) as (cp1 & Hcp1 & _ & Hsame).
    now rewrite <- (Hsame Hnot). }
  split; [now intros -> |].
  intros ->. split; [reflexivity |]. unfold w'. cbn.
  rewrite process_exit_processes, decide_True by reflexivity.
  rewrite Hcp. cbn. unfold Child.emit_exit. now rewrite Hex.
Qed.

End Deployment.

(** X8. A deployment whose source path does not exist, or has no
    [package.json], throws the [ServerDeploymentError] of the validation
    and changes nothing: a server that runs under the name keeps running and
    its cached client stays, because the validation comes first. *)
Theorem deployServer_invalid_source (E : Env) (input : DeployServerInput.t) (w : World) :
  let sourcePath := DeployServerInput.source_path input in
  files w !! sourcePath = None \/
  files w !! path_join E sourcePath "package.json" = None ->
  deployServer E input w =
  (Throw (ServerDeploymentError
            (match files w !! sourcePath with
             | Some _ => "package.json not found in " +:+ sourcePath
             | None => "Source path not found: " +:+ sourcePath
             end)), w).
Proof.
  intros sourcePath Hmissing.
  unfold deployServer, validateSourcePath. fold sourcePath. munfold. cbn.
  destruct (files w !! sourcePath) as [x|]; [| reflexivity].
  destruct Hmissing as [Hsrc | Hpkg]; [discriminate |].
  now rewrite Hpkg.
Qed.

Lemma deployServer_invalid_source_witness :
  let E := Sample.env Sample.answers true in
  let deployed := snd (deployServer E (Sample.deploy "/src/a") Sample.empty_world) in
  runningServers deployed !! "srv" =
    Some {| process := 0%nat; name := "srv"; source_path := "/src/a";
            deployed_at := 1000 |} /\
  deployServer E (Sample.deploy "/src/none") deployed =
    (Throw (ServerDeploymentError "Source path not found: /src/none"), deployed).
Proof.
  intros E deployed. split; [reflexivity |].
  apply (deployServer_invalid_source E (Sample.deploy "/src/none") deployed).
  left. reflexivity.
Defined.

(** X9. Every error that [deployServer] throws is a
    [ServerDeploymentError]: what fails inside is thrown again with its
    message in that class. *)
Theorem deployServer_throws_deployment_error (E : Env) (input : DeployServerInput.t)
    (w w' : World) (e : Error) :
  deployServer E input w = (Throw e, w') ->
  exists msg, e = ServerDeploymentError msg.
Proof.
  unfold deployServer, try_catch.
  match goal with |- context [match ?b with _ => _ end] =>
    destruct b as [[response | e0] w0]
  end; [discriminate |].
  destruct e0; unfold throw; intros H; inversion H; eauto.
Qed.

Lemma deployServer_throws_deployment_error_witness :
  exists msg,
    fst (deployServer (Sample.env Sample.answers true) (Sample.deploy "/src/none")
           Sample.empty_world) = Throw (ServerDeploymentError msg).
Proof.
  destruct (deployServer_throws_deployment_error (Sample.env Sample.answers true)
              (Sample.deploy "/src/none") Sample.empty_world Sample.empty_world
              (ServerDeploymentError "Source path not found: /src/none") eq_refl)
    as [msg Hmsg].
  exists msg. exact (f_equal Throw Hmsg).
Defined.

(** X10. A redeployment that fails after the validation has already taken
    the old server down: when the [package.json] of the new source does not
    parse, [deployServer] throws a [ServerDeploymentError] with the message
    of the parser, and the name is left with no running server and no
    cached client. *)
Theorem deployServer_failed_start_command (E : Env) (input : DeployServerInput.t)
    (w : World) (srv : ServerProcess) (cp : ChildProcess) (content msg : string) :
  let serverName := DeployServerInput.name input in
  let sourcePath := DeployServerInput.source_path input in
  runningServers w !! serverName = Some srv ->
  processes w !! process srv = Some cp ->
  is_Some (files w !! sourcePath) ->
  files w !! path_join E sourcePath "package.json" = Some (File content) ->
  JSON_parse E content = inr msg ->
  exists w',
    deployServer E input w = (Throw (ServerDeploymentError msg), w') /\
    runningServers w' !! serverName = None /\
    connectedClients w' !! serverName = None.
Proof.
  intros serverName sourcePath Hsrv Hcp [x Hsrc] Hpkg Hparse.
  unfold deployServer. fold serverName sourcePath.
  unfold try_catch. unfold mbind, M_bind.
  assert (Hval : validateSourcePath E sourcePath w = (Ok tt, w)).
  { unfold validateSourcePath. munfold. cbn. now rewrite Hsrc, Hpkg. }
  rewrite Hval.
  destruct (teardown_run E serverName w)
    as (w1 & w2 & Hrm & Hs1 & Hterm & Hc2 & Hf2 & _ & _ & _ & Hgone).
  rewrite Hsrv in Hterm. rewrite Hrm. unfold gets. rewrite Hs1, Hsrv, Hterm.
  assert (Hcmd : determineStartCommand E sourcePath w2 = (Throw (JsError msg), w2)).
  { unfold determineStartCommand, readFileSync. munfold. cbn.
    now rewrite Hf2, Hpkg, Hparse. }
  rewrite Hcmd. cbn. exists w2. split; [reflexivity |].
  split; [now apply (Hgone srv cp) | exact Hc2].
Qed.

Lemma deployServer_failed_start_command_witness :
  let E := Sample.env Sample.answers true in
  let deployed := snd (deployServer E (Sample.deploy "/src/a") Sample.empty_world) in
  let w := W.set_files <["/src/b/package.json" := File "{name}"]> deployed in
  exists w',
    deployServer E (Sample.deploy "/src/b") w =
      (Throw (ServerDeploymentError "Unexpected token in JSON: {name}"), w') /\
    runningServers w' !! "srv" = None /\
    connectedClients w' !! "srv" = None.
Proof.
  intros E deployed w.
  apply (deployServer_failed_start_command E (Sample.deploy "/src/b") w
           {| process := 0%nat; name := "srv"; source_path := "/src/a";
              deployed_at := 1000 |}
           (Child.on_exit 1 (DeployExit "srv" false) (Child.spawned true))
           "{name}" "Unexpected token in JSON: {name}");
    try reflexivity.
  exists Directory. reflexivity.
Defined.

(** X11. A deployment that returns answers with the name, the name
    prefixed with [mcp-test-] for an identifier, and the status [running],
    whatever has become of the process; no client is cached for the name,
    and the log file of the server exists. When the deployment begins its
    wait of a second, the name is registered with a new process that is
    running, under the given source path, so that the lookup of the name
    succeeds. At the return, after the wait, the name is registered with
    no other process than that one. If no process ended during the wait,
    the name is still registered with it and it is running. If it ended
    during the wait, and no other process did, it has exited, and the name
    is registered only if the deployment is persistent. *)
Theorem deployServer_registers (E : Env) (input : DeployServerInput.t) (w w' : World)
    (response : DeployServerResponse.t) :
  let serverName := DeployServerInput.name input in
  let ended := exits_during_wait E (next_ref w) in
  deployServer E input w = (Ok response, w') ->
  response = {| DeployServerResponse.name := serverName;
                DeployServerResponse.id := "mcp-test-" +:+ serverName;
                DeployServerResponse.status := "running" |} /\
  connectedClients w' !! serverName = None /\
  is_Some (files w' !! path_join E (path_join E (cwd E) "logs")
                         (serverName +:+ ".log")) /\
  exists w0 srv cp,
    w' = processes_exit ended w0 /\
    getServerProcess serverName w0 = (Ok srv, w0) /\
    process srv = next_ref w /\
    name srv = serverName /\
    source_path srv = DeployServerInput.source_path input /\
    processes w0 !! process srv = Some cp /\
    killed cp = false /\ exited cp = false /\
    (forall srv', runningServers w' !! serverName = Some srv' -> srv' = srv) /\
    (ended = [] ->
     getServerProcess serverName w' = (Ok srv, w') /\
     processes w' !! process srv = Some cp) /\
    (ended = [process srv] ->
     runningServers w' !! serverName =
       (if DeployServerInput.persistent input then Some srv else None) /\
     (exited <$> processes w' !! process srv) = Some true).
Proof.
  intros serverName ended Hrun.
  destruct (deployServer_ok E input w w' response Hrun)
    as (Hresp & w0 & deployedAt & Hw' & Hcache & Hlog & Hsrv & cp & Hcp & Hk & Hex & Hls).
  fold serverName in Hcache, Hlog, Hsrv, Hls. fold ended in Hw'.
  set (srv := {| process := next_ref w; name := serverName;
                 source_path := DeployServerInput.source_path input;
                 deployed_at := deployedAt |}) in *.
  destruct (initial_wait_frame ended w0 serverName srv cp Hsrv Hcp Hex)
    as (Hc & Hf & Honly & _ & Hnone & Hself).
  rewrite <- Hw' in Hc, Hf, Honly, Hnone, Hself.
  split; [exact Hresp |]. split; [now rewrite Hc |]. split; [now rewrite Hf |].
  exists w0, srv, cp. split; [exact Hw' |].
  split; [unfold getServerProcess; now rewrite Hsrv |].
  do 3 (split; [reflexivity |]). do 3 (split; [assumption |]).
  split; [exact Honly |]. split.
  - intros Hended. rewrite (Hnone Hended). unfold getServerProcess.
    now rewrite Hsrv.
  - intros Hended. destruct (Hself Hended) as [Hexit Hgone].
    split; [| exact Hgone]. rewrite Hexit.
    unfold process_exit, Child.emit_exit. cbn [process srv].
    change (process srv) with (next_ref w) in Hcp. rewrite Hcp, Hex, Hls. cbn.
    destruct (DeployServerInput.persistent input); cbn.
    + exact Hsrv.
    + apply lookup_delete_eq.
Qed.

Lemma deployServer_registers_witness :
  let E := Sample.env Sample.answers true in
  let deployed := snd (deployServer E (Sample.deploy "/src/a") Sample.empty_world) in
  deployServer E (Sample.deploy "/src/a") Sample.empty_world =
    (Ok {| DeployServerResponse.name := "srv";
           DeployServerResponse.id := "mcp-test-srv";
           DeployServerResponse.status := "running" |}, deployed) /\
  connectedClients deployed !! "srv" = None /\
  is_Some (files deployed !! "/harness/logs/srv.log") /\
  exists srv cp,
    getServerProcess "srv" deployed = (Ok srv, deployed) /\
    process srv = 0%nat /\ source_path srv = "/src/a" /\
    processes deployed !! 0%nat = Some cp /\ exited cp = false.
Proof.
  intros E deployed.
  assert (Hrun : deployServer E (Sample.deploy "/src/a") Sample.empty_world =
            (Ok {| DeployServerResponse.name := "srv";
                   DeployServerResponse.id := "mcp-test-srv";
                   DeployServerResponse.status := "running" |}, deployed))
    by (vm_compute; reflexivity).
  split; [exact Hrun |].
  destruct (deployServer_registers E (Sample.deploy "/src/a") Sample.empty_world
              deployed _ Hrun)
    as (_ & Hcache & Hlog & w0 & srv & cp & _ & _ & Hpid & _ & Hpath & _ & _ & Hex
        & _ & Hnone & _).
  split; [exact Hcache |]. split; [exact Hlog |].
  destruct (Hnone eq_refl) as [Hget Hcp].
  exists srv, cp. rewrite Hpid in Hcp. repeat split; assumption.
Defined.

(** X12. The flag [persistent] of a deployment decides what the exit of
    the deployed process does to the registration. If the process has not
    ended when the deployment returns, it is running then, and when it
    exits the name is removed from the running servers if the deployment
    is not persistent, and the running servers are left as they are if it
    is. If the process ends while the deployment waits before it returns,
    and no other process does, then at the return the process has exited,
    and the name is not registered if the deployment is not persistent and
    registered with that process if it is. If no process ends in the wait,
    the name is registered with the process at the return. *)
Theorem deployServer_exit_deregisters (E : Env) (input : DeployServerInput.t)
    (w w' : World) (response : DeployServerResponse.t) :
  let serverName := DeployServerInput.name input in
  let pid := next_ref w in
  let ended := exits_during_wait E pid in
  deployServer E input w = (Ok response, w') ->
  (pid ∉ ended ->
   (exited <$> processes w' !! pid) = Some false /\
   runningServers (process_exit pid w') !! serverName =
     (if DeployServerInput.persistent input
      then runningServers w' !! serverName else None) /\
   (exited <$> processes (process_exit pid w') !! pid) = Some true) /\
  (ended = [pid] ->
   (exited <$> processes w' !! pid) = Some true /\
   (process <$> runningServers w' !! serverName) =
     (if DeployServerInput.persistent input then Some pid else None)) /\
  (ended = [] ->
   (process <$> runningServers w' !! serverName) = Some pid).
Proof.
  intros serverName pid ended Hrun.
  destruct (deployServer_ok E input w w' response Hrun)
    as (_ & w0 & deployedAt & Hw' & _ & _ & Hsrv & cp & Hcp & _ & Hex & Hls).
  fold serverName in Hsrv, Hls. fold pid in Hw', Hsrv, Hcp, Hls. fold ended in Hw'.
  set (srv := {| process := pid; name := serverName;
                 source_path := DeployServerInput.source_path input;
                 deployed_at := deployedAt |}) in *.
  destruct (initial_wait_frame ended w0 serverName srv cp Hsrv Hcp Hex)
    as (_ & _ & _ & Hkept & Hnone & Hself).
  rewrite <- Hw' in Hkept, Hnone, Hself. cbn [process srv] in Hkept, Hself.
  split; [| split].
  - intros Hnot. rewrite (Hkept Hnot). cbn. rewrite Hex.
    split; [reflexivity |].
    rewrite process_exit_processes, decide_True by reflexivity.
    rewrite (Hkept Hnot). cbn.
    split; [| unfold Child.emit_exit; now rewrite Hex].
    unfold process_exit, Child.emit_exit. rewrite (Hkept Hnot), Hex, Hls. cbn.
    destruct (DeployServerInput.persistent input); cbn;
      [reflexivity | apply lookup_delete_eq].
  - intros Hended. destruct (Hself Hended) as [Hexit Hgone].
    split; [exact Hgone |]. rewrite Hexit.
    unfold process_exit, Child.emit_exit. rewrite Hcp, Hex, Hls. cbn.
    destruct (DeployServerInput.persistent input); cbn.
    + now rewrite Hsrv.
    + now rewrite lookup_delete_eq.
  - intros Hended. rewrite (Hnone Hended), Hsrv. reflexivity.
Qed.

Lemma deployServer_exit_deregisters_witness :
  let E := Sample.ending_early in
  let deployed := snd (deployServer E (Sample.deploy "/src/a") Sample.empty_world) in
  let kept := snd (deployServer E (Sample.deploy_persistent "/src/a")
                     Sample.empty_world) in
  fst (deployServer E (Sample.deploy "/src/a") Sample.empty_world) =
    Ok {| DeployServerResponse.name := "srv";
          DeployServerResponse.id := "mcp-test-srv";
          DeployServerResponse.status := "running" |} /\
  runningServers deployed !! "srv" = None /\
  (exited <$> processes deployed !! 0%nat) = Some true /\
  (process <$> runningServers kept !! "srv") = Some 0%nat /\
  (exited <$> processes kept !! 0%nat) = Some true.
Proof.
  intros E deployed kept. split; [reflexivity |].
  destruct (deployServer_exit_deregisters E (Sample.deploy "/src/a")
              Sample.empty_world deployed
              {| DeployServerResponse.name := "srv";
                 DeployServerResponse.id := "mcp-test-srv";
                 DeployServerResponse.status := "running" |})
    as (_ & Hearly & _); [vm_compute; reflexivity |].
  destruct (Hearly eq_refl) as [Hexited Hgone].
  destruct (deployServer_exit_deregisters E (Sample.deploy_persistent "/src/a")
              Sample.empty_world kept
              {| DeployServerResponse.name := "srv";
                 DeployServerResponse.id := "mcp-test-srv";
                 DeployServerResponse.status := "running" |})
    as (_ & Hearly' & _); [vm_compute; reflexivity |].
  destruct (Hearly' eq_refl) as [Hexited' Hkept].
  split.
  { cbn in Hgone. destruct (runningServers deployed !! "srv");
      [discriminate Hgone | reflexivity]. }
  split; [exact Hexited |]. split; [exact Hkept | exact Hexited'].
Defined.

(** X13. The [exit] listener of a deployment that is not persistent
    deletes by name: when a process that was deployed so exits, whatever is
    registered under its name is removed from the running servers, also the
    entry of a later deployment under the name, whose process goes on
    running. *)
Theorem process_exit_deregisters_by_name (pid h : nat) (serverName : string)
    (w : World) (cp : ChildProcess) :
  processes w !! pid = Some cp ->
  exited cp = false ->
  (h, DeployExit serverName false) ∈ exit_listeners cp ->
  runningServers (process_exit pid w) !! serverName = None.
Proof.
  intros Hcp Hex Hin. unfold process_exit, Child.emit_exit. rewrite Hcp, Hex.
  cbn [fst snd].
  match goal with |- context [fold_left run_exit_listener _ ?w0] =>
    generalize w0 end.
  induction (exit_listeners cp) as [|l ls IH]; intros w0.
  - now apply not_elem_of_nil in Hin.
  - cbn [fold_left]. apply elem_of_cons in Hin as [<- | Hin].
    + apply exit_listeners_unregistered. cbn. apply lookup_delete_eq.
    + now apply IH.
Qed.

Lemma process_exit_deregisters_by_name_witness :
  let E := Sample.env Sample.answers false in
  let first := snd (deployServer E (Sample.deploy "/src/a") Sample.empty_world) in
  let second := snd (deployServer E (Sample.deploy "/src/b") first) in
  runningServers second !! "srv" =
    Some {| process := 2%nat; name := "srv"; source_path := "/src/b";
            deployed_at := 3000 |} /\
  runningServers (process_exit 0 second) !! "srv" = None /\
  (exited <$> processes (process_exit 0 second) !! 2%nat) = Some false.
Proof.
  intros E first second. split; [reflexivity |]. split; [| reflexivity].
  apply (process_exit_deregisters_by_name 0 1 "srv" second
           {| killed := true; exited := false; signalled := false;
              exits_on_SIGTERM := false;
              exit_listeners := [(1%nat, DeployExit "srv" false)];
              error_listeners := []; data_listeners := [] |});
    [reflexivity | reflexivity |].
  apply list_elem_of_here.
Defined.

(** X14. [terminateProcess] never throws and never touches the cache of
    clients. For a name that is not registered it changes nothing; for a
    registered name whose process object is there, so that the signal can
    be sent, the name is not registered when it returns. *)
Theorem terminateProcess_never_throws (serverName : string) (w : World) :
  exists w',
    terminateProcess serverName w = (Ok tt, w') /\
    connectedClients w' = connectedClients w /\
    (runningServers w !! serverName = None -> w' = w) /\
    (forall srv cp, runningServers w !! serverName = Some srv ->
       processes w !! process srv = Some cp ->
       runningServers w' !! serverName = None).
Proof.
  destruct (terminateProcess_frame serverName w)
    as (w' & Hrun & Hc & _ & _ & _ & _ & Hsame & Hgone).
  exists w'. repeat split; assumption.
Qed.

(** X15. The forced kill of [terminateProcess] does not happen: the timer
    sends [SIGKILL] only if [killed] is unset, and the [SIGTERM] sent
    before has set it. A registered process that is running and does not
    end on [SIGTERM] is therefore still running when [terminateProcess]
    returns; its entry is gone, no exit was recorded. *)
Theorem terminateProcess_sends_no_SIGKILL (serverName : string) (w : World)
    (srv : ServerProcess) (cp : ChildProcess) :
  runningServers w !! serverName = Some srv ->
  processes w !! process srv = Some cp ->
  exited cp = false -> signalled cp = false -> exits_on_SIGTERM cp = false ->
  exists w' cp',
    terminateProcess serverName w = (Ok tt, w') /\
    runningServers w' !! serverName = None /\
    processes w' !! process srv = Some cp' /\
    killed cp' = true /\ exited cp' = false /\ signalled cp' = false /\
    log w' = log w.
Proof.
  intros Hsrv Hcp Hex Hsig Hterm.
  unfold terminateProcess, await_exit_or_timeout, getServerProcess, kill. munfold.
  rewrite Hsrv. cbn. rewrite Hcp. cbn. rewrite lookup_insert_eq.
  unfold Child.kill. rewrite Hex. cbn. rewrite Hsig, Hterm. cbn.
  eexists. eexists. split; [reflexivity |]. cbn.
  split; [apply lookup_delete_eq |].
  split; [apply lookup_insert_eq |]. cbn. repeat split.
Qed.

Lemma terminateProcess_sends_no_SIGKILL_witness :
  let E := Sample.env Sample.answers false in
  let deployed := snd (deployServer E (Sample.deploy "/src/a") Sample.empty_world) in
  exists w' cp',
    terminateProcess "srv" deployed = (Ok tt, w') /\
    processes w' !! 0%nat = Some cp' /\
    killed cp' = true /\ exited cp' = false.
Proof.
  intros E deployed.
  destruct (terminateProcess_sends_no_SIGKILL "srv" deployed
              {| process := 0%nat; name := "srv"; source_path := "/src/a";
                 deployed_at := 1000 |}
              (Child.on_exit 1 (DeployExit "srv" false) (Child.spawned false)))
    as (w' & cp' & Hrun & _ & Hcp & Hk & Hex & _); try reflexivity.
  exists w', cp'. repeat split; assumption.
Defined.

(** ** Listing the servers (the container module) *)

(** The registration of the name when a deployment returns: with no other
    process than the one it started; with that one if no process ended
    while it waited; and, if that one ended and no other did, only if the
    deployment is persistent. *)
Lemma deployServer_registration (E : Env) (input : DeployServerInput.t) (w w' : World)
    (response : DeployServerResponse.t) :
  let serverName := DeployServerInput.name input in
  let ended := exits_during_wait E (next_ref w) in
  deployServer E input w = (Ok response, w') ->
  DeployServerResponse.id response = CONTAINER_PREFIX +:+ serverName /\
  exists srv,
    process srv = next_ref w /\
    source_path srv = DeployServerInput.source_path input /\
    (forall srv', runningServers w' !! serverName = Some srv' -> srv' = srv) /\
    (ended = [] -> runningServers w' !! serverName = Some srv) /\
    (ended = [next_ref w] ->
     runningServers w' !! serverName =
       if DeployServerInput.persistent input then Some srv else None).
Proof.
  intros serverName ended Hrun.
  destruct (deployServer_ok E input w w' response Hrun)
    as (-> & w0 & deployedAt & Hw' & _ & _ & Hsrv & cp & Hcp & _ & Hex & Hls).
  fold serverName in Hsrv, Hls. fold ended in Hw'.
  split; [reflexivity |].
  set (srv := {| process := next_ref w; name := serverName;
                 source_path := DeployServerInput.source_path input;
                 deployed_at := deployedAt |}) in *.
  destruct (initial_wait_frame ended w0 serverName srv cp Hsrv Hcp Hex)
    as (_ & _ & Honly & _ & Hnone & Hself).
  rewrite <- Hw' in Honly, Hnone, Hself.
  exists srv. do 2 (split; [reflexivity |]). split; [exact Honly |]. split.
  - intros Hended. now rewrite (Hnone Hended).
  - intros Hended. destruct (Hself Hended) as [-> _].
    unfold process_exit, Child.emit_exit. cbn [process srv].
    rewrite Hcp, Hex, Hls. cbn.
    destruct (DeployServerInput.persistent input); cbn;
      [exact Hsrv | apply lookup_delete_eq].
Qed.

Section Listing.
Variable entries : gmap string ServerProcess -> list (string * ServerProcess).
Variable toISOString : Z -> string.

(** [entries] enumerates the entries of a map, each once, in some order. *)
Hypothesis entries_enumerate :
  forall m : gmap string ServerProcess, entries m ≡ₚ map_to_list m.

(** The entry of [listServers] for a registered server. *)
Definition info_of (serverName : string) (srv : ServerProcess) : ServerInfo.t :=
  {| ServerInfo.name := serverName;
     ServerInfo.id := CONTAINER_PREFIX +:+ serverName;
     ServerInfo.status := "running";
     ServerInfo.source_path := source_path srv;
     ServerInfo.deployed_at := toISOString (deployed_at srv) |}.

Lemma listServers_run (w : World) :
  listServers entries toISOString w =
  (Ok (map (fun entry => info_of (fst entry) (snd entry)) (entries (runningServers w))), w).
Proof. reflexivity. Qed.

Lemma listServers_elem (w : World) (info : ServerInfo.t) :
  info ∈ map (fun entry => info_of (fst entry) (snd entry)) (entries (runningServers w)) <->
  exists srv, runningServers w !! ServerInfo.name info = Some srv /\
              info = info_of (ServerInfo.name info) srv.
Proof.
  rewrite list_elem_of_fmap. split.
  - intros ([n srv] & -> & Hin). rewrite entries_enumerate in Hin.
    apply elem_of_map_to_list in Hin. cbn. eauto.
  - intros (srv & Hsrv & Hinfo). exists (ServerInfo.name info, srv).
    split; [exact Hinfo |]. rewrite entries_enumerate.
    now apply elem_of_map_to_list.
Qed.

Lemma listServers_names (w : World) :
  ServerInfo.name <$> map (fun entry => info_of (fst entry) (snd entry))
                        (entries (runningServers w))
  = (entries (runningServers w)).*1.
Proof.
  induction (entries (runningServers w)) as [|entry more IH]; [reflexivity |].
  cbn. now rewrite IH.
Qed.

End Listing.

(** X16. [listServers] never throws and changes nothing; it lists the
    servers that are registered, each once: one entry for every name in the
    running servers and no other, with the name prefixed with [mcp-test-]
    for an identifier, the status [running], and the source path and the
    time of deployment of the registration. *)
Theorem listServers_lists_running
    (entries : gmap string ServerProcess -> list (string * ServerProcess))
    (toISOString : Z -> string) (w : World) :
  (forall m : gmap string ServerProcess, entries m ≡ₚ map_to_list m) ->
  exists infos,
    listServers entries toISOString w = (Ok infos, w) /\
    length infos = size (runningServers w) /\
    NoDup (ServerInfo.name <$> infos) /\
    forall info,
      info ∈ infos <->
      exists srv, runningServers w !! ServerInfo.name info = Some srv /\
                  info = {| ServerInfo.name := ServerInfo.name info;
                            ServerInfo.id := "mcp-test-" +:+ ServerInfo.name info;
                            ServerInfo.status := "running";
                            ServerInfo.source_path := source_path srv;
                            ServerInfo.deployed_at := toISOString (deployed_at srv) |}.
Proof.
  intros Henum. eexists. split; [apply listServers_run |].
  split; [| split].
  - rewrite length_map, Henum. apply length_map_to_list.
  - rewrite listServers_names, Henum. apply NoDup_fst_map_to_list.
  - intros info. now apply listServers_elem.
Qed.

Lemma listServers_lists_running_witness :
  let E := Sample.env Sample.answers true in
  let deployed := snd (deployServer E (Sample.deploy "/src/a") Sample.empty_world) in
  let toISOString := fun t : Z => if t =? 1000 then "1970-01-01T00:00:01.000Z" else "" in
  exists infos,
    listServers map_to_list toISOString deployed = (Ok infos, deployed) /\
    length infos = 1%nat /\
    {| ServerInfo.name := "srv"; ServerInfo.id := "mcp-test-srv";
       ServerInfo.status := "running"; ServerInfo.source_path := "/src/a";
       ServerInfo.deployed_at := "1970-01-01T00:00:01.000Z" |} ∈ infos.
Proof.
  intros E deployed toISOString.
  destruct (listServers_lists_running map_to_list toISOString deployed)
    as (infos & Hrun & Hlen & _ & Helem).
  - intros m. reflexivity.
  - exists infos. split; [exact Hrun |]. split; [exact Hlen |].
    apply Helem. eexists. split; reflexivity.
Defined.

(** X17. The listing follows the two operations that change the running
    servers. After a deployment that returns, an entry of the listing
    under the name has the identifier of the deployment's answer and the
    source path that was given. There is such an entry if no process ended
    while the deployment waited, and also if the deployed process ended
    then, no other did, and the deployment is persistent; there is none if
    the deployed process ended then, no other did, and the deployment is
    not persistent. After a stop that returns, the name is not listed. *)
Theorem listServers_after_deploy_and_stop (E : Env)
    (entries : gmap string ServerProcess -> list (string * ServerProcess))
    (toISOString : Z -> string) :
  (forall m : gmap string ServerProcess, entries m ≡ₚ map_to_list m) ->
  (forall input w w' response infos,
     let ended := exits_during_wait E (next_ref w) in
     let listed := exists info, info ∈ infos /\
                     ServerInfo.name info = DeployServerInput.name input in
     deployServer E input w = (Ok response, w') ->
     listServers entries toISOString w' = (Ok infos, w') ->
     (forall info, info ∈ infos ->
        ServerInfo.name info = DeployServerInput.name input ->
        ServerInfo.id info = DeployServerResponse.id response /\
        ServerInfo.source_path info = DeployServerInput.source_path input) /\
     (ended = [] -> listed) /\
     (ended = [next_ref w] ->
      if DeployServerInput.persistent input then listed else ~ listed)) /\
  (forall server_name w w' response infos,
     stopServer E server_name w = (Ok response, w') ->
     listServers entries toISOString w' = (Ok infos, w') ->
     forall info, info ∈ infos -> ServerInfo.name info <> server_name).
Proof.
  intros Henum. split.
  - intros input w w' response infos ended listed Hdeploy Hlist.
    destruct (deployServer_registration E input w w' response Hdeploy)
      as (Hid & srv & _ & Hpath & Honly & Hnone & Hself).
    fold ended in Hnone, Hself.
    rewrite listServers_run in Hlist. inversion Hlist; subst infos; clear Hlist.
    assert (Hthere : runningServers w' !! DeployServerInput.name input = Some srv ->
                     listed).
    { intros Hsrv. exists (info_of toISOString (DeployServerInput.name input) srv).
      split; [| reflexivity].
      apply (listServers_elem entries toISOString Henum). eexists.
      split; [exact Hsrv | reflexivity]. }
    split; [| split].
    + intros info Hin Hname.
      apply (listServers_elem entries toISOString Henum) in Hin as (srv' & Hsrv' & ->).
      rewrite Hname in Hsrv'. apply Honly in Hsrv'. subst srv'. cbn.
      rewrite Hname, Hid, Hpath. split; reflexivity.
    + intros Hended. apply Hthere, Hnone, Hended.
    + intros Hended. specialize (Hself Hended).
      destruct (DeployServerInput.persistent input); [now apply Hthere |].
      intros (info & Hin & Hname).
      apply (listServers_elem entries toISOString Henum) in Hin as (srv' & Hsrv' & _).
      rewrite Hname in Hsrv'. congruence.
  - intros server_name w w' response infos Hstop Hlist info Hin Hname.
    rewrite listServers_run in Hlist. inversion Hlist; subst infos; clear Hlist.
    apply (listServers_elem entries toISOString Henum) in Hin as (srv & Hsrv & _).
    destruct (stopServer_outcome E server_name w) as [(_ & Hs & _) | (e & He & _)];
      rewrite Hstop in *; cbn in *; [| discriminate].
    congruence.
Qed.

Lemma listServers_after_deploy_and_stop_witness :
  let E := Sample.env Sample.answers true in
  let deployed := snd (deployServer E (Sample.deploy "/src/a") Sample.empty_world) in
  let stopped_world := snd (stopServer E "srv" deployed) in
  (exists info,
     info ∈ [{| ServerInfo.name := "srv"; ServerInfo.id := "mcp-test-srv";
                ServerInfo.status := "running"; ServerInfo.source_path := "/src/a";
                ServerInfo.deployed_at := EmptyString |}] /\
     ServerInfo.name info = "srv") /\
  listServers map_to_list (fun _ => EmptyString) stopped_world = (Ok [], stopped_world).
Proof.
  intros E deployed stopped_world. split; [| reflexivity].
  refine (proj1 (proj2 (proj1 (listServers_after_deploy_and_stop E map_to_list
                                 (fun _ => EmptyString) _)
            (Sample.deploy "/src/a") Sample.empty_world deployed
            {| DeployServerResponse.name := "srv";
               DeployServerResponse.id := "mcp-test-srv";
               DeployServerResponse.status := "running" |} _ _ _)) _).
  - intros m. reflexivity.
  - vm_compute. reflexivity.
  - vm_compute. reflexivity.
  - reflexivity.
Defined.

(** ** Sessions, tool calls and smoke tests: how failures come back
    ([connection.ts], [tools.ts], [tests.ts]) *)

Section Failures.
Variable E : Env.

(** The error of an acquisition for a name that is not registered. *)
Definition not_found_on_connect (serverName : string) : Error :=
  ToolCallError serverName "connect" (message E (ServerNotFoundError serverName)).

Lemma getClient_unregistered_run (serverName : string) (w : World) :
  runningServers w !! serverName = None ->
  exists w', getClient E serverName w = (Throw (not_found_on_connect serverName), w') /\
    connectedClients w' !! serverName = None /\
    runningServers w' = runningServers w.
Proof.
  intros H. unfold getClient. munfold. cbn.
  destruct (connectedClients w !! serverName) as [c|] eqn:Hc.
  - unfold reuse_cached, getServerProcess. munfold. rewrite H. cbn.
    destruct (removeClientFromCache_run E serverName w) as (w' & -> & Hc' & Hs).
    cbn. rewrite createNewClient_unregistered by now rewrite Hs.
    exists w'. split; [reflexivity |]. split; [| exact Hs].
    rewrite Hc'. apply lookup_delete_eq.
  - rewrite createNewClient_unregistered by assumption. eauto.
Qed.

Lemma listTools_fails (serverName : string) (w w' : World) (e : Error) :
  listTools E serverName w = (Throw e, w') ->
  exists cause, e = ToolCallError serverName "listTools" cause.
Proof.
  unfold listTools, try_catch.
  match goal with |- context [match ?b with _ => _ end] =>
    destruct b as [[names | e0] w0]
  end; [discriminate |].
  unfold throw. intros H. inversion H. eauto.
Qed.

Lemma callTool_run (input : CallToolInput.t) (w : World) :
  exists response w',
    callTool E input w = (Ok response, w') /\
    (CallToolResponse.error response <> None ->
     CallToolResponse.result response = JNull) /\
    (forall e w1,
       getClient E (CallToolInput.server_name input) (W.set_tick (S (tick w)) w)
         = (Throw e, w1) ->
       CallToolResponse.result response = JNull /\
       CallToolResponse.error response = Some (message E e) /\
       connectedClients w' = connectedClients w1 /\
       runningServers w' = runningServers w1).
Proof.
  unfold callTool. munfold. cbn.
  destruct (getClient E _ _) as [[client | e] w1]; cbn.
  - destruct (rpc_result (client_callTool E _ _ _)) as [response | msg]; cbn.
    + destruct (extract_result E response) as [result | e]; cbn;
        eexists; eexists; (split; [reflexivity |]); cbn; split;
          congruence || discriminate.
    + eexists. eexists. split; [reflexivity |]. cbn. split; [done | discriminate].
  - eexists. eexists. split; [reflexivity |]. cbn. split; [done |].
    intros e0 w0 H. inversion H; subst. done.
Qed.

End Failures.



(** X19. For a name that is not registered [getClient] throws a
    [ToolCallError] for [connect] that carries the message of the
    [ServerNotFoundError]; a client that was still cached under the name is
    evicted on the way. *)
Theorem getClient_unregistered_evicts (E : Env) (serverName : string) (w : World) :
  runningServers w !! serverName = None ->
  exists w',
    getClient E serverName w =
      (Throw (ToolCallError serverName "connect"
                (ServerNotFoundError_message E serverName)), w') /\
    connectedClients w' !! serverName = None /\
    runningServers w' = runningServers w.
Proof. apply getClient_unregistered_run. Qed.

Lemma getClient_unregistered_evicts_witness :
  let E := Sample.env Sample.answers true in
  let deployed := snd (deployServer E (Sample.deploy "/src/a") Sample.empty_world) in
  let connected := snd (getClient E "srv" deployed) in
  let gone := process_exit 0 connected in
  connectedClients gone !! "srv" = Some 3%nat /\
  exists w',
    getClient E "srv" gone =
      (Throw (ToolCallError "srv" "connect" "Server not found: srv"), w') /\
    connectedClients w' !! "srv" = None.
Proof.
  intros E deployed connected gone. split; [reflexivity |].
  destruct (getClient_unregistered_evicts E "srv" gone eq_refl)
    as (w' & Hrun & Hc & _).
  exists w'. split; [exact Hrun | exact Hc].
Defined.

(** X20. [callTool] never throws: every failure, of the acquisition, of the
    call, or of the reading of the answer, comes back as a response whose
    [result] is null and whose [error] is the message of what failed; a
    response without an error is the only kind with a result. When it is the
    acquisition that fails, the response carries the message of the
    [ToolCallError] of [getClient], and nothing more is done to the two
    maps. *)
Theorem callTool_never_throws (E : Env) (input : CallToolInput.t) (w : World) :
  exists response w',
    callTool E input w = (Ok response, w') /\
    (CallToolResponse.error response <> None ->
     CallToolResponse.result response = JNull) /\
    (forall e w1,
       getClient E (CallToolInput.server_name input) (W.set_tick (S (tick w)) w)
         = (Throw e, w1) ->
       CallToolResponse.result response = JNull /\
       CallToolResponse.error response = Some (message E e) /\
       connectedClients w' = connectedClients w1 /\
       runningServers w' = runningServers w1).
Proof. apply callTool_run. Qed.

(** X21. A tool call to a server that is not registered comes back as a
    response, not as an exception: its [result] is null and its [error] is
    the message of the [ToolCallError] for [connect] around the message of
    the [ServerNotFoundError]. Nothing is cached for the name. *)
Theorem callTool_unregistered (E : Env) (input : CallToolInput.t) (w : World) :
  let serverName := CallToolInput.server_name input in
  runningServers w !! serverName = None ->
  exists response w',
    callTool E input w = (Ok response, w') /\
    CallToolResponse.result response = JNull /\
    CallToolResponse.error response =
      Some (ToolCallError_message E serverName "connect"
              (ServerNotFoundError_message E serverName)) /\
    connectedClients w' !! serverName = None.
Proof.
  intros serverName Hsrv.
  destruct (callTool_run E input w) as (response & w' & Hrun & _ & Hfail).
  destruct (getClient_unregistered_run E serverName (W.set_tick (S (tick w)) w) Hsrv)
    as (w1 & Hget & Hc1 & _).
  destruct (Hfail _ _ Hget) as (Hres & Herr & Hc & _).
  exists response, w'. split; [exact Hrun |]. split; [exact Hres |].
  split; [exact Herr | congruence].
Qed.

Lemma callTool_unregistered_witness :
  let E := Sample.env Sample.answers true in
  let input := {| CallToolInput.server_name := "srv"; CallToolInput.tool_name := "echo";
                  CallToolInput.arguments := JObj [] |} in
  exists response w',
    callTool E input Sample.empty_world = (Ok response, w') /\
    CallToolResponse.result response = JNull /\
    CallToolResponse.error response = Some "srv.connect: Server not found: srv".
Proof.
  intros E input.
  destruct (callTool_unregistered E input Sample.empty_world eq_refl)
    as (response & w' & Hrun & Hres & Herr & _).
  exists response, w'. split; [exact Hrun |]. split; [exact Hres | exact Herr].
Defined.

(** X22. [runTests] for a name that is not registered throws the
    [ServerNotFoundError] of its own lookup, unchanged: it is the one error
    that its handler throws again. Only the clock has been read. *)
Theorem runTests_unregistered (E : Env) (input : RunTestsInput.t) (w : World) :
  runningServers w !! RunTestsInput.server_name input = None ->
  runTests E input w =
  (Throw (ServerNotFoundError (RunTestsInput.server_name input)),
   W.set_tick (S (tick w)) w).
Proof.
  intros Hsrv. unfold runTests, getServerProcess. munfold. cbn.
  now rewrite Hsrv.
Qed.

Lemma runTests_unregistered_witness :
  runTests (Sample.env Sample.answers true)
    {| RunTestsInput.server_name := "srv"; RunTestsInput.test_suite := None |}
    Sample.empty_world =
  (Throw (ServerNotFoundError "srv"), W.set_tick 1 Sample.empty_world).
Proof.
  apply (runTests_unregistered (Sample.env Sample.answers true)
           {| RunTestsInput.server_name := "srv"; RunTestsInput.test_suite := None |}
           Sample.empty_world).
  reflexivity.
Defined.

(** X23. For a registered server [runTests] never throws. When the tools
    cannot be listed (no session can be built, or the list request is
    rejected) it answers with one failed result named [Test suite setup],
    whose message and error carry the message of the [ToolCallError] of
    [listTools], and with the summary of one test, none passed, one
    failed. *)
Theorem runTests_registered_returns (E : Env) (input : RunTestsInput.t) (w : World)
    (srv : ServerProcess) :
  let server_name := RunTestsInput.server_name input in
  runningServers w !! server_name = Some srv ->
  (exists response w', runTests E input w = (Ok response, w')) /\
  (forall e w1,
     listTools E server_name (W.set_tick (S (tick w)) w) = (Throw e, w1) ->
     exists duration,
       runTests E input w =
       (Ok {| RunTestsResponse.results :=
                [{| TestResult.name := "Test suite setup";
                    TestResult.passed := false;
                    TestResult.message := "Failed to setup test suite: " +:+ message E e;
                    TestResult.duration_ms := duration;
                    TestResult.error := Some (message E e) |}];
              RunTestsResponse.summary :=
                {| Summary.total := 1; Summary.passed := 0; Summary.failed := 1;
                   Summary.duration_ms := duration |} |},
        W.set_tick (S (tick w1)) w1)).
Proof.
  intros server_name Hsrv.
  unfold runTests, getServerProcess. munfold. cbn. fold server_name.
  rewrite Hsrv. cbn.
  destruct (listTools E server_name _) as [[names | e] w1] eqn:Hlist; cbn.
  - split; [| discriminate].
    destruct (run_each_total E server_name (map basic_test names) w1)
      as (results & w2 & -> & _).
    cbn. eauto.
  - destruct (listTools_fails E server_name _ _ _ Hlist) as [cause ->]. cbn.
    split; [eauto |].
    intros e0 w0 H. inversion H; subst. cbn. eauto.
Qed.

Lemma runTests_registered_returns_witness :
  let E := Sample.env Sample.rejects true in
  let deployed := snd (deployServer E (Sample.deploy "/src/a") Sample.empty_world) in
  let input := {| RunTestsInput.server_name := "srv"; RunTestsInput.test_suite := None |} in
  exists response w',
    runTests E input deployed = (Ok response, w') /\
    map TestResult.name (RunTestsResponse.results response) = ["Test suite setup"] /\
    RunTestsResponse.summary response =
      {| Summary.total := 1; Summary.passed := 0; Summary.failed := 1;
         Summary.duration_ms := 3000 |}.
Proof.
  intros E deployed input.
  destruct (proj2 (runTests_registered_returns E input deployed
                     {| process := 0%nat; name := "srv"; source_path := "/src/a";
                        deployed_at := 1000 |} eq_refl)
              (ToolCallError "srv" "listTools" "Connection closed")
              (snd (listTools E "srv" (W.set_tick (S (tick deployed)) deployed))))
    as (duration & Hrun).
  - vm_compute. reflexivity.
  - eexists. eexists. split; [exact Hrun |]. cbn. split; [reflexivity |].
    assert (Hd : duration = 3000).
    { assert (H := f_equal (fun r => Summary.duration_ms <$>
                              (RunTestsResponse.summary <$> fst_ok (fst r))) Hrun).
      vm_compute in H. now inversion H. }
    now rewrite Hd.
Defined.

(** X24. [runTestCase] never throws, and its result bears the name of the
    test. A result that carries an error has not passed; a result that has
    passed says [Test passed] and carries no error. *)
Theorem runTestCase_result (E : Env) (serverName : string) (test : TestCase.t)
    (w : World) :
  exists result w',
    runTestCase E serverName test w = (Ok result, w') /\
    TestResult.name result = TestCase.name test /\
    (TestResult.error result <> None -> TestResult.passed result = false) /\
    (TestResult.passed result = true ->
     TestResult.message result = "Test passed" /\ TestResult.error result = None).
Proof.
  unfold runTestCase. munfold. cbn.
  destruct (callTool E _ _) as [[response | e] w1]; cbn.
  2: { eexists. eexists. split; [reflexivity |]. cbn. repeat split; done. }
  destruct (error_set (CallToolResponse.error response)); cbn.
  { eexists. eexists. split; [reflexivity |]. cbn. repeat split; done. }
  destruct (TestCase.expected test) as [ex|]; cbn.
  2: { eexists. eexists. split; [reflexivity |]. cbn. repeat split; done. }
  unfold matches.
  destruct (Expected.type ex); munfold; cbn.
  3: destruct (RegExp_test E _ _) as [b | msg]; cbn.
  all: eexists; eexists; (split; [reflexivity |]); cbn; repeat split; try done.
  all: match goal with Hpass : _ = true |- _ => now rewrite Hpass end.
Qed.

(** ** What closing a session does to the server process *)

Section Signalling.
Variable E : Env.

(** A process that is running, has no fatal signal pending, and does not
    end on [SIGTERM]. *)
Definition survivor (cp : ChildProcess) : Prop :=
  exited cp = false /\ signalled cp = false /\ exits_on_SIGTERM cp = false.

(** What [close] leaves of a process: that it is running or not, a set
    [killed], and a survivor. *)
Definition close_keeps (cp cp' : ChildProcess) : Prop :=
  exited cp' = exited cp /\
  (killed cp = true -> killed cp' = true) /\
  (survivor cp -> survivor cp').

Lemma close_keeps_refl (cp : ChildProcess) : close_keeps cp cp.
Proof. unfold close_keeps, survivor. tauto. Qed.

Lemma close_keeps_trans (a b c : ChildProcess) :
  close_keeps a b -> close_keeps b c -> close_keeps a c.
Proof.
  intros (H1 & H2 & H3) (H4 & H5 & H6). split; [congruence |].
  split; [tauto |]. intros H. apply H6, H3, H.
Qed.

Lemma close_process (t : ProcessTransport) (cp : ChildProcess) :
  exists cp', snd (fst (Transport.close t (Some cp))) = Some cp' /\ close_keeps cp cp'.
Proof.
  unfold Transport.close.
  assert (Hkill : forall p, close_keeps p (fst (Child.kill SIGTERM p))).
  { intros p. unfold Child.kill, close_keeps, survivor.
    destruct (exited p) eqn:Hex; cbn; [rewrite Hex; tauto |].
    repeat split; try tauto.
    destruct H as (_ & -> & ->). reflexivity. }
  assert (Hrm : forall h p, close_keeps p (Child.removeListener_exit h p)).
  { intros h p. unfold close_keeps, survivor. cbn. tauto. }
  destruct (exitHandler t) as [h|].
  - destruct (killed (Child.removeListener_exit h cp)) eqn:Hk.
    + eexists. split; [reflexivity | apply Hrm].
    + eexists. split; [reflexivity |].
      eapply close_keeps_trans; [apply Hrm | apply Hkill].
  - destruct (killed cp) eqn:Hk.
    + eexists. split; [reflexivity | apply close_keeps_refl].
    + eexists. split; [reflexivity | apply Hkill].
Qed.

(** What an eviction leaves of the world besides the two maps: the
    clients, the server of every transport, and of every process what
    [close] leaves. *)
Definition eviction_keeps (w w' : World) : Prop :=
  clients w' = clients w /\
  (forall tr t, transports w !! tr = Some t ->
     exists t', transports w' !! tr = Some t' /\ server t' = server t) /\
  (forall pid cp, processes w !! pid = Some cp ->
     exists cp', processes w' !! pid = Some cp' /\ close_keeps cp cp').

Lemma eviction_keeps_refl (w : World) : eviction_keeps w w.
Proof.
  repeat split; eauto. intros pid cp Hcp. eauto using close_keeps_refl.
Qed.

Lemma eviction_keeps_trans (a b c : World) :
  eviction_keeps a b -> eviction_keeps b c -> eviction_keeps a c.
Proof.
  intros (H1 & H2 & H3) (H4 & H5 & H6). split; [congruence |]. split.
  - intros tr t Ht. destruct (H2 tr t Ht) as (t1 & Ht1 & Hs1).
    destruct (H5 tr t1 Ht1) as (t2 & Ht2 & Hs2). exists t2. split; congruence.
  - intros pid cp Hcp. destruct (H3 pid cp Hcp) as (cp1 & Hcp1 & Hk1).
    destruct (H6 pid cp1 Hcp1) as (cp2 & Hcp2 & Hk2).
    exists cp2. split; [assumption |]. eapply close_keeps_trans; eassumption.
Qed.

Lemma transport_close_keeps (tr : nat) (w : World) :
  eviction_keeps w (snd (transport_close E tr w)).
Proof.
  unfold transport_close. munfold. cbn -[Transport.close].
  destruct (transports w !! tr) as [t|] eqn:Ht; cbn -[Transport.close].
  2: { repeat split; eauto using close_keeps_refl. }
  assert (Hgoal : forall ns,
    eviction_keeps w
      (W.emit ns
         (match snd (fst (Transport.close t (processes w !! process (server t)))) with
          | Some cp => W.set_processes <[process (server t) := cp]>
                         (W.set_transports
                            <[tr := fst (fst (Transport.close t
                                     (processes w !! process (server t))))]>
                            (W.set_tick (S (tick w)) w))
          | None => W.set_transports
                      <[tr := fst (fst (Transport.close t
                                 (processes w !! process (server t))))]>
                      (W.set_tick (S (tick w)) w)
          end))).
  { intros ns.
    assert (Htr : forall tr0 t0, transports w !! tr0 = Some t0 ->
              exists t', <[tr := fst (fst (Transport.close t
                                   (processes w !! process (server t))))]>
                           (transports w) !! tr0 = Some t' /\
                         server t' = server t0).
    { intros tr0 t0 Ht0. destruct (decide (tr = tr0)) as [<- | Hne].
      - rewrite lookup_insert_eq. eexists. split; [reflexivity |].
        rewrite Ht in Ht0. inversion Ht0; subst. reflexivity.
      - rewrite lookup_insert_ne by assumption. eauto. }
    destruct (processes w !! process (server t)) as [cp0|] eqn:Hcp0.
    - destruct (close_process t cp0) as (cp' & Hclose & Hkeeps).
      rewrite Hclose. split; [reflexivity |]. split; [exact Htr |].
      intros pid cp Hcp. cbn.
      destruct (decide (process (server t) = pid)) as [<- | Hne].
      + rewrite lookup_insert_eq. rewrite Hcp0 in Hcp. inversion Hcp; subst. eauto.
      + rewrite lookup_insert_ne by assumption. eauto using close_keeps_refl.
    - assert (Hnone : snd (fst (Transport.close t None)) = None).
      { unfold Transport.close. now destruct (exitHandler t). }
      rewrite Hnone. split; [reflexivity |]. split; [exact Htr |].
      intros pid cp Hcp. cbn. eauto using close_keeps_refl. }
  destruct (onclose t); [destruct (onclose_throws E (tick w)) |]; apply Hgoal.
Qed.

Lemma removeClientFromCache_keeps (serverName : string) (w : World) :
  eviction_keeps w (snd (removeClientFromCache E serverName w)).
Proof.
  unfold removeClientFromCache.
  destruct (connectedClients w !! serverName) as [c|]; [| apply eviction_keeps_refl].
  unfold try_finally, try_catch. cbn.
  assert (Hm : forall m : M unit, eviction_keeps w (snd (m w)) ->
            eviction_keeps w
              (W.set_connectedClients (delete serverName)
                 (snd (match m w with
                       | (Ok a, w') => (Ok a, w')
                       | (Throw _, w') => ret tt w'
                       end)))).
  { intros m H. destruct (m w) as [[[]|e] w']; exact H. }
  destruct (clients w !! c) as [[[tr|]]|].
  - apply (Hm (transport_close E tr)), transport_close_keeps.
  - apply (Hm (ret tt)), eviction_keeps_refl.
  - apply (Hm (ret tt)), eviction_keeps_refl.
Qed.

Lemma remove_each_keeps (serverNames : list string) (w : World) :
  eviction_keeps w (snd (remove_each E serverNames w)).
Proof.
  revert w. induction serverNames as [|n more IH]; intros w.
  - apply eviction_keeps_refl.
  - cbn [remove_each]. unfold mbind, M_bind.
    pose proof (removeClientFromCache_keeps n w) as H1.
    destruct (removeClientFromCache_run E n w) as (w1 & Hrun & _).
    rewrite Hrun in H1 |- *. cbn in H1.
    eapply eviction_keeps_trans; [exact H1 | apply IH].
Qed.

(** The loop of [clearClientCache] signals the process of every session
    it closes. *)
Lemma remove_each_kills (serverNames : list string) (serverName : string)
    (w : World) (c tr : nat) (client : Client) (t : ProcessTransport)
    (cp : ChildProcess) :
  serverName ∈ serverNames ->
  connectedClients w !! serverName = Some c ->
  clients w !! c = Some client ->
  transport client = Some tr ->
  transports w !! tr = Some t ->
  processes w !! process (server t) = Some cp ->
  exited cp = false ->
  exists cp', processes (snd (remove_each E serverNames w)) !! process (server t)
                = Some cp' /\ killed cp' = true.
Proof.
  revert w t cp. induction serverNames as [|n more IH];
    intros w t cp Hin Hc Hclient Htr Ht Hcp Hex.
  - now apply not_elem_of_nil in Hin.
  - cbn [remove_each]. unfold mbind, M_bind.
    pose proof (removeClientFromCache_keeps n w) as (Hcl & Htrs & Hps).
    destruct (removeClientFromCache_run E n w) as (w1 & Hrun & Hc1 & _).
    destruct (decide (n = serverName)) as [-> | Hne].
    + destruct (removeClientFromCache_kills E serverName w c tr client t (server t) cp)
        as (cp1 & Hcp1 & Hk1); try assumption; [reflexivity |].
      rewrite Hrun in Hcp1 |- *. cbn in Hcp1 |- *.
      destruct (remove_each_keeps more w1) as (_ & _ & Hps').
      destruct (Hps' _ _ Hcp1) as (cp' & Hcp' & _ & Hk' & _).
      exists cp'. split; [exact Hcp' | now apply Hk'].
    + rewrite Hrun in Hcl, Htrs, Hps |- *. cbn in Hcl, Htrs, Hps |- *.
      apply elem_of_cons in Hin as [Heq | Hin]; [congruence |].
      destruct (Htrs tr t Ht) as (t1 & Ht1 & Hs1).
      destruct (Hps _ _ Hcp) as (cp1 & Hcp1 & Hex1 & _).
      rewrite <- Hs1 in Hcp1 |- *.
      apply (IH w1 t1 cp1); try assumption; try congruence.
      rewrite Hc1, lookup_delete_ne by congruence. exact Hc.
Qed.

End Signalling.

(** X25. [stopServer] sends one [SIGTERM] and does not wait for the exit:
    for a registered server whose process is running and does not end on
    [SIGTERM], it answers [stopped] and the name is in neither map, while
    the process is still running, with [killed] set and no fatal signal
    pending. *)
Theorem stopServer_leaves_survivor (E : Env) (server_name : string) (w : World)
    (srv : ServerProcess) (cp : ChildProcess) :
  runningServers w !! server_name = Some srv ->
  processes w !! process srv = Some cp ->
  exited cp = false -> signalled cp = false -> exits_on_SIGTERM cp = false ->
  exists w' cp',
    stopServer E server_name w = (Ok (stopped server_name), w') /\
    runningServers w' !! server_name = None /\
    connectedClients w' !! server_name = None /\
    processes w' !! process srv = Some cp' /\
    killed cp' = true /\ exited cp' = false /\ signalled cp' = false.
Proof.
  intros Hsrv Hcp Hex Hsig Hterm.
  unfold stopServer, getServerProcess, kill. munfold. rewrite Hsrv. cbn.
  rewrite Hsrv, Hcp. cbn.
  set (w1 := W.set_runningServers (delete server_name) _).
  pose proof (removeClientFromCache_keeps E server_name w1) as (_ & _ & Hps).
  destruct (removeClientFromCache_run E server_name w1) as (w2 & Hrun & Hc2 & Hs2).
  rewrite Hrun in Hps |- *. cbn in Hps |- *.
  destruct (Hps (process srv) (fst (Child.kill SIGTERM cp)))
    as (cp' & Hcp' & _ & Hk & Hsurv).
  { subst w1. cbn. apply lookup_insert_eq. }
  unfold Child.kill in Hk, Hsurv. rewrite Hex in Hk, Hsurv. cbn in Hk, Hsurv.
  destruct Hsurv as (Hex' & Hsig' & _).
  { unfold survivor. cbn. now rewrite Hsig, Hterm. }
  exists w2, cp'. split; [reflexivity |].
  split; [rewrite Hs2; apply lookup_delete_eq |].
  split; [rewrite Hc2; apply lookup_delete_eq |].
  split; [exact Hcp' |]. split; [now apply Hk |]. split; assumption.
Qed.

Lemma stopServer_leaves_survivor_witness :
  let E := Sample.env Sample.answers false in
  let deployed := snd (deployServer E (Sample.deploy "/src/a") Sample.empty_world) in
  exists w' cp',
    stopServer E "srv" deployed = (Ok (stopped "srv"), w') /\
    runningServers w' !! "srv" = None /\
    processes w' !! 0%nat = Some cp' /\ exited cp' = false.
Proof.
  intros E deployed.
  destruct (stopServer_leaves_survivor E "srv" deployed
              {| process := 0%nat; name := "srv"; source_path := "/src/a";
                 deployed_at := 1000 |}
              (Child.on_exit 1 (DeployExit "srv" false) (Child.spawned false)))
    as (w' & cp' & Hrun & Hs & _ & Hcp & _ & Hex & _); try reflexivity.
  exists w', cp'. repeat split; assumption.
Defined.

(** X26. Clearing the cache signals the servers: [clearClientCache] closes
    the transport of every cached client, and [close] sends [SIGTERM] to
    the process of the server. For a registered server whose client was
    cached and whose process had not exited, the process has [killed] set
    afterwards, the server is still registered, and the next acquisition
    fails: [start] refuses the process and [getClient] throws the
    [ToolCallError] for [connect]. *)
Theorem clearClientCache_signals_servers (E : Env)
    (keys : gmap string nat -> list string) (serverName : string) (w : World)
    (c tr : nat) (client : Client) (t : ProcessTransport) (srv : ServerProcess)
    (cp : ChildProcess) :
  (forall m : gmap string nat, keys m ≡ₚ (map_to_list m).*1) ->
  connectedClients w !! serverName = Some c ->
  clients w !! c = Some client ->
  transport client = Some tr ->
  transports w !! tr = Some t ->
  process (server t) = process srv ->
  runningServers w !! serverName = Some srv ->
  processes w !! process srv = Some cp ->
  exited cp = false ->
  exists w' cp',
    clearClientCache E keys w = (Ok tt, w') /\
    runningServers w' !! serverName = Some srv /\
    processes w' !! process srv = Some cp' /\ killed cp' = true /\
    fst (getClient E serverName w') =
      Throw (ToolCallError serverName "connect"
               ("Server process for " +:+ name srv +:+ " is not active")).
Proof.
  intros Hkeys Hc Hclient Htr Ht Hpid Hsrv Hcp Hex.
  destruct (clearClientCache_run E keys Hkeys w)
    as (w' & Hrun & Hempty & Hs & Hloop & _).
  rewrite <- Hpid in Hcp.
  destruct (remove_each_kills E (keys (connectedClients w)) serverName w c tr
              client t cp) as (cp' & Hcp' & Hk); try assumption.
  { apply (keys_elem keys Hkeys). eauto. }
  rewrite Hloop in Hcp'. cbn in Hcp'. rewrite Hpid in Hcp'.
  exists w', cp'. split; [exact Hrun |]. split; [now rewrite Hs |].
  split; [exact Hcp' |]. split; [exact Hk |].
  unfold getClient. munfold. cbn. rewrite Hempty, lookup_empty.
  apply (createNewClient_killed E serverName w' srv cp'); try assumption.
  now rewrite Hs.
Qed.

Lemma clearClientCache_signals_servers_witness :
  let E := Sample.env Sample.answers true in
  let keys := fun m : gmap string nat => (map_to_list m).*1 in
  let deployed := snd (deployServer E (Sample.deploy_persistent "/src/a")
                         Sample.empty_world) in
  let connected := snd (getClient E "srv" deployed) in
  exists w',
    clearClientCache E keys connected = (Ok tt, w') /\
    fst (getClient E "srv" w') =
      Throw (ToolCallError "srv" "connect" "Server process for srv is not active").
Proof.
  intros E keys deployed connected.
  destruct (clearClientCache_signals_servers E keys "srv" connected 3 2
              {| transport := Some 2%nat |}
              {| server := {| process := 0%nat; name := "srv"; source_path := "/src/a";
                              deployed_at := 1000 |};
                 messageBuffer := EmptyString; isConnected := true;
                 exitHandler := Some 4%nat; onclose := true; onerror := true;
                 onmessage := true |}
              {| process := 0%nat; name := "srv"; source_path := "/src/a";
                 deployed_at := 1000 |}
              {| killed := false; exited := false; signalled := false;
                 exits_on_SIGTERM := true;
                 exit_listeners := [(1%nat, DeployExit "srv" true);
                                    (4%nat, TransportExit 2)];
                 error_listeners := [2%nat]; data_listeners := [2%nat] |})
    as (w' & cp' & Hrun & _ & _ & _ & Hget); try reflexivity.
  exists w'. split; [exact Hrun | exact Hget].
Defined.

(** ** The answer of a tool, and what a deployment starts *)

Section Answers.
Variable E : Env.

(** An item of a tool's answer that is not null and not a text. *)
Definition not_text (item : Json) : Prop :=
  item <> JNull /\ prop item "type" <> Some (JStr "text").

Lemma text_match_miss {A : Type} (x : option Json) (a b : A) :
  x <> Some (JStr "text") ->
  match x with Some (JStr "text") => a | _ => b end = b.
Proof.
  intros Hne.
  destruct x as [[| | |s| |]|]; try reflexivity.
  destruct s as [|[[] [] [] [] [] [] [] []] s1]; try reflexivity.
  destruct s1 as [|[[] [] [] [] [] [] [] []] s2]; try reflexivity.
  destruct s2 as [|[[] [] [] [] [] [] [] []] s3]; try reflexivity.
  destruct s3 as [|[[] [] [] [] [] [] [] []] s4]; try reflexivity.
  destruct s4; [congruence | reflexivity].
Qed.

Lemma find_text_first (others rest : list Json) (item : Json) :
  Forall not_text others ->
  item <> JNull -> prop item "type" = Some (JStr "text") ->
  find_text (others ++ item :: rest) = Ok (Some item).
Proof.
  intros Hothers Hnull Htype. induction Hothers as [|o others [Ho1 Ho2] _ IH].
  - cbn [app find_text]. rewrite Htype. now destruct item.
  - cbn [app find_text]. rewrite text_match_miss by assumption.
    rewrite IH. now destruct o.
Qed.

Lemma find_text_none (others : list Json) :
  Forall not_text others -> find_text others = Ok None.
Proof.
  intros Hothers. induction Hothers as [|o others [Ho1 Ho2] _ IH]; [reflexivity |].
  cbn [find_text]. rewrite text_match_miss by assumption.
  rewrite IH. now destruct o.
Qed.

Lemma extract_result_text (response item : Json) (others rest : list Json) :
  json_truthy response = true ->
  prop response "content" = Some (JArr (others ++ item :: rest)) ->
  Forall not_text others ->
  prop item "type" = Some (JStr "text") ->
  extract_result E response =
  Ok (match prop item "text" with
      | Some text =>
          if json_truthy text then
            match parse_value E text with
            | inl parsed => parsed
            | inr _ => text
            end
          else response
      | None => response
      end).
Proof.
  intros Htruthy Hcontent Hothers Htype.
  unfold extract_result. rewrite Htruthy, Hcontent.
  rewrite (find_text_first others rest item Hothers); [| | exact Htype].
  - destruct (prop item "text") as [text|]; [| reflexivity].
    now destruct (json_truthy text).
  - intros ->. discriminate.
Qed.

End Answers.

(** X27. The result of a tool call is read from the first text item of
    the answer. When the session is there and the tool answers with an
    object whose [content] is an array, the first item of type [text]
    decides the [result] of [callTool]: if its [text] is truthy, the
    result is that text, converted to a string and parsed as JSON if that
    parses, and the text as it is if it does not; if the item has no
    [text], or one that is not truthy, such as the empty string, the
    result is the whole answer. With no item of type [text] the result is
    the whole answer as well. There is no error, and the duration is the
    difference of the two readings of the clock. *)
Theorem callTool_text_answer (E : Env) (input : CallToolInput.t) (w w1 : World)
    (client : nat) (response : Json) (others : list Json)
    (found : option (Json * list Json)) :
  getClient E (CallToolInput.server_name input) (W.set_tick (S (tick w)) w)
    = (Ok client, w1) ->
  rpc_result (client_callTool E (tick w1) (CallToolInput.tool_name input)
                (CallToolInput.arguments input)) = Fulfilled response ->
  json_truthy response = true ->
  prop response "content" =
    Some (JArr (others ++ match found with
                          | Some (item, rest) => item :: rest
                          | None => []
                          end)) ->
  Forall not_text others ->
  (forall item rest, found = Some (item, rest) ->
     prop item "type" = Some (JStr "text")) ->
  callTool E input w =
  (Ok {| CallToolResponse.result :=
           match found with
           | Some (item, _) =>
               match prop item "text" with
               | Some text =>
                   if json_truthy text then
                     match JSON_parse E (match text with
                                         | JStr s => s
                                         | _ => to_String E text
                                         end) with
                     | inl parsed => parsed
                     | inr _ => text
                     end
                   else response
               | None => response
               end
           | None => response
           end;
         CallToolResponse.error := None;
         CallToolResponse.duration_ms :=
           Date_now E (S (tick w1)) - Date_now E (tick w) |},
   W.set_tick (S (S (tick w1))) w1).
Proof.
  intros Hget Hcall Htruthy Hcontent Hothers Htype.
  unfold callTool. munfold. cbn. rewrite Hget. cbn. rewrite Hcall. cbn.
  destruct found as [[item rest]|].
  - now rewrite (extract_result_text E response item others rest Htruthy Hcontent
                   Hothers (Htype item rest eq_refl)).
  - unfold extract_result. rewrite Htruthy, Hcontent, app_nil_r.
    now rewrite (find_text_none others Hothers).
Qed.

Lemma callTool_text_answer_witness :
  let listing := Sample.answers in
  let texts := fun first : string =>
    JObj [("content",
           JArr [JObj [("type", JStr "image")];
                 JObj [("type", JStr "text"); ("text", JStr first)];
                 JObj [("type", JStr "text"); ("text", JStr "43")]])] in
  let env_of := fun answer : Json =>
    {| JSON_parse := Sample.parse;
       JSON_stringify := fun _ => "{}";
       to_String := fun _ => "[object Object]";
       RegExp_test := fun _ _ => inl true;
       path_join := fun a b => a +:+ "/" +:+ b;
       cwd := "/harness";
       ServerNotFoundError_message := fun n => "Server not found: " +:+ n;
       ServerDeploymentError_message := fun m => "Deployment failed: " +:+ m;
       ToolCallError_message := fun s t m => s +:+ "." +:+ t +:+ ": " +:+ m;
       client_connect := fun _ => {| rpc_after := 5; rpc_result := Fulfilled tt |};
       client_listTools := listing;
       client_callTool := fun _ _ _ =>
         {| rpc_after := 5; rpc_result := Fulfilled answer |};
       onclose_throws := fun _ => None;
       Date_now := fun k => 1000 * Z.of_nat k;
       spawn_throws := fun _ => None;
       child_exits_on_SIGTERM := fun _ => true;
       Buffer_toString := Utf8.toString;
       exits_during_wait := fun _ => [] |} in
  let deployed := fun E : Env =>
    snd (deployServer E (Sample.deploy "/src/a") Sample.empty_world) in
  let input := {| CallToolInput.server_name := "srv"; CallToolInput.tool_name := "echo";
                  CallToolInput.arguments := JObj [] |} in
  fst (callTool (env_of (texts "42")) input (deployed (env_of (texts "42")))) =
    Ok {| CallToolResponse.result := JNum 42; CallToolResponse.error := None;
          CallToolResponse.duration_ms := 3000 |} /\
  fst (callTool (env_of (texts EmptyString)) input
         (deployed (env_of (texts EmptyString)))) =
    Ok {| CallToolResponse.result := texts EmptyString; CallToolResponse.error := None;
          CallToolResponse.duration_ms := 3000 |}.
Proof.
  intros listing texts env_of deployed input.
  assert (Hcase : forall first : string,
            fst (callTool (env_of (texts first)) input (deployed (env_of (texts first)))) =
            Ok {| CallToolResponse.result :=
                    if Js.truthy first then
                      match Sample.parse first with
                      | inl parsed => parsed
                      | inr _ => JStr first
                      end
                    else texts first;
                  CallToolResponse.error := None;
                  CallToolResponse.duration_ms := 3000 |}).
  { intros first.
    set (E := env_of (texts first)).
    assert (Hget : getClient E "srv" (W.set_tick (S (tick (deployed E))) (deployed E)) =
                   (Ok 3%nat,
                    snd (getClient E "srv"
                           (W.set_tick (S (tick (deployed E))) (deployed E)))))
      by (vm_compute; reflexivity).
    rewrite (callTool_text_answer E input (deployed E)
               (snd (getClient E "srv" (W.set_tick (S (tick (deployed E))) (deployed E))))
               3 (texts first) [JObj [("type", JStr "image")]]
               (Some (JObj [("type", JStr "text"); ("text", JStr first)],
                      [JObj [("type", JStr "text"); ("text", JStr "43")]])) Hget).
    - vm_compute. reflexivity.
    - vm_compute. reflexivity.
    - reflexivity.
    - reflexivity.
    - repeat constructor; discriminate.
    - intros item rest Hfound. inversion Hfound. reflexivity. }
  split; [exact (Hcase "42") | exact (Hcase EmptyString)].
Defined.

(** X28. What a deployment starts: the process is started in the source
    directory, with the command [npm run start] if the [package.json] of
    the source has a [scripts.start] that is truthy and [node dist/index.js]
    if it has not, and in the environment of the harness with the given
    variables over it: a variable that is given wins, one that is not is
    inherited. Starting the process is the last thing recorded before the
    deployment waits for a second; what is recorded after it before the
    deployment returns is what the processes that end during the wait add,
    which is nothing if none ends. *)
Theorem deployServer_starts (E : Env) (input : DeployServerInput.t) (w w' : World)
    (response : DeployServerResponse.t) (content : string) (packageJson : Json)
    (start : bool) :
  let sourcePath := DeployServerInput.source_path input in
  let ended := exits_during_wait E (next_ref w) in
  deployServer E input w = (Ok response, w') ->
  files w !! path_join E sourcePath "package.json" = Some (File content) ->
  JSON_parse E content = inl packageJson ->
  has_start_script packageJson = Ok start ->
  exists w0 events environment after,
    w' = processes_exit ended w0 /\
    log w0 = events ++
      [Spawned (next_ref w) (if start then "npm run start" else "node dist/index.js")
         sourcePath environment] /\
    log w' = log w0 ++ after /\
    (ended = [] -> after = []) /\
    forall key,
      environment !! key =
      match DeployServerInput.env_vars input with
      | Some vars =>
          match vars !! key with
          | Some value => Some value
          | None => process_env w !! key
          end
      | None => process_env w !! key
      end.
Proof.
  intros sourcePath ended Hrun Hpkg Hparse Hstart.
  unfold deployServer in Hrun. fold sourcePath in Hrun.
  unfold try_catch in Hrun.
  match type of Hrun with context [match ?b with _ => _ end] =>
    destruct b as [[response0 | e] w0] eqn:Hbody
  end.
  2: { destruct e; discriminate. }
  inversion Hrun; subst response0 w0; clear Hrun.
  unfold mbind, M_bind in Hbody.
  pose proof (validateSourcePath_world E sourcePath w) as Hv.
  destruct (validateSourcePath E _ w) as [[[]|e] w0]; [| discriminate].
  cbn in Hv. subst w0.
  destruct (teardown_run E (DeployServerInput.name input) w)
    as (w1 & w2 & Hrm & Hs1 & Hterm & _ & Hf2 & He2 & Hn2 & _).
  rewrite Hrm in Hbody. unfold gets in Hbody. rewrite Hs1 in Hbody.
  assert (Hrest : forall (k : unit -> M DeployServerResponse.t),
            match (if runningServers w !! DeployServerInput.name input is Some _
                   then terminateProcess (DeployServerInput.name input)
                   else ret tt) w1 with
            | (Ok a, w3) => k a w3
            | (Throw e, w3) => (Throw e, w3)
            end = k tt w2).
  { intros k. destruct (runningServers w !! DeployServerInput.name input).
    - now rewrite Hterm.
    - now subst w2. }
  rewrite Hrest in Hbody. clear Hrest.
  assert (Hcmd : determineStartCommand E sourcePath w2 =
                 (Ok (if start then "npm run start" else "node dist/index.js"), w2)).
  { unfold determineStartCommand, readFileSync. munfold. cbn.
    rewrite Hf2, Hpkg, Hparse, Hstart. now destruct start. }
  rewrite Hcmd in Hbody.
  unfold prepareEnvironmentVariables, spawn, setupLogStream, now, initial_wait in Hbody.
  munfold. cbn -[processes_exit] in Hbody.
  destruct (spawn_throws E (tick w2)) as [msg|]; [discriminate |].
  cbn -[processes_exit] in Hbody. inversion Hbody; subst; clear Hbody.
  unfold ended. rewrite <- Hn2.
  match goal with |- context [processes_exit ?pids ?w0] =>
    destruct (processes_exit_frame pids w0) as (_ & _ & _ & [after Hl] & _);
    exists w0, (log w2)
  end.
  eexists. exists after. split; [reflexivity |]. split; [reflexivity |].
  split; [exact Hl |]. split.
  { intros Hended. rewrite Hended in Hl. cbn in Hl.
    eapply app_inv_head. rewrite app_nil_r. symmetry. exact Hl. }
  intros key. rewrite He2.
  destruct (DeployServerInput.env_vars input) as [vars|]; [| reflexivity].
  rewrite lookup_union. destruct (vars !! key), (process_env w !! key); reflexivity.
Qed.

Lemma deployServer_starts_witness :
  let E := Sample.env Sample.answers true in
  let fs := <["/src/c" := Directory]>
              (<["/src/c/package.json" := File "7"]> Sample.sources) in
  let E' := {| JSON_parse := fun _ => inl (JObj [("scripts", JObj [("start", JStr "node .")])]);
               JSON_stringify := JSON_stringify E; to_String := to_String E;
               RegExp_test := RegExp_test E; path_join := path_join E; cwd := cwd E;
               ServerNotFoundError_message := ServerNotFoundError_message E;
               ServerDeploymentError_message := ServerDeploymentError_message E;
               ToolCallError_message := ToolCallError_message E;
               client_connect := client_connect E;
               client_listTools := client_listTools E;
               client_callTool := client_callTool E;
               onclose_throws := onclose_throws E; Date_now := Date_now E;
               spawn_throws := spawn_throws E;
               child_exits_on_SIGTERM := child_exits_on_SIGTERM E;
               Buffer_toString := Buffer_toString E;
               exits_during_wait := exits_during_wait E |} in
  let input := {| DeployServerInput.name := "srv";
                  DeployServerInput.source_path := "/src/c";
                  DeployServerInput.env_vars := Some (<["PORT" := "8080"]> ∅);
                  DeployServerInput.persistent := true |} in
  let w := W.initial fs (<["PORT" := "80"]> (<["HOME" := "/root"]> ∅)) in
  exists events environment,
    log (snd (deployServer E' input w)) =
      events ++ [Spawned 0 "npm run start" "/src/c" environment] /\
    environment !! "PORT" = Some "8080" /\ environment !! "HOME" = Some "/root".
Proof.
  intros E fs E' input w.
  destruct (deployServer_starts E' input w (snd (deployServer E' input w))
              {| DeployServerResponse.name := "srv";
                 DeployServerResponse.id := "mcp-test-srv";
                 DeployServerResponse.status := "running" |}
              "7" (JObj [("scripts", JObj [("start", JStr "node .")])]) true)
    as (w0 & events & environment & after & _ & Hlog0 & Hlog & Hnone & Henv).
  - vm_compute. reflexivity.
  - vm_compute. reflexivity.
  - reflexivity.
  - reflexivity.
  - exists events, environment. split.
    + rewrite Hlog, Hlog0, (Hnone eq_refl). apply app_nil_r.
    + split; [exact (Henv "PORT") | exact (Henv "HOME")].
Defined.

(** X29. The exit of a process never touches the cache of clients, the
    map [connectedClients], and never registers a server: it only deletes
    from the running servers. The entry of a client whose server has
    exited stays in the cache. *)
Theorem process_exit_keeps_cache (pid : nat) (w : World) :
  connectedClients (process_exit pid w) = connectedClients w /\
  forall serverName srv,
    runningServers (process_exit pid w) !! serverName = Some srv ->
    runningServers w !! serverName = Some srv.
Proof.
  unfold process_exit. destruct (processes w !! pid) as [p|]; [| done].
  match goal with |- context [fold_left run_exit_listener ?listeners ?w0] =>
    destruct (exit_listeners_cache listeners w0) as [Hc _];
    pose proof (exit_listeners_delete_only listeners w0) as Hs
  end.
  rewrite Hc. cbn. split; [reflexivity |].
  intros serverName srv H. apply Hs in H. exact H.
Qed.

(** X30. [close] takes off the [exit] listener only: the [data] and
    [error] listeners that [start] put on the process stay, and
    [handleData] does not look at the connection. What the process writes
    after the close still goes through the closed transport to
    [onmessage]. *)
Theorem close_leaves_data_listener (E : Env) (self h : nat)
    (t t1 : ProcessTransport) (p p1 : ChildProcess) :
  Transport.start self h t (Some p) = (t1, Some p1, Ok tt) ->
  exists p2,
    snd (fst (Transport.close t1 (Some p1))) = Some p2 /\
    data_listeners p2 = data_listeners p ++ [self] /\
    error_listeners p2 = error_listeners p ++ [self] /\
    exit_listeners p2 = exit_listeners p /\
    forall data,
      snd (Transport.handleData E (fst (fst (Transport.close t1 (Some p1)))) data) =
      snd (Transport.handleData E t1 data).
Proof.
  unfold Transport.start. destruct (killed p) eqn:Hk; [discriminate |].
  intros H. inversion H; subst; clear H.
  assert (Hexit : forall ls : list (nat * ExitListener),
            rev (Child.remove_first h (rev (ls ++ [(h, TransportExit self)]))) = ls).
  { intros ls. rewrite rev_app_distr. cbn. rewrite decide_True by reflexivity.
    apply rev_involutive. }
  unfold Transport.close. cbn. rewrite Hk. unfold Child.kill. cbn.
  destruct (exited p); cbn; eexists; (split; [reflexivity |]); cbn;
    (split; [reflexivity |]); (split; [reflexivity |]);
    (split; [apply Hexit |]);
    intros data; rewrite !handleData_loop_frames; reflexivity.
Qed.

Lemma close_leaves_data_listener_witness :
  let E := Sample.env Sample.answers true in
  let closed := fst (fst (Transport.close (fst sample_started) (Some (snd sample_started)))) in
  isConnected closed = false /\
  snd (Transport.handleData E closed ("42" +:+ Js.LF)) = [OnMessage (JNum 42)].
Proof.
  intros E closed. split; [reflexivity |].
  destruct (close_leaves_data_listener E 0 1 sample_transport (fst sample_started)
              (Child.spawned true) (snd sample_started) eq_refl)
    as (p2 & _ & _ & _ & _ & Hdata).
  unfold closed. rewrite Hdata. reflexivity.
Defined.
